(** * model/upload_session.go: upload sessions, their validation, defaulting
      and JSON interchange.

    The Go file is embedded function by function.  Go strings are byte
    sequences, so they are Rocq [string]s (lists of 8-bit [ascii]); the
    [int64] fields are [Z] with the range written out where it matters (the
    file does no arithmetic on them, only comparisons, printing and
    parsing); a Go [error] or [*AppError] that may be [nil] is an [option].
    The helpers the file calls but does not define ([IsValidId], [NewId],
    [GetMillis]) are section variables.

    [ToJson] and the two decoders are calls of the Go library, so the part
    of encoding/json (and of unicode/utf8 under it) that these calls run
    is embedded too, on bytes: the encoder of strings with its escapes,
    the printer of integers, the grammar of the scanner and the rules by
    which a value is stored in the struct. *)

From Stdlib Require Import ZArith List String Ascii Bool Lia.
From Stdlib Require Import Decimal DecimalFacts DecimalPos DecimalString DecimalZ.
Import ListNotations.

Local Open Scope string_scope.
Local Open Scope Z_scope.

(** ** The data model *)

(** [type UploadType string] and its two constants. *)
Definition UploadType := string.
Definition UploadTypeAttachment : UploadType := "attachment".
Definition UploadTypeImport : UploadType := "import".

(** [type UploadSession struct]; [Type] is a reserved word, hence [Type_]. *)
Record UploadSession := mkUploadSession {
  Id : string;
  Type_ : UploadType;
  CreateAt : Z;
  UserId : string;
  ChannelId : string;
  Filename : string;
  Path : string;
  FileSize : Z;
  FileOffset : Z
}.

(** The zero value [UploadSession{}] of [var us UploadSession]. *)
Definition zero_session : UploadSession :=
  mkUploadSession "" "" 0 "" "" "" "" 0 0.

(** Field assignments [us.F = v]. *)
Definition set_Id (v : string) (us : UploadSession) : UploadSession :=
  mkUploadSession v (Type_ us) (CreateAt us) (UserId us) (ChannelId us)
    (Filename us) (Path us) (FileSize us) (FileOffset us).
Definition set_Type (v : UploadType) (us : UploadSession) : UploadSession :=
  mkUploadSession (Id us) v (CreateAt us) (UserId us) (ChannelId us)
    (Filename us) (Path us) (FileSize us) (FileOffset us).
Definition set_CreateAt (v : Z) (us : UploadSession) : UploadSession :=
  mkUploadSession (Id us) (Type_ us) v (UserId us) (ChannelId us)
    (Filename us) (Path us) (FileSize us) (FileOffset us).
Definition set_UserId (v : string) (us : UploadSession) : UploadSession :=
  mkUploadSession (Id us) (Type_ us) (CreateAt us) v (ChannelId us)
    (Filename us) (Path us) (FileSize us) (FileOffset us).
Definition set_ChannelId (v : string) (us : UploadSession) : UploadSession :=
  mkUploadSession (Id us) (Type_ us) (CreateAt us) (UserId us) v
    (Filename us) (Path us) (FileSize us) (FileOffset us).
Definition set_Filename (v : string) (us : UploadSession) : UploadSession :=
  mkUploadSession (Id us) (Type_ us) (CreateAt us) (UserId us) (ChannelId us)
    v (Path us) (FileSize us) (FileOffset us).
Definition set_Path (v : string) (us : UploadSession) : UploadSession :=
  mkUploadSession (Id us) (Type_ us) (CreateAt us) (UserId us) (ChannelId us)
    (Filename us) v (FileSize us) (FileOffset us).
Definition set_FileSize (v : Z) (us : UploadSession) : UploadSession :=
  mkUploadSession (Id us) (Type_ us) (CreateAt us) (UserId us) (ChannelId us)
    (Filename us) (Path us) v (FileOffset us).
Definition set_FileOffset (v : Z) (us : UploadSession) : UploadSession :=
  mkUploadSession (Id us) (Type_ us) (CreateAt us) (UserId us) (ChannelId us)
    (Filename us) (Path us) (FileSize us) v.

(** The range of a Go [int64]. *)
Definition int64_ok (z : Z) : Prop := - 2 ^ 63 <= z < 2 ^ 63.

Definition ints_ok (us : UploadSession) : Prop :=
  int64_ok (CreateAt us) /\ int64_ok (FileSize us) /\ int64_ok (FileOffset us).

(** ** Application errors *)

Module Err.

(** Modelled from the spec: [AppError] and [NewAppError] are declared in
    another file of package model that is not among the sources.  The spec
    (section 7) says what a session validity error carries: the operation
    that detected it, a machine-readable code, contextual detail and a
    status; [NewAppError] stores its arguments in these fields. *)
Record AppError := mkAppError {
  Where : string;
  Id : string;
  Params : list (string * string);
  DetailedError : string;
  StatusCode : Z
}.

Definition NewAppError (where_ id : string) (params : list (string * string))
    (details : string) (status : Z) : AppError :=
  mkAppError where_ id params details status.

End Err.

(** [http.StatusBadRequest]. *)
Definition StatusBadRequest : Z := 400.

(** ** Validation *)

(** [func (t UploadType) IsValid() error]: [nil] is [None], and the error of
    [fmt.Errorf("invalid UploadType %s", t)] is its message. *)
Definition UploadType_IsValid (t : UploadType) : option string :=
  if String.eqb t UploadTypeAttachment then None
  else if String.eqb t UploadTypeImport then None
  else Some ("invalid UploadType " ++ t).

Section Validation.

(** [IsValidId] is declared elsewhere in package model. *)
Variable IsValidId : string -> bool.

Definition app_error (code details : string) : Err.AppError :=
  Err.NewAppError "UploadSession.IsValid" code [] details StatusBadRequest.

(** [func (us *UploadSession) IsValid() *AppError]. *)
Definition IsValid (us : UploadSession) : option Err.AppError :=
  if negb (IsValidId (Id us)) then
    Some (app_error "model.upload_session.is_valid.id.app_error" "")
  else
  match UploadType_IsValid (Type_ us) with
  | Some err =>
    Some (app_error "model.upload_session.is_valid.type.app_error" err)
  | None =>
  if negb (IsValidId (UserId us)) then
    Some (app_error "model.upload_session.is_valid.user_id.app_error"
            ("id=" ++ Id us))
  else
  if String.eqb (Type_ us) UploadTypeAttachment
     && negb (IsValidId (ChannelId us)) then
    Some (app_error "model.upload_session.is_valid.channel_id.app_error"
            ("id=" ++ Id us))
  else
  if CreateAt us =? 0 then
    Some (app_error "model.upload_session.is_valid.create_at.app_error"
            ("id=" ++ Id us))
  else
  if String.eqb (Filename us) "" then
    Some (app_error "model.upload_session.is_valid.filename.app_error"
            ("id=" ++ Id us))
  else
  if FileSize us <=? 0 then
    Some (app_error "model.upload_session.is_valid.file_size.app_error"
            ("id=" ++ Id us))
  else
  if (FileOffset us <? 0) || (FileOffset us >? FileSize us) then
    Some (app_error "model.upload_session.is_valid.file_offset.app_error"
            ("id=" ++ Id us))
  else
  if String.eqb (Path us) "" then
    Some (app_error "model.upload_session.is_valid.path.app_error"
            ("id=" ++ Id us))
  else None
  end.

(** *** The invariants of the data model, as the specification lists them *)

Definition invariants (us : UploadSession) : Prop :=
  IsValidId (Id us) = true /\
  (Type_ us = "attachment" \/ Type_ us = "import") /\
  IsValidId (UserId us) = true /\
  (Type_ us = "attachment" -> IsValidId (ChannelId us) = true) /\
  CreateAt us <> 0 /\
  Filename us <> "" /\
  FileSize us > 0 /\
  0 <= FileOffset us <= FileSize us /\
  Path us <> "".

(** One kind of failure per invariant. *)
Inductive Kind :=
| KId | KType | KUserId | KChannelId | KCreateAt | KFilename | KFileSize
| KFileOffset | KPath.

(** The invariant of kind [k] is violated by [us]. *)
Definition violated (k : Kind) (us : UploadSession) : bool :=
  match k with
  | KId => negb (IsValidId (Id us))
  | KType => negb (String.eqb (Type_ us) "attachment"
                   || String.eqb (Type_ us) "import")
  | KUserId => negb (IsValidId (UserId us))
  | KChannelId => String.eqb (Type_ us) "attachment"
                  && negb (IsValidId (ChannelId us))
  | KCreateAt => CreateAt us =? 0
  | KFilename => String.eqb (Filename us) ""
  | KFileSize => negb (FileSize us >? 0)
  | KFileOffset => negb ((0 <=? FileOffset us)
                         && (FileOffset us <=? FileSize us))
  | KPath => String.eqb (Path us) ""
  end.

(** The first violated invariant in a given order of the kinds. *)
Definition first_violation (order : list Kind) (us : UploadSession)
    : option Kind :=
  find (fun k => violated k us) order.

End Validation.

(** The localization code of each kind of failure. *)
Definition error_code (k : Kind) : string :=
  match k with
  | KId => "model.upload_session.is_valid.id.app_error"
  | KType => "model.upload_session.is_valid.type.app_error"
  | KUserId => "model.upload_session.is_valid.user_id.app_error"
  | KChannelId => "model.upload_session.is_valid.channel_id.app_error"
  | KCreateAt => "model.upload_session.is_valid.create_at.app_error"
  | KFilename => "model.upload_session.is_valid.filename.app_error"
  | KFileSize => "model.upload_session.is_valid.file_size.app_error"
  | KFileOffset => "model.upload_session.is_valid.file_offset.app_error"
  | KPath => "model.upload_session.is_valid.path.app_error"
  end.

(** The detail each kind of failure carries. *)
Definition detail_of (k : Kind) (us : UploadSession) : string :=
  match k with
  | KId => ""
  | KType => "invalid UploadType " ++ Type_ us
  | _ => "id=" ++ Id us
  end.

(** The order of the rows of the field table of the specification. *)
Definition table_order : list Kind :=
  [KId; KType; KCreateAt; KUserId; KChannelId; KFilename; KPath; KFileSize;
   KFileOffset].

(** The order in which [IsValid] runs its checks. *)
Definition check_order : list Kind :=
  [KId; KType; KUserId; KChannelId; KCreateAt; KFilename; KFileSize;
   KFileOffset; KPath].

(** The code of the failure [IsValid] reports, if any. *)
Definition reported (r : option Err.AppError) : option string :=
  option_map Err.Id r.

(** [contains sub s]: [sub] occurs in [s] (Go's [strings.Contains]). *)
Fixpoint contains (sub s : string) : bool :=
  String.prefix sub s ||
  match s with
  | EmptyString => false
  | String _ s' => contains sub s'
  end.

(** ** Defaulting *)

Section Defaulting.

(** [NewId] and [GetMillis] are declared elsewhere in package model; they
    read the process's random source and clock, the [World]. *)
Variable World : Type.
Variable NewId : World -> string * World.
Variable GetMillis : World -> Z * World.

(** [func (us *UploadSession) PreSave()]: the receiver is updated in
    place, so the session is threaded through together with the world. *)
Definition PreSave (us : UploadSession) (w : World)
    : UploadSession * World :=
  let '(us, w) :=
    if String.eqb (Id us) "" then
      let '(id, w) := NewId w in (set_Id id us, w)
    else (us, w) in
  if CreateAt us =? 0 then
    let '(now, w) := GetMillis w in (set_CreateAt now us, w)
  else (us, w).

End Defaulting.

Arguments PreSave {World} NewId GetMillis us w.

(** The world in which [PreSave] reads the clock: the one the Id step
    leaves. *)
Definition after_id {World : Type} (NewId : World -> string * World)
    (us : UploadSession) (w : World) : World :=
  if String.eqb (Id us) "" then snd (NewId w) else w.

(** Modelled from the spec: [IsValidId] is not among the sources and the
    specification only calls it the syntactic check of a well-formed
    identifier.  Every theorem below holds for an arbitrary [IsValidId];
    [IsValidId26] (26 ASCII letters or digits) is the instance at which
    they are evaluated on concrete sessions. *)
Definition is_alnum (c : ascii) : bool :=
  let n := nat_of_ascii c in
  ((48 <=? n) && (n <=? 57) || (65 <=? n) && (n <=? 90)
   || (97 <=? n) && (n <=? 122))%nat.

Fixpoint all_chars (p : ascii -> bool) (s : string) : bool :=
  match s with
  | EmptyString => true
  | String c s' => p c && all_chars p s'
  end.

Definition IsValidId26 (s : string) : bool :=
  (String.length s =? 26)%nat && all_chars is_alnum s.

(** ** Bytes *)

Local Open Scope N_scope.

Definition byte (c : ascii) : N := N_of_ascii c.
Definition chr (n : N) : ascii := ascii_of_N n.

(** The double quote, the backslash and the control characters that the
    JSON text format names. *)
Definition dquote : ascii := Eval cbv in ascii_of_nat 34.
Definition bslash : ascii := Eval cbv in ascii_of_nat 92.
Definition char_bs : ascii := Eval cbv in ascii_of_nat 8.
Definition char_tab : ascii := Eval cbv in ascii_of_nat 9.
Definition char_lf : ascii := Eval cbv in ascii_of_nat 10.
Definition char_ff : ascii := Eval cbv in ascii_of_nat 12.
Definition char_cr : ascii := Eval cbv in ascii_of_nat 13.

Definition str1 (c : ascii) : string := String c EmptyString.

(** [s[n:]], for [n <= len(s)]. *)
Fixpoint drop (n : nat) (s : string) : string :=
  match n, s with
  | O, _ => s
  | S k, String _ t => drop k t
  | S _, EmptyString => EmptyString
  end.

(** [s[:n]], for [n <= len(s)]. *)
Fixpoint take (n : nat) (s : string) : string :=
  match n, s with
  | O, _ => EmptyString
  | S k, String c t => String c (take k t)
  | S _, EmptyString => EmptyString
  end.

(** ** Package unicode/utf8 of the Go library *)

Module Utf8.

Definition RuneError : N := 0xFFFD.
Definition RuneSelf : N := 0x80.
Definition MaxRune : N := 0x10FFFF.

(** The table [first] and [acceptRanges]: for a leading byte of a
    multi-byte sequence, its length and the range its second byte must lie
    in; [None] for the bytes that start no sequence (entry [xx]). *)
Definition first (s0 : N) : option (nat * (N * N)) :=
  if s0 <? 0xC2 then None
  else if s0 <? 0xE0 then Some (2%nat, (0x80, 0xBF))
  else if s0 =? 0xE0 then Some (3%nat, (0xA0, 0xBF))
  else if s0 =? 0xED then Some (3%nat, (0x80, 0x9F))
  else if s0 <? 0xF0 then Some (3%nat, (0x80, 0xBF))
  else if s0 =? 0xF0 then Some (4%nat, (0x90, 0xBF))
  else if s0 <? 0xF4 then Some (4%nat, (0x80, 0xBF))
  else if s0 =? 0xF4 then Some (4%nat, (0x80, 0x8F))
  else None.

(** A continuation byte, [locb <= b <= hicb]. *)
Definition is_cont (b : N) : bool := (0x80 <=? b) && (b <=? 0xBF).

(** [utf8.DecodeRune] / [DecodeRuneInString]: the first rune of [s] and its
    width in bytes; [(RuneError, 1)] at an invalid or short sequence. *)
Definition DecodeRune (s : string) : N * nat :=
  match s with
  | EmptyString => (RuneError, 0%nat)
  | String c0 t0 =>
    let s0 := byte c0 in
    if s0 <? RuneSelf then (s0, 1%nat)
    else
    match first s0 with
    | None => (RuneError, 1%nat)
    | Some (sz, (lo, hi)) =>
      if (String.length s <? sz)%nat then (RuneError, 1%nat) else
      match t0 with
      | EmptyString => (RuneError, 1%nat)
      | String c1 t1 =>
        let s1 := byte c1 in
        if (s1 <? lo) || (hi <? s1) then (RuneError, 1%nat)
        else if (sz <=? 2)%nat then
          (N.lor (N.shiftl (N.land s0 0x1F) 6) (N.land s1 0x3F), 2%nat)
        else
        match t1 with
        | EmptyString => (RuneError, 1%nat)
        | String c2 t2 =>
          let s2 := byte c2 in
          if negb (is_cont s2) then (RuneError, 1%nat)
          else if (sz <=? 3)%nat then
            (N.lor (N.lor (N.shiftl (N.land s0 0x0F) 12)
                          (N.shiftl (N.land s1 0x3F) 6))
                   (N.land s2 0x3F), 3%nat)
          else
          match t2 with
          | EmptyString => (RuneError, 1%nat)
          | String c3 _ =>
            let s3 := byte c3 in
            if negb (is_cont s3) then (RuneError, 1%nat)
            else
              (N.lor (N.lor (N.lor (N.shiftl (N.land s0 0x07) 18)
                                   (N.shiftl (N.land s1 0x3F) 12))
                            (N.shiftl (N.land s2 0x3F) 6))
                     (N.land s3 0x3F), 4%nat)
          end
        end
      end
    end
  end.

(** The three-byte form of [EncodeRune]. *)
Definition encode3 (r : N) : string :=
  String (chr (N.lor 0xE0 (N.shiftr r 12)))
    (String (chr (N.lor 0x80 (N.land (N.shiftr r 6) 0x3F)))
       (str1 (chr (N.lor 0x80 (N.land r 0x3F))))).

(** [utf8.EncodeRune] (and [AppendRune]): the UTF-8 encoding of [r], that
    of [RuneError] when [r] is a surrogate or out of range. *)
Definition EncodeRune (r : N) : string :=
  if r <=? 0x7F then str1 (chr r)
  else if r <=? 0x7FF then
    String (chr (N.lor 0xC0 (N.shiftr r 6)))
      (str1 (chr (N.lor 0x80 (N.land r 0x3F))))
  else if (MaxRune <? r) || ((0xD800 <=? r) && (r <=? 0xDFFF)) then
    encode3 RuneError
  else if r <=? 0xFFFF then encode3 r
  else
    String (chr (N.lor 0xF0 (N.shiftr r 18)))
      (String (chr (N.lor 0x80 (N.land (N.shiftr r 12) 0x3F)))
         (String (chr (N.lor 0x80 (N.land (N.shiftr r 6) 0x3F)))
            (str1 (chr (N.lor 0x80 (N.land r 0x3F)))))).

(** [utf8.ValidString]: the index loop [for i < n { ...; i += size }] is a
    recursion on the string that passes over the [skip] bytes a rune
    already covered. *)
Fixpoint valid_from (skip : nat) (s : string) : bool :=
  match s with
  | EmptyString => true
  | String c t =>
    match skip with
    | S k => valid_from k t
    | O =>
      let '(r, size) := DecodeRune s in
      if (r =? RuneError) && (size =? 1)%nat then false
      else valid_from (size - 1) t
    end
  end.

Definition ValidString (s : string) : bool := valid_from 0 s.

(** What decoding rune after rune and encoding each again makes of a
    string: a byte that starts no valid sequence becomes the encoding of
    [RuneError], a valid sequence is kept. *)
Fixpoint coerce_from (skip : nat) (s : string) : string :=
  match s with
  | EmptyString => EmptyString
  | String c t =>
    match skip with
    | S k => coerce_from k t
    | O =>
      let '(r, size) := DecodeRune s in
      (EncodeRune r ++ coerce_from (size - 1) t)%string
    end
  end.

Definition coerce (s : string) : string := coerce_from 0 s.

End Utf8.

(** ** Package encoding/json of the Go library, as far as the file uses it

    [json.Marshal] of an [*UploadSession] and of a slice of them,
    [json.NewDecoder(data).Decode] into an [UploadSession] and into a
    [[]*UploadSession].  The stream [data] is the string of its bytes. *)

Module Json.

(** *** Encoding *)

Definition hex : string := "0123456789abcdef".

Definition hex_digit (n : N) : ascii :=
  match String.get (N.to_nat n) hex with
  | Some c => c
  | None => "0"%char
  end.

(** [htmlSafeSet], for a byte below [utf8.RuneSelf]. *)
Definition htmlSafe (c : ascii) : bool :=
  negb ((byte c <? 0x20) || Ascii.eqb c dquote || Ascii.eqb c "&"
        || Ascii.eqb c "<" || Ascii.eqb c ">" || Ascii.eqb c bslash).

(** The escape of a byte that is not in [htmlSafeSet]. *)
Definition escape_byte (c : ascii) : string :=
  String bslash
    (if Ascii.eqb c bslash || Ascii.eqb c dquote then str1 c
     else if Ascii.eqb c char_lf then "n"
     else if Ascii.eqb c char_cr then "r"
     else if Ascii.eqb c char_tab then "t"
     else "u00" ++ String (hex_digit (N.shiftr (byte c) 4))
                     (str1 (hex_digit (N.land (byte c) 0xF))))%string.

(** The loop of [encodeState.string] with HTML escaping on, between the
    two quotes; [skip] counts the bytes that [i += size] passes over. *)
Fixpoint encode_from (skip : nat) (s : string) : string :=
  match s with
  | EmptyString => EmptyString
  | String c t =>
    match skip with
    | S k => encode_from k t
    | O =>
      if byte c <? Utf8.RuneSelf then
        ((if htmlSafe c then str1 c else escape_byte c)
         ++ encode_from 0 t)%string
      else
        let '(r, size) := Utf8.DecodeRune s in
        if (r =? Utf8.RuneError) && (size =? 1)%nat then
          (String bslash "ufffd" ++ encode_from 0 t)%string
        else if (r =? 0x2028) || (r =? 0x2029) then
          (String bslash "u202" ++ str1 (hex_digit (N.land r 0xF))
           ++ encode_from (size - 1) t)%string
        else (take size s ++ encode_from (size - 1) t)%string
    end
  end.

Definition encode_string (s : string) : string :=
  String dquote (encode_from 0 s ++ str1 dquote).

(** [strconv.AppendInt(b, v, 10)]. *)
Definition FormatInt (z : Z) : string :=
  NilEmpty.string_of_int (Z.to_int z).

(** The fields of the struct by their tags: [Path] has the tag ["-"] and
    is no field of the encoding, [ChannelId] has [omitempty]. *)
Inductive fvalue :=
| FString (s : string)
| FInt (z : Z).

Definition fields (us : UploadSession) : list (string * fvalue) :=
  [("id", FString (Id us)); ("type", FString (Type_ us));
   ("create_at", FInt (CreateAt us)); ("user_id", FString (UserId us))]
  ++ (if String.eqb (ChannelId us) "" then []
      else [("channel_id", FString (ChannelId us))])
  ++ [("filename", FString (Filename us)); ("file_size", FInt (FileSize us));
      ("file_offset", FInt (FileOffset us))].

Definition encode_value (v : fvalue) : string :=
  match v with
  | FString s => encode_string s
  | FInt z => FormatInt z
  end.

Definition encode_field (f : string * fvalue) : string :=
  (encode_string (fst f) ++ ":" ++ encode_value (snd f))%string.

Fixpoint join (sep : string) (l : list string) : string :=
  match l with
  | [] => EmptyString
  | [x] => x
  | x :: l' => (x ++ sep ++ join sep l')%string
  end.

(** [json.Marshal(us)] for a non-nil [us *UploadSession]. *)
Definition Marshal (us : UploadSession) : string :=
  ("{" ++ join "," (map encode_field (fields us)) ++ "}")%string.

(** [json.Marshal(uss)] for [uss []*UploadSession]: a nil slice and a nil
    pointer are [null]. *)
Definition MarshalList (uss : option (list (option UploadSession)))
    : string :=
  match uss with
  | None => "null"%string
  | Some l =>
    ("[" ++ join "," (map (fun p => match p with
                                     | Some us => Marshal us
                                     | None => "null"%string
                                     end) l) ++ "]")%string
  end.

(** *** Decoding

    [Decoder.Decode] reads the first JSON value of the stream with the
    scanner (leading white space skipped, what follows the value left
    unread) and then stores it in the destination.  The grammar the
    scanner accepts is written here as a recursive descent that builds the
    value; a string literal is unquoted while it is scanned. *)

#[local] Unset Elimination Schemes.
Inductive json :=
| JNull
| JBool (b : bool)
| JNumber (lit : string)
| JString (s : string)
| JArray (l : list json)
| JObject (l : list (string * json)).
#[local] Set Elimination Schemes.

(** The outcome of scanning: a value and the unread rest, a syntax error
    (also for a stream that ends early), or the recursion bound reached. *)
Inductive result (A : Type) :=
| Ok (a : A) (rest : string)
| SyntaxError
| OutOfFuel.
Arguments Ok {A} a rest.
Arguments SyntaxError {A}.
Arguments OutOfFuel {A}.

Definition isSpace (c : ascii) : bool :=
  Ascii.eqb c " " || Ascii.eqb c char_tab || Ascii.eqb c char_cr
  || Ascii.eqb c char_lf.

Fixpoint skip_space (s : string) : string :=
  match s with
  | String c t => if isSpace c then skip_space t else s
  | EmptyString => s
  end.

Definition hexval (c : ascii) : option N :=
  let b := byte c in
  if (48 <=? b) && (b <=? 57) then Some (b - 48)
  else if (97 <=? b) && (b <=? 102) then Some (b - 97 + 10)
  else if (65 <=? b) && (b <=? 70) then Some (b - 65 + 10)
  else None.

(** [getu4]: the code unit of a [\uXXXX] at the head of [s]. *)
Definition getu4 (s : string) : option N :=
  match s with
  | String c0 (String c1 (String h1 (String h2 (String h3 (String h4 _))))) =>
    if Ascii.eqb c0 bslash && Ascii.eqb c1 "u" then
      match hexval h1, hexval h2, hexval h3, hexval h4 with
      | Some a, Some b, Some c, Some d =>
        Some (((a * 16 + b) * 16 + c) * 16 + d)
      | _, _, _, _ => None
      end
    else None
  | _ => None
  end.

(** [utf16.IsSurrogate] and [utf16.DecodeRune]. *)
Definition IsSurrogate (r : N) : bool := (0xD800 <=? r) && (r <? 0xE000).

Definition utf16_DecodeRune (r1 r2 : N) : N :=
  if (0xD800 <=? r1) && (r1 <? 0xDC00) && (0xDC00 <=? r2) && (r2 <? 0xE000)
  then N.lor (N.shiftl (r1 - 0xD800) 10) (r2 - 0xDC00) + 0x10000
  else Utf8.RuneError.

(** An escape sequence at the head of [s] (which starts at the
    backslash): the bytes it stands for and how many bytes follow the
    backslash in it.  The escapes are those the scanner accepts. *)
Definition unescape (s : string) : option (string * nat) :=
  match s with
  | String _ (String e _) =>
    if Ascii.eqb e dquote || Ascii.eqb e bslash || Ascii.eqb e "/" then
      Some (str1 e, 1%nat)
    else if Ascii.eqb e "b" then Some (str1 char_bs, 1%nat)
    else if Ascii.eqb e "f" then Some (str1 char_ff, 1%nat)
    else if Ascii.eqb e "n" then Some (str1 char_lf, 1%nat)
    else if Ascii.eqb e "r" then Some (str1 char_cr, 1%nat)
    else if Ascii.eqb e "t" then Some (str1 char_tab, 1%nat)
    else if Ascii.eqb e "u" then
      match getu4 s with
      | None => None
      | Some rr =>
        if IsSurrogate rr then
          match getu4 (drop 6 s) with
          | Some rr1 =>
            let dec := utf16_DecodeRune rr rr1 in
            if dec =? Utf8.RuneError then
              Some (Utf8.EncodeRune Utf8.RuneError, 5%nat)
            else Some (Utf8.EncodeRune dec, 11%nat)
          | None => Some (Utf8.EncodeRune Utf8.RuneError, 5%nat)
          end
        else Some (Utf8.EncodeRune rr, 5%nat)
      end
    else None
  | _ => None
  end.

Definition prepend (out : string) (r : option (string * string))
    : option (string * string) :=
  match r with
  | Some (v, rest) => Some ((out ++ v)%string, rest)
  | None => None
  end.

(** A string literal from just after its opening quote: the unquoted
    bytes ([unquoteBytes]) and the stream after the closing quote.  A
    control character, a bad escape and the end of the stream are
    errors; bytes that are not UTF-8 are coerced to [RuneError]. *)
Fixpoint unquote_from (skip : nat) (s : string) : option (string * string) :=
  match s with
  | EmptyString => None
  | String c t =>
    match skip with
    | S k => unquote_from k t
    | O =>
      if Ascii.eqb c dquote then Some (EmptyString, t)
      else if Ascii.eqb c bslash then
        match unescape s with
        | Some (out, n) => prepend out (unquote_from n t)
        | None => None
        end
      else if byte c <? 0x20 then None
      else if byte c <? Utf8.RuneSelf then
        prepend (str1 c) (unquote_from 0 t)
      else
        let '(r, size) := Utf8.DecodeRune s in
        prepend (Utf8.EncodeRune r) (unquote_from (size - 1) t)
    end
  end.

Definition is_digit (c : ascii) : bool := (48 <=? byte c) && (byte c <=? 57).

Fixpoint span_digits (s : string) : string * string :=
  match s with
  | String c t =>
    if is_digit c then let '(d, r) := span_digits t in (String c d, r)
    else (EmptyString, s)
  | EmptyString => (EmptyString, EmptyString)
  end.

(** A number literal, as far as it goes: an optional minus sign, then a
    zero or a nonzero digit with more digits, then an optional fraction (a
    dot and digits), then an optional exponent ([e] or [E], an optional
    sign, digits).  Each part gives its text and the stream after it. *)
Definition scan_sign (s : string) : string * string :=
  match s with
  | String c t => if Ascii.eqb c "-" then ("-"%string, t) else (EmptyString, s)
  | EmptyString => (EmptyString, s)
  end.

Definition scan_int (s : string) : option (string * string) :=
  match s with
  | EmptyString => None
  | String c t =>
    if Ascii.eqb c "0" then Some ("0"%string, t)
    else if is_digit c then
      let '(d, r) := span_digits t in Some (String c d, r)
    else None
  end.

Definition scan_frac (s : string) : option (string * string) :=
  match s with
  | String c t =>
    if Ascii.eqb c "." then
      let '(d, r) := span_digits t in
      match d with
      | EmptyString => None
      | _ => Some (String c d, r)
      end
    else Some (EmptyString, s)
  | EmptyString => Some (EmptyString, s)
  end.

Definition scan_exp_sign (s : string) : string * string :=
  match s with
  | String c t =>
    if Ascii.eqb c "+" || Ascii.eqb c "-" then (str1 c, t)
    else (EmptyString, s)
  | EmptyString => (EmptyString, s)
  end.

Definition scan_exp (s : string) : option (string * string) :=
  match s with
  | String c t =>
    if Ascii.eqb c "e" || Ascii.eqb c "E" then
      let '(sg, t') := scan_exp_sign t in
      let '(d, r) := span_digits t' in
      match d with
      | EmptyString => None
      | _ => Some (String c (sg ++ d), r)
      end
    else Some (EmptyString, s)
  | EmptyString => Some (EmptyString, s)
  end.

Definition scan_number (s : string) : option (string * string) :=
  let '(sign, s1) := scan_sign s in
  match scan_int s1 with
  | None => None
  | Some (ip, r1) =>
    match scan_frac r1 with
    | None => None
    | Some (fp, r2) =>
      match scan_exp r2 with
      | None => None
      | Some (ep, r3) => Some ((sign ++ ip ++ fp ++ ep)%string, r3)
      end
    end
  end.

Definition scan_word (w : string) (v : json) (s : string) : result json :=
  if String.prefix w s then Ok v (drop (String.length w) s) else SyntaxError.

(** The first JSON value of [s]; [scan_members] and [scan_elements] read
    the members of an object and the elements of an array from the first
    one on.  Every call that descends takes one unit of [fuel]. *)
Fixpoint scan_value (fuel : nat) (s : string) {struct fuel} : result json :=
  match fuel with
  | O => OutOfFuel
  | S fuel' =>
    match skip_space s with
    | EmptyString => SyntaxError
    | String c t =>
      if Ascii.eqb c "{" then
        match skip_space t with
        | EmptyString => SyntaxError
        | String c' t' =>
          if Ascii.eqb c' "}" then Ok (JObject []) t'
          else
            match scan_members fuel' (String c' t') with
            | Ok m r => Ok (JObject m) r
            | SyntaxError => SyntaxError
            | OutOfFuel => OutOfFuel
            end
        end
      else if Ascii.eqb c "[" then
        match skip_space t with
        | EmptyString => SyntaxError
        | String c' t' =>
          if Ascii.eqb c' "]" then Ok (JArray []) t'
          else
            match scan_elements fuel' (String c' t') with
            | Ok l r => Ok (JArray l) r
            | SyntaxError => SyntaxError
            | OutOfFuel => OutOfFuel
            end
        end
      else if Ascii.eqb c dquote then
        match unquote_from 0 t with
        | Some (v, r) => Ok (JString v) r
        | None => SyntaxError
        end
      else if Ascii.eqb c "-" || is_digit c then
        match scan_number (String c t) with
        | Some (lit, r) => Ok (JNumber lit) r
        | None => SyntaxError
        end
      else if Ascii.eqb c "t" then scan_word "true" (JBool true) (String c t)
      else if Ascii.eqb c "f" then scan_word "false" (JBool false) (String c t)
      else if Ascii.eqb c "n" then scan_word "null" JNull (String c t)
      else SyntaxError
    end
  end

with scan_members (fuel : nat) (s : string) {struct fuel}
    : result (list (string * json)) :=
  match fuel with
  | O => OutOfFuel
  | S fuel' =>
    match s with
    | EmptyString => SyntaxError
    | String c t =>
      if negb (Ascii.eqb c dquote) then SyntaxError
      else
        match unquote_from 0 t with
        | None => SyntaxError
        | Some (key, r1) =>
          match skip_space r1 with
          | EmptyString => SyntaxError
          | String c2 t2 =>
            if negb (Ascii.eqb c2 ":") then SyntaxError
            else
              match scan_value fuel' t2 with
              | SyntaxError => SyntaxError
              | OutOfFuel => OutOfFuel
              | Ok v r2 =>
                match skip_space r2 with
                | EmptyString => SyntaxError
                | String c3 t3 =>
                  if Ascii.eqb c3 "}" then Ok [(key, v)] t3
                  else if Ascii.eqb c3 "," then
                    match scan_members fuel' (skip_space t3) with
                    | Ok m r => Ok ((key, v) :: m) r
                    | SyntaxError => SyntaxError
                    | OutOfFuel => OutOfFuel
                    end
                  else SyntaxError
                end
              end
          end
        end
    end
  end

with scan_elements (fuel : nat) (s : string) {struct fuel}
    : result (list json) :=
  match fuel with
  | O => OutOfFuel
  | S fuel' =>
    match scan_value fuel' s with
    | SyntaxError => SyntaxError
    | OutOfFuel => OutOfFuel
    | Ok v r =>
      match skip_space r with
      | EmptyString => SyntaxError
      | String c t =>
        if Ascii.eqb c "]" then Ok [v] t
        else if Ascii.eqb c "," then
          match scan_elements fuel' t with
          | Ok l r' => Ok (v :: l) r'
          | SyntaxError => SyntaxError
          | OutOfFuel => OutOfFuel
          end
        else SyntaxError
      end
    end
  end.

(** The first value of the stream.  A descent takes at most two calls for
    a byte read, so this fuel is never used up. *)
Definition read_value (data : string) : result json :=
  scan_value (S (2 * String.length data)) data.

(** *** Storing a value in the struct *)

(** The fields of [UploadSession] that have a key, in declaration order. *)
Inductive Field :=
| FId | FType | FCreateAt | FUserId | FChannelId | FFilename | FFileSize
| FFileOffset.

Definition field_name (f : Field) : string :=
  match f with
  | FId => "id"
  | FType => "type"
  | FCreateAt => "create_at"
  | FUserId => "user_id"
  | FChannelId => "channel_id"
  | FFilename => "filename"
  | FFileSize => "file_size"
  | FFileOffset => "file_offset"
  end.

Definition struct_fields : list Field :=
  [FId; FType; FCreateAt; FUserId; FChannelId; FFilename; FFileSize;
   FFileOffset].

(** The case-insensitive match of a key [t] with an ASCII field name [s]
    ([equalFoldRight], which the two cheaper variants chosen for names
    without [k] and [s] agree with): letters match in either case, and
    the Kelvin sign and the long s match [k] and [s]. *)
Fixpoint equalFold (s t : string) : bool :=
  match s with
  | EmptyString =>
    match t with
    | EmptyString => true
    | _ => false
    end
  | String sb s' =>
    match t with
    | EmptyString => false
    | String tb t' =>
      if byte tb <? Utf8.RuneSelf then
        if Ascii.eqb sb tb then equalFold s' t'
        else
          let sbUpper := N.land (byte sb) 0xDF in
          if (65 <=? sbUpper) && (sbUpper <=? 90)
             && (sbUpper =? N.land (byte tb) 0xDF)
          then equalFold s' t'
          else false
      else
        let '(tr, size) := Utf8.DecodeRune t in
        if ((Ascii.eqb sb "s" || Ascii.eqb sb "S") && (tr =? 0x17F))
           || ((Ascii.eqb sb "k" || Ascii.eqb sb "K") && (tr =? 0x212A))
        then equalFold s' (drop size t)
        else false
    end
  end.

(** The field a key selects: the one of that exact name, else the first
    that matches without regard to case. *)
Definition find_field (key : string) : option Field :=
  match find (fun f => String.eqb (field_name f) key) struct_fields with
  | Some f => Some f
  | None => find (fun f => equalFold (field_name f) key) struct_fields
  end.

(** [strconv.ParseInt(s, 10, 64)]. *)
Definition ParseInt64 (s : string) : option Z :=
  let '(neg, ds) :=
    match s with
    | String c t =>
      if Ascii.eqb c "+" then (false, t)
      else if Ascii.eqb c "-" then (true, t)
      else (false, s)
    | EmptyString => (false, s)
    end in
  match ds with
  | EmptyString => None
  | _ =>
    match NilEmpty.uint_of_string ds with
    | None => None
    | Some d =>
      let z := if neg then (- Z.of_uint d)%Z else Z.of_uint d in
      if ((- 2 ^ 63 <=? z) && (z <? 2 ^ 63))%Z then Some z else None
    end
  end.

(** [literalStore] and the type errors of [d.object] and [d.array] for a
    destination of kind string: the flag is an [UnmarshalTypeError], after
    which decoding goes on; [null] leaves the field as it is. *)
Definition store_string (set : string -> UploadSession -> UploadSession)
    (v : json) (us : UploadSession) : UploadSession * bool :=
  match v with
  | JString s => (set s us, false)
  | JNull => (us, false)
  | _ => (us, true)
  end.

(** The same for a destination of kind int64. *)
Definition store_int64 (set : Z -> UploadSession -> UploadSession)
    (v : json) (us : UploadSession) : UploadSession * bool :=
  match v with
  | JNumber lit =>
    match ParseInt64 lit with
    | Some z => (set z us, false)
    | None => (us, true)
    end
  | JNull => (us, false)
  | _ => (us, true)
  end.

Definition store (f : Field) : json -> UploadSession -> UploadSession * bool :=
  match f with
  | FId => store_string set_Id
  | FType => store_string set_Type
  | FCreateAt => store_int64 set_CreateAt
  | FUserId => store_string set_UserId
  | FChannelId => store_string set_ChannelId
  | FFilename => store_string set_Filename
  | FFileSize => store_int64 set_FileSize
  | FFileOffset => store_int64 set_FileOffset
  end.

(** [d.object] into the struct: the members in order, a key that selects
    no field passed over, the first type error kept while the rest is
    still stored. *)
Fixpoint object_into (members : list (string * json)) (us : UploadSession)
    : UploadSession * bool :=
  match members with
  | [] => (us, false)
  | (key, v) :: rest =>
    let '(us1, e1) :=
      match find_field key with
      | Some f => store f v us
      | None => (us, false)
      end in
    let '(us2, e2) := object_into rest us1 in
    (us2, e1 || e2)
  end.

(** [Decode(&us)] for [us UploadSession]: the struct as decoding leaves it
    and whether an error is returned. *)
Definition Decode (data : string) (us : UploadSession)
    : UploadSession * bool :=
  match read_value data with
  | Ok (JObject m) _ => object_into m us
  | Ok JNull _ => (us, false)
  | Ok _ _ => (us, true)
  | _ => (us, true)
  end.

(** An element of a [[]*UploadSession]. *)
Definition element (v : json) : option UploadSession * bool :=
  match v with
  | JNull => (None, false)
  | JObject m => let '(us, e) := object_into m zero_session in (Some us, e)
  | _ => (None, true)
  end.

Fixpoint elements (l : list json) : list (option UploadSession) * bool :=
  match l with
  | [] => ([], false)
  | v :: l' =>
    let '(p, e1) := element v in
    let '(ps, e2) := elements l' in
    (p :: ps, e1 || e2)
  end.

(** [Decode(&uss)] for [var uss []*UploadSession], which is nil ([None])
    before the call. *)
Definition DecodeList (data : string)
    : option (list (option UploadSession)) * bool :=
  match read_value data with
  | Ok (JArray l) _ => let '(ps, e) := elements l in (Some ps, e)
  | Ok JNull _ => (None, false)
  | Ok _ _ => (None, true)
  | _ => (None, true)
  end.

End Json.

(** ** Serialization of sessions *)

(** [func (us *UploadSession) ToJson() string]. *)
Definition ToJson (us : UploadSession) : string := Json.Marshal us.

(** [func UploadSessionsToJson(uss []*UploadSession) string]. *)
Definition UploadSessionsToJson (uss : option (list (option UploadSession)))
    : string :=
  Json.MarshalList uss.

(** [func UploadSessionsFromJson(data io.Reader) []*UploadSession]. *)
Definition UploadSessionsFromJson (data : string)
    : option (list (option UploadSession)) :=
  let '(uss, err) := Json.DecodeList data in
  if err then None else uss.

(** [func UploadSessionFromJson(data io.Reader) *UploadSession]. *)
Definition UploadSessionFromJson (data : string) : option UploadSession :=
  let '(us, err) := Json.Decode data zero_session in
  if err then None else Some us.

(** ** Notions the properties are stated with *)

Import Utf8 Json.

(** The runes [DecodeRune] assembles from two, three and four bytes. *)
Definition rune2 (c0 c1 : ascii) : N :=
  N.lor (N.shiftl (N.land (byte c0) 0x1F) 6) (N.land (byte c1) 0x3F).

Definition rune3 (c0 c1 c2 : ascii) : N :=
  N.lor (N.lor (N.shiftl (N.land (byte c0) 0x0F) 12)
               (N.shiftl (N.land (byte c1) 0x3F) 6))
        (N.land (byte c2) 0x3F).

Definition rune4 (c0 c1 c2 c3 : ascii) : N :=
  N.lor (N.lor (N.lor (N.shiftl (N.land (byte c0) 0x07) 18)
                      (N.shiftl (N.land (byte c1) 0x3F) 12))
               (N.shiftl (N.land (byte c2) 0x3F) 6))
        (N.land (byte c3) 0x3F).

(** The outcomes of [DecodeRune] at a byte that is not ASCII. *)
Inductive decoded (c0 : ascii) (t : string) : Prop :=
| dec_invalid :
    DecodeRune (String c0 t) = (RuneError, 1%nat) -> decoded c0 t
| dec_2 c1 t' lo hi :
    t = String c1 t' -> first (byte c0) = Some (2%nat, (lo, hi)) ->
    lo <= byte c1 <= hi -> decoded c0 t
| dec_3 c1 c2 t' lo hi :
    t = String c1 (String c2 t') ->
    first (byte c0) = Some (3%nat, (lo, hi)) ->
    lo <= byte c1 <= hi -> is_cont (byte c2) = true -> decoded c0 t
| dec_4 c1 c2 c3 t' lo hi :
    t = String c1 (String c2 (String c3 t')) ->
    first (byte c0) = Some (4%nat, (lo, hi)) ->
    lo <= byte c1 <= hi -> is_cont (byte c2) = true ->
    is_cont (byte c3) = true -> decoded c0 t.

(** The stream after a number: it starts with a byte that cannot go on
    the literal. *)
Definition ends_number (rest : string) : Prop :=
  match rest with
  | EmptyString => True
  | String c _ =>
    is_digit c = false /\ Ascii.eqb c "." = false /\ Ascii.eqb c "e" = false
    /\ Ascii.eqb c "E" = false
  end.

(** What the decoder reads back from an encoded field: its key and its
    value, strings coerced to UTF-8. *)
Definition jvalue_of (v : fvalue) : json :=
  match v with
  | FString s => JString (coerce s)
  | FInt z => JNumber (FormatInt z)
  end.

Definition members_of (fs : list (string * fvalue)) : list (string * json) :=
  map (fun f => (coerce (fst f), jvalue_of (snd f))) fs.

(** A session as it comes back from its encoding: its strings coerced to
    UTF-8, its Path gone. *)
Definition coerce_session (us : UploadSession) : UploadSession :=
  mkUploadSession (coerce (Id us)) (coerce (Type_ us)) (CreateAt us)
    (coerce (UserId us)) (coerce (ChannelId us)) (coerce (Filename us))
    "" (FileSize us) (FileOffset us).

(** The keys of the encoding of a session, in order. *)
Definition keys_of (us : UploadSession) : list string :=
  ["id"; "type"; "create_at"; "user_id"]
  ++ (if String.eqb (ChannelId us) "" then [] else ["channel_id"])
  ++ ["filename"; "file_size"; "file_offset"].

(** The stream after a field value: a comma or the closing brace. *)
Definition ends_value (rest : string) : Prop :=
  exists r, rest = String "," r \/ rest = String "}" r.

(** A string of bytes that are not ASCII has no closing quote. *)
Fixpoint all_high (s : string) : Prop :=
  match s with
  | EmptyString => True
  | String c t => (RuneSelf <= byte c)%N /\ all_high t
  end.

(** The fields of kind string; the others are of kind int64. *)
Definition kind_string (f : Field) : bool :=
  match f with
  | FCreateAt | FFileSize | FFileOffset => false
  | _ => true
  end.

(** The value [v] cannot be stored in the field [f]. *)
Definition type_error (f : Field) (v : json) : bool :=
  match v with
  | JNull => false
  | JString _ => negb (kind_string f)
  | JNumber lit =>
    if kind_string f then true
    else match ParseInt64 lit with
         | Some _ => false
         | None => true
         end
  | _ => true
  end.

(** A member whose key selects a field that cannot hold its value. *)
Definition member_error (kv : string * json) : bool :=
  match find_field (fst kv) with
  | Some f => type_error f (snd kv)
  | None => false
  end.

(** An element of the array that is no session: neither [null] nor an
    object without member errors. *)
Definition element_error (v : json) : bool :=
  match v with
  | JNull => false
  | JObject m => existsb member_error m
  | _ => true
  end.

(** A value that is not a number literal. *)
Definition not_number (v : json) : Prop :=
  match v with
  | JNumber _ => False
  | _ => True
  end.

(** An element of a serialized list, and the value the scanner reads
    back from it. *)
Definition encode_element (p : option UploadSession) : string :=
  match p with
  | Some us => Marshal us
  | None => "null"
  end.

Definition jelement_of (p : option UploadSession) : json :=
  match p with
  | Some us => JObject (members_of (fields us))
  | None => JNull
  end.

(** A run of white space. *)
Definition all_space (w : string) : bool := all_chars isSpace w.

(** A list of sessions without their Paths. *)
Definition without_paths (l : list (option UploadSession))
    : list (option UploadSession) :=
  map (option_map (set_Path "")) l.

(** The strings of a session are well-formed UTF-8. *)
Definition session_utf8 (us : UploadSession) : Prop :=
  ValidString (Id us) = true /\ ValidString (Type_ us) = true /\
  ValidString (UserId us) = true /\ ValidString (ChannelId us) = true /\
  ValidString (Filename us) = true.

(** The strings a scanned value holds directly, in its members or in the
    members of its elements, are well-formed UTF-8. *)
Definition string_valid (v : json) : Prop :=
  match v with
  | JString s => ValidString s = true
  | _ => True
  end.

Definition members_valid (m : list (string * json)) : Prop :=
  Forall (fun kv => string_valid (snd kv)) m.

Definition value_valid (v : json) : Prop :=
  match v with
  | JString s => ValidString s = true
  | JObject m => members_valid m
  | _ => True
  end.

Definition array_valid (v : json) : Prop :=
  match v with
  | JArray l => Forall value_valid l
  | _ => True
  end.

(** A chunk of well-formed UTF-8: the validity of a string that starts with
    it is that of what follows it. *)
Definition utf8_chunk (a : string) : Prop :=
  forall X, valid_from 0 (a ++ X) = valid_from 0 X.

Definition is_ascii (c : ascii) : bool := (byte c <? RuneSelf)%N.

(** A byte that may stand in a script of an HTML page: no control
    character and none of the characters that open or close markup. *)
Definition wire_safe (c : ascii) : bool :=
  (0x20 <=? byte c)%N
  && negb (Ascii.eqb c "<" || Ascii.eqb c ">" || Ascii.eqb c "&").

(** The three bytes EF BF BD, the UTF-8 encoding of U+FFFD. *)
Definition utf8_replacement : string :=
  Eval cbv in
    String (ascii_of_nat 239)
      (String (ascii_of_nat 191) (String (ascii_of_nat 189) EmptyString)).

(** ** Sessions and worlds on which the theorems are run *)

Definition id_a : string := "aaaaaaaaaaaaaaaaaaaaaaaaaa".
Definition id_u : string := "uuuuuuuuuuuuuuuuuuuuuuuuuu".
Definition id_c : string := "cccccccccccccccccccccccccc".

(** A complete attachment upload and an import without a channel. *)
Definition session_attachment : UploadSession :=
  mkUploadSession id_a "attachment" 1600000000000 id_u id_c "a.png" "/tmp/a"
    100 100.
Definition session_import : UploadSession :=
  mkUploadSession id_a "import" 1600000000000 id_u "" "export.zip"
    "/tmp/export" 100 0.

(** An import whose file name is "caf\xe9.png" in Latin-1: the byte E9
    starts no UTF-8 sequence here. *)
Definition latin1_name : string :=
  Eval cbv in ("caf" ++ String (ascii_of_nat 233) ".png")%string.
Definition session_latin1 : UploadSession :=
  set_Filename latin1_name session_import.

(** The same name with the byte replaced by the encoding of [RuneError]. *)
Definition replaced_name : string :=
  Eval cbv in ("caf" ++ Utf8.EncodeRune Utf8.RuneError ++ ".png")%string.

(** A stream whose second member has a value of the wrong type. *)
Definition stream_type_error : string :=
  Eval cbv in
    ("{" ++ str1 dquote ++ "id" ++ str1 dquote ++ ":" ++ str1 dquote
     ++ "abc" ++ str1 dquote ++ "," ++ str1 dquote ++ "file_size"
     ++ str1 dquote ++ ":" ++ str1 dquote ++ "big" ++ str1 dquote ++ "}")%string.

(** A generator and a clock over a counter: the world is the number of
    calls made so far. *)
Definition counter_NewId (w : nat) : string * nat := (id_a, S w).
Definition counter_GetMillis (w : nat) : Z * nat :=
  (1600000000000 + Z.of_nat w, S w)%Z.

(** * Properties *)

Local Open Scope Z_scope.

(** ** Validation *)

Section ValidationFacts.

Variable IsValidId : string -> bool.

Lemma UploadType_IsValid_None (t : UploadType) :
  UploadType_IsValid t = None <-> t = "attachment" \/ t = "import".
Proof.
  unfold UploadType_IsValid, UploadTypeAttachment, UploadTypeImport.
  destruct (String.eqb_spec t "attachment") as [-> | Ha].
  - split; auto.
  - destruct (String.eqb_spec t "import") as [-> | Hi].
    + split; auto.
    + split; [discriminate | intros [H | H]; contradiction].
Qed.

Lemma UploadType_IsValid_Some (t : UploadType) (msg : string) :
  UploadType_IsValid t = Some msg ->
  msg = ("invalid UploadType " ++ t)%string /\ t <> "attachment"
  /\ t <> "import".
Proof.
  unfold UploadType_IsValid, UploadTypeAttachment, UploadTypeImport.
  destruct (String.eqb_spec t "attachment"); [discriminate |].
  destruct (String.eqb_spec t "import"); [discriminate |].
  intros [= <-]. auto.
Qed.

(** The boolean conditions of [IsValid], as propositions. *)
Lemma offset_cond (us : UploadSession) :
  (FileOffset us <? 0) || (FileOffset us >? FileSize us) = false
  <-> 0 <= FileOffset us <= FileSize us.
Proof.
  rewrite orb_false_iff, Z.ltb_ge, Z.gtb_ltb, Z.ltb_ge. tauto.
Qed.

Lemma channel_cond (us : UploadSession) :
  String.eqb (Type_ us) UploadTypeAttachment
  && negb (IsValidId (ChannelId us)) = false
  <-> (Type_ us = "attachment" -> IsValidId (ChannelId us) = true).
Proof.
  unfold UploadTypeAttachment.
  destruct (String.eqb_spec (Type_ us) "attachment") as [-> | Hne];
    simpl.
  - destruct (IsValidId (ChannelId us)); simpl; split; auto.
    intros H. discriminate (H eq_refl).
  - split; [intros _ H; contradiction | reflexivity].
Qed.

(** [IsValid] passes exactly when every check passes. *)
Lemma IsValid_None_checks (us : UploadSession) :
  IsValid IsValidId us = None <->
  IsValidId (Id us) = true /\
  UploadType_IsValid (Type_ us) = None /\
  IsValidId (UserId us) = true /\
  String.eqb (Type_ us) UploadTypeAttachment
    && negb (IsValidId (ChannelId us)) = false /\
  (CreateAt us =? 0) = false /\
  String.eqb (Filename us) "" = false /\
  (FileSize us <=? 0) = false /\
  (FileOffset us <? 0) || (FileOffset us >? FileSize us) = false /\
  String.eqb (Path us) "" = false.
Proof.
  unfold IsValid.
  destruct (IsValidId (Id us)); simpl; [| intuition discriminate].
  destruct (UploadType_IsValid (Type_ us)); [intuition discriminate |].
  destruct (IsValidId (UserId us)); simpl; [| intuition discriminate].
  destruct (String.eqb (Type_ us) UploadTypeAttachment
            && negb (IsValidId (ChannelId us)));
    [intuition discriminate |].
  destruct (CreateAt us =? 0); [intuition discriminate |].
  destruct (String.eqb (Filename us) ""); [intuition discriminate |].
  destruct (FileSize us <=? 0); [intuition discriminate |].
  destruct ((FileOffset us <? 0) || (FileOffset us >? FileSize us));
    [intuition discriminate |].
  destruct (String.eqb (Path us) ""); intuition discriminate.
Qed.

Lemma IsValid_None_invariants (us : UploadSession) :
  IsValid IsValidId us = None <-> invariants IsValidId us.
Proof.
  rewrite IsValid_None_checks. unfold invariants.
  rewrite UploadType_IsValid_None, channel_cond, offset_cond.
  rewrite Z.eqb_neq, Z.leb_gt, !String.eqb_neq. 
  intuition lia.
Qed.

End ValidationFacts.

(** C1. [IsValid] returns no error exactly when the nine invariants of the
    data model hold; in particular an import without a channel whose
    other invariants hold is valid. *)
Theorem IsValid_iff_invariants :
  forall (IsValidId : string -> bool) (us : UploadSession),
    (IsValid IsValidId us = None <-> invariants IsValidId us) /\
    (Type_ us = "import" -> ChannelId us = "" ->
     IsValidId (Id us) = true -> IsValidId (UserId us) = true ->
     CreateAt us <> 0 -> Filename us <> "" -> FileSize us > 0 ->
     0 <= FileOffset us <= FileSize us -> Path us <> "" ->
     IsValid IsValidId us = None).
Proof.
  intros IsValidId us. split.
  - apply IsValid_None_invariants.
  - intros Ht _ Hid Hu Hc Hf Hs Ho Hp.
    apply IsValid_None_invariants. unfold invariants.
    repeat split; auto; try lia.
    rewrite Ht. discriminate.
Qed.

Lemma IsValid_iff_invariants_witness :
  IsValid IsValidId26 session_import = None /\
  invariants IsValidId26 session_attachment.
Proof.
  split.
  - apply (proj2 (IsValid_iff_invariants IsValidId26 session_import));
      try reflexivity; try discriminate; simpl; lia.
  - apply (proj1 (IsValid_iff_invariants IsValidId26 session_attachment)).
    vm_compute. reflexivity.
Defined.

Section ReportingOrder.

Variable IsValidId : string -> bool.

Lemma type_cond (t : UploadType) :
  negb (String.eqb t "attachment" || String.eqb t "import") =
  match UploadType_IsValid t with Some _ => true | None => false end.
Proof.
  unfold UploadType_IsValid, UploadTypeAttachment, UploadTypeImport.
  destruct (String.eqb t "attachment"), (String.eqb t "import");
    reflexivity.
Qed.

Lemma size_cond (z : Z) : negb (z >? 0) = (z <=? 0).
Proof. rewrite Z.gtb_ltb, Z.leb_antisym. reflexivity. Qed.

Lemma range_cond (o s : Z) :
  negb ((0 <=? o) && (o <=? s)) = (o <? 0) || (o >? s).
Proof.
  rewrite negb_andb, Z.gtb_ltb, !Z.ltb_antisym. reflexivity.
Qed.

(** The failure [IsValid] reports is the first violated invariant in
    the order of its checks. *)
Lemma IsValid_first_violation (us : UploadSession) :
  reported (IsValid IsValidId us) =
  option_map error_code (first_violation IsValidId check_order us).
Proof.
  unfold first_violation, check_order, IsValid, find, violated.
  rewrite type_cond, size_cond, range_cond.
  change UploadTypeAttachment with "attachment"%string.
  destruct (IsValidId (Id us)); simpl; [| reflexivity].
  destruct (UploadType_IsValid (Type_ us)); [reflexivity |].
  destruct (IsValidId (UserId us)); simpl; [| reflexivity].
  destruct (String.eqb (Type_ us) "attachment"
            && negb (IsValidId (ChannelId us))); [reflexivity |].
  destruct (CreateAt us =? 0); [reflexivity |].
  destruct (String.eqb (Filename us) ""); [reflexivity |].
  destruct (FileSize us <=? 0); [reflexivity |].
  destruct ((FileOffset us <? 0) || (FileOffset us >? FileSize us));
    [reflexivity |].
  destruct (String.eqb (Path us) ""); reflexivity.
Qed.

(** A channel failure is only reported for a valid type. *)
Lemma channel_failure_type_valid (us : UploadSession) (e : Err.AppError) :
  IsValid IsValidId us = Some e ->
  Err.Id e = error_code KChannelId ->
  UploadType_IsValid (Type_ us) = None.
Proof.
  intros He Hid.
  pose proof (IsValid_first_violation us) as H.
  rewrite He in H. simpl in H. rewrite Hid in H.
  unfold first_violation, check_order, find, violated in H.
  rewrite type_cond in H.
  destruct (negb (IsValidId (Id us))); [simpl in H; discriminate H |].
  destruct (UploadType_IsValid (Type_ us));
    [simpl in H; discriminate H | reflexivity].
Qed.

End ReportingOrder.

(** C2, as the code has it.  [IsValid] reports one failure, the first
    violated invariant in the order of its checks (Id, Type, UserId,
    ChannelId, CreateAt, Filename, FileSize, FileOffset, Path), and a
    channel failure is only reported once the type has been found
    valid. *)
Theorem IsValid_reports_first_in_check_order :
  forall (IsValidId : string -> bool) (us : UploadSession),
    reported (IsValid IsValidId us) =
    option_map error_code (first_violation IsValidId check_order us) /\
    (forall e, IsValid IsValidId us = Some e ->
               Err.Id e = error_code KChannelId ->
               UploadType_IsValid (Type_ us) = None).
Proof.
  intros IsValidId us. split.
  - apply IsValid_first_violation.
  - intros e. apply channel_failure_type_valid.
Qed.

Lemma IsValid_reports_first_in_check_order_witness :
  reported (IsValid IsValidId26 (set_ChannelId "" session_attachment)) =
  Some (error_code KChannelId).
Proof.
  rewrite (proj1 (IsValid_reports_first_in_check_order IsValidId26
                    (set_ChannelId "" session_attachment))).
  vm_compute. reflexivity.
Defined.

(** C2 as stated fails: with an empty Path and a zero FileSize the table
    order of the specification names the Path, and [IsValid] reports the
    FileSize; with a zero CreateAt and an empty UserId the table order
    names CreateAt, and [IsValid] reports the UserId. *)
Lemma IsValid_not_in_table_order :
  let us1 := set_Path "" (set_FileSize 0 session_import) in
  let us2 := set_CreateAt 0 (set_UserId "" session_import) in
  (reported (IsValid IsValidId26 us1) = Some (error_code KFileSize) /\
   option_map error_code (first_violation IsValidId26 table_order us1) =
   Some (error_code KPath)) /\
  (reported (IsValid IsValidId26 us2) = Some (error_code KUserId) /\
   option_map error_code (first_violation IsValidId26 table_order us2) =
   Some (error_code KCreateAt)) /\
  reported (IsValid IsValidId26 us1) <>
  option_map error_code (first_violation IsValidId26 table_order us1).
Proof.
  vm_compute. repeat split; discriminate.
Qed.

(** C3. A session whose FileOffset is negative or beyond FileSize, and
    which passes the checks that run before, gets the one file-offset
    failure, the same in both directions. *)
Theorem IsValid_file_offset_out_of_range :
  forall (IsValidId : string -> bool) (us : UploadSession),
    IsValidId (Id us) = true ->
    UploadType_IsValid (Type_ us) = None ->
    IsValidId (UserId us) = true ->
    (Type_ us = "attachment" -> IsValidId (ChannelId us) = true) ->
    CreateAt us <> 0 -> Filename us <> "" -> FileSize us > 0 ->
    FileOffset us < 0 \/ FileOffset us > FileSize us ->
    IsValid IsValidId us =
    Some (Err.NewAppError "UploadSession.IsValid"
            "model.upload_session.is_valid.file_offset.app_error" []
            ("id=" ++ Id us) StatusBadRequest).
Proof.
  intros IsValidId us Hid Ht Hu Hc Hcr Hf Hs Ho.
  unfold IsValid. rewrite Hid, Ht, Hu. simpl.
  apply channel_cond in Hc. rewrite Hc.
  apply Z.eqb_neq in Hcr. rewrite Hcr.
  apply String.eqb_neq in Hf. rewrite Hf.
  assert (Hs' : (FileSize us <=? 0) = false) by (apply Z.leb_gt; lia).
  rewrite Hs'.
  assert (Ho' : (FileOffset us <? 0) || (FileOffset us >? FileSize us) = true).
  { apply orb_true_iff. rewrite Z.ltb_lt, Z.gtb_ltb, Z.ltb_lt. lia. }
  rewrite Ho'. reflexivity.
Qed.

Lemma IsValid_file_offset_out_of_range_witness :
  reported (IsValid IsValidId26 (set_FileOffset (-1) session_attachment)) =
  Some (error_code KFileOffset) /\
  reported (IsValid IsValidId26 (set_FileOffset 101 session_attachment)) =
  Some (error_code KFileOffset).
Proof.
  split.
  - rewrite (IsValid_file_offset_out_of_range IsValidId26
               (set_FileOffset (-1) session_attachment));
      try reflexivity; try discriminate; simpl; lia.
  - rewrite (IsValid_file_offset_out_of_range IsValidId26
               (set_FileOffset 101 session_attachment));
      try reflexivity; try discriminate; simpl; lia.
Defined.

(** C8. [UploadType.IsValid] depends on the type alone: it returns no
    error exactly for "attachment" and "import", and for any other value
    an error whose message names that value. *)
Theorem UploadType_IsValid_spec :
  forall t : UploadType,
    (UploadType_IsValid t = None <-> t = "attachment" \/ t = "import") /\
    (t <> "attachment" -> t <> "import" ->
     UploadType_IsValid t = Some ("invalid UploadType " ++ t)%string /\
     contains t ("invalid UploadType " ++ t) = true).
Proof.
  intros t. split.
  - apply UploadType_IsValid_None.
  - intros Ha Hi. split.
    + destruct (UploadType_IsValid t) as [msg |] eqn:H.
      * apply UploadType_IsValid_Some in H. destruct H as [-> _].
        reflexivity.
      * apply UploadType_IsValid_None in H. tauto.
    + assert (Hrefl : forall s, String.prefix s s = true).
      { induction s as [| c s IH]; simpl; [reflexivity |].
        destruct (ascii_dec c c); [exact IH | contradiction]. }
      assert (Happ : forall p s, contains s (p ++ s) = true).
      { induction p as [| c p IH]; intros s; simpl.
        - destruct s; simpl; [reflexivity |].
          destruct (ascii_dec a a); [| contradiction].
          rewrite Hrefl. reflexivity.
        - rewrite IH. apply orb_true_r. }
      apply Happ.
Qed.

Lemma UploadType_IsValid_spec_witness :
  UploadType_IsValid "video" = Some "invalid UploadType video"%string /\
  UploadType_IsValid "import" = None.
Proof.
  split.
  - apply (proj2 (UploadType_IsValid_spec "video")); discriminate.
  - apply (proj1 (UploadType_IsValid_spec "import")). right. reflexivity.
Defined.

Section FailureDetail.

Variable IsValidId : string -> bool.

Lemma IsValid_Some_kind (us : UploadSession) (e : Err.AppError) :
  IsValid IsValidId us = Some e ->
  exists k, violated IsValidId k us = true /\
            e = app_error (error_code k) (detail_of k us).
Proof.
  unfold IsValid.
  destruct (negb (IsValidId (Id us))) eqn:H1.
  { intros [= <-]. exists KId. auto. }
  destruct (UploadType_IsValid (Type_ us)) as [msg |] eqn:H2.
  { intros [= <-]. exists KType. simpl. rewrite type_cond, H2.
    apply UploadType_IsValid_Some in H2. destruct H2 as [-> _]. auto. }
  destruct (negb (IsValidId (UserId us))) eqn:H3.
  { intros [= <-]. exists KUserId. auto. }
  destruct (String.eqb (Type_ us) UploadTypeAttachment
            && negb (IsValidId (ChannelId us))) eqn:H4.
  { intros [= <-]. exists KChannelId. auto. }
  destruct (CreateAt us =? 0) eqn:H5.
  { intros [= <-]. exists KCreateAt. auto. }
  destruct (String.eqb (Filename us) "") eqn:H6.
  { intros [= <-]. exists KFilename. auto. }
  destruct (FileSize us <=? 0) eqn:H7.
  { intros [= <-]. exists KFileSize. simpl. rewrite size_cond. auto. }
  destruct ((FileOffset us <? 0) || (FileOffset us >? FileSize us)) eqn:H8.
  { intros [= <-]. exists KFileOffset. simpl. rewrite range_cond. auto. }
  destruct (String.eqb (Path us) "") eqn:H9.
  { intros [= <-]. exists KPath. auto. }
  discriminate.
Qed.

End FailureDetail.

(** C9, as the code has it.  Every failure of [IsValid] names one
    violated invariant, the operation "UploadSession.IsValid" and the
    status 400.  Its detail is "id=" followed by the session's Id for
    every kind but two: the Id failure has an empty detail, and the Type
    failure has the message of the type error, which names the type and
    not the session. *)
Theorem IsValid_failure_carries :
  forall (IsValidId : string -> bool) (us : UploadSession)
         (e : Err.AppError),
    IsValid IsValidId us = Some e ->
    Err.Where e = "UploadSession.IsValid" /\
    Err.StatusCode e = 400 /\
    exists k : Kind,
      violated IsValidId k us = true /\
      Err.Id e = error_code k /\
      Err.DetailedError e =
      match k with
      | KId => ""
      | KType => "invalid UploadType " ++ Type_ us
      | _ => "id=" ++ Id us
      end%string.
Proof.
  intros IsValidId us e H.
  apply IsValid_Some_kind in H. destruct H as (k & Hv & ->).
  repeat split. exists k. repeat split; auto.
Qed.

Lemma IsValid_failure_carries_witness :
  exists e, IsValid IsValidId26 (set_Filename "" session_import) = Some e /\
            Err.DetailedError e = ("id=" ++ id_a)%string /\
            Err.Where e = "UploadSession.IsValid" /\ Err.StatusCode e = 400.
Proof.
  destruct (IsValid IsValidId26 (set_Filename "" session_import))
    as [e |] eqn:He; [| vm_compute in He; discriminate He].
  exists e.
  pose proof (IsValid_failure_carries IsValidId26 _ e He)
    as (Hw & Hs & k & Hv & Hk & Hd).
  repeat split; auto.
  vm_compute in He. injection He as <-. reflexivity.
Defined.

(** C9 as stated fails: for a session with a valid Id and an unknown
    type, and for one with a malformed Id, the detail of the failure does
    not contain the session's Id. *)
Lemma IsValid_detail_without_id :
  let us1 := set_Type "video" session_import in
  let us2 := set_Id "not an id" session_import in
  (IsValidId26 (Id us1) = true /\
   exists e, IsValid IsValidId26 us1 = Some e /\
             Err.DetailedError e = "invalid UploadType video"%string /\
             contains (Id us1) (Err.DetailedError e) = false) /\
  (exists e, IsValid IsValidId26 us2 = Some e /\
             Err.DetailedError e = ""%string /\
             contains (Id us2) (Err.DetailedError e) = false).
Proof.
  split.
  - split; [reflexivity |]. eexists. split; [reflexivity |].
    split; reflexivity.
  - eexists. split; [reflexivity |]. split; reflexivity.
Qed.

(** The two scenarios of the specification: an attachment without a
    channel fails with the channel failure, and with a channel and all
    bytes received it is valid. *)
Example attachment_without_channel :
  reported (IsValid IsValidId26 (set_ChannelId "" session_attachment)) =
  Some "model.upload_session.is_valid.channel_id.app_error".
Proof. vm_compute. reflexivity. Qed.

Example upload_complete_is_valid :
  FileOffset session_attachment = FileSize session_attachment /\
  IsValid IsValidId26 session_attachment = None.
Proof. split; vm_compute; reflexivity. Qed.

(** ** Defaulting *)

Section DefaultingFacts.

Variable World : Type.
Variable NewId : World -> string * World.
Variable GetMillis : World -> Z * World.

Lemma PreSave_frame (us : UploadSession) (w : World) :
  let us' := fst (PreSave NewId GetMillis us w) in
  Type_ us' = Type_ us /\ UserId us' = UserId us /\
  ChannelId us' = ChannelId us /\ Filename us' = Filename us /\
  Path us' = Path us /\ FileSize us' = FileSize us /\
  FileOffset us' = FileOffset us.
Proof.
  unfold PreSave.
  destruct (String.eqb (Id us) ""); [destruct (NewId w) as [id w1] |];
    simpl;
    match goal with
    | |- context [GetMillis ?w0] =>
        destruct (CreateAt us =? 0); [destruct (GetMillis w0) |]
    | _ => destruct (CreateAt us =? 0)
    end; simpl; repeat split.
Qed.

Lemma PreSave_Id (us : UploadSession) (w : World) :
  Id (fst (PreSave NewId GetMillis us w)) =
  if String.eqb (Id us) "" then fst (NewId w) else Id us.
Proof.
  unfold PreSave.
  destruct (String.eqb (Id us) ""); [destruct (NewId w) as [id w1] |];
    simpl.
  - destruct (CreateAt us =? 0); [destruct (GetMillis w1) |]; reflexivity.
  - destruct (CreateAt us =? 0); [destruct (GetMillis w) |]; reflexivity.
Qed.

Lemma PreSave_CreateAt (us : UploadSession) (w : World) :
  CreateAt (fst (PreSave NewId GetMillis us w)) =
  if CreateAt us =? 0 then fst (GetMillis (after_id NewId us w))
  else CreateAt us.
Proof.
  unfold PreSave, after_id.
  destruct (String.eqb (Id us) ""); [destruct (NewId w) as [id w1] |];
    simpl.
  - destruct (CreateAt us =? 0); [destruct (GetMillis w1) |]; reflexivity.
  - destruct (CreateAt us =? 0); [destruct (GetMillis w) |]; reflexivity.
Qed.

(** [PreSave] calls neither helper on a session that has both fields. *)
Lemma PreSave_populated (us : UploadSession) (w : World) :
  Id us <> "" -> CreateAt us <> 0 ->
  PreSave NewId GetMillis us w = (us, w).
Proof.
  intros Hid Hc. unfold PreSave.
  apply String.eqb_neq in Hid. rewrite Hid.
  apply Z.eqb_neq in Hc. rewrite Hc. reflexivity.
Qed.

Hypothesis NewId_nonempty : forall w, fst (NewId w) <> "".
Hypothesis GetMillis_nonzero : forall w, fst (GetMillis w) <> 0.

(** C4. [PreSave] assigns a fresh identifier only to an empty Id and the
    current time only to a zero CreateAt, and keeps a non-empty Id and a
    nonzero CreateAt; given a generator that returns non-empty
    identifiers and a clock that does not read zero, both fields are
    set afterwards and a second [PreSave] changes nothing. *)
Theorem PreSave_fills_once :
  forall (us : UploadSession) (w : World),
    let us' := fst (PreSave NewId GetMillis us w) in
    let w' := snd (PreSave NewId GetMillis us w) in
    (Id us <> "" -> Id us' = Id us) /\
    (CreateAt us <> 0 -> CreateAt us' = CreateAt us) /\
    (Id us = "" -> Id us' = fst (NewId w)) /\
    (CreateAt us = 0 -> CreateAt us' = fst (GetMillis (after_id NewId us w))) /\
    Id us' <> "" /\ CreateAt us' <> 0 /\
    PreSave NewId GetMillis us' w' = (us', w').
Proof.
  intros us w us' w'.
  assert (Hid : Id us' = if String.eqb (Id us) "" then fst (NewId w)
                         else Id us) by apply PreSave_Id.
  assert (Hc : CreateAt us' =
               if CreateAt us =? 0 then fst (GetMillis (after_id NewId us w))
               else CreateAt us) by apply PreSave_CreateAt.
  assert (Hid' : Id us' <> "").
  { rewrite Hid. destruct (String.eqb_spec (Id us) ""); auto. }
  assert (Hc' : CreateAt us' <> 0).
  { rewrite Hc. destruct (Z.eqb_spec (CreateAt us) 0); auto. }
  repeat split; auto.
  - intros H. rewrite Hid. apply String.eqb_neq in H. rewrite H.
    reflexivity.
  - intros H. rewrite Hc. apply Z.eqb_neq in H. rewrite H. reflexivity.
  - intros H. rewrite Hid, H. reflexivity.
  - intros H. rewrite Hc, H. reflexivity.
  - apply PreSave_populated; assumption.
Qed.

End DefaultingFacts.

Lemma PreSave_fills_once_witness :
  let us := set_CreateAt 0 (set_Id "" session_import) in
  let r := PreSave counter_NewId counter_GetMillis us 0%nat in
  Id (fst r) = id_a /\ CreateAt (fst r) = 1600000000001 /\
  PreSave counter_NewId counter_GetMillis (fst r) (snd r) = r.
Proof.
  intros us r. subst r.
  assert (H1 : forall w, fst (counter_NewId w) <> ""%string)
    by (intros w; discriminate).
  assert (H2 : forall w, fst (counter_GetMillis w) <> 0)
    by (intros w; unfold counter_GetMillis; cbn [fst]; lia).
  pose proof (PreSave_fills_once nat counter_NewId counter_GetMillis H1 H2
                us 0%nat) as (_ & _ & Hid & Hc & _ & _ & Hidem).
  split; [| split].
  - apply Hid. reflexivity.
  - rewrite Hc by reflexivity. vm_compute. reflexivity.
  - rewrite Hidem.
    destruct (PreSave counter_NewId counter_GetMillis us 0%nat).
    reflexivity.
Defined.

(** C10. [PreSave] changes no field but Id and CreateAt. *)
Theorem PreSave_changes_only_Id_CreateAt :
  forall (World : Type) (NewId : World -> string * World)
         (GetMillis : World -> Z * World) (us : UploadSession) (w : World),
    let us' := fst (PreSave NewId GetMillis us w) in
    Type_ us' = Type_ us /\ UserId us' = UserId us /\
    ChannelId us' = ChannelId us /\ Filename us' = Filename us /\
    Path us' = Path us /\ FileSize us' = FileSize us /\
    FileOffset us' = FileOffset us.
Proof.
  intros World NewId GetMillis us w. apply PreSave_frame.
Qed.

(** ** UTF-8: bit operations as arithmetic, decoding and encoding *)

Local Open Scope N_scope.

Ltac arith := zify; Z.to_euclidean_division_equations; lia.

Lemma land_mul_pow2_small (x y k : N) : y < 2 ^ k -> N.land (x * 2 ^ k) y = 0.
Proof.
  intros Hy. apply N.bits_inj_0. intros n. rewrite N.land_spec.
  destruct (N.lt_ge_cases n k) as [Hlt | Hge].
  - rewrite N.mul_pow2_bits_low by assumption. reflexivity.
  - replace y with (y mod 2 ^ k) by (apply N.mod_small; assumption).
    rewrite N.mod_pow2_bits_high by assumption. apply andb_false_r.
Qed.

Lemma lor_mul_pow2 (x y k : N) : y < 2 ^ k -> N.lor (x * 2 ^ k) y = x * 2 ^ k + y.
Proof.
  intros Hy. pose proof (land_mul_pow2_small x y k Hy) as H.
  rewrite <- N.lxor_lor by assumption.
  symmetry. apply N.add_nocarry_lxor. assumption.
Qed.

(** [a | b] is [a + b] when [a] is a multiple of [2^k] and [b] is below it. *)
Lemma lor_add (k a b : N) : a mod 2 ^ k = 0 -> b < 2 ^ k -> N.lor a b = a + b.
Proof.
  intros Ha Hb.
  assert (H2 : 2 ^ k <> 0) by (apply N.pow_nonzero; discriminate).
  pose proof (N.div_mod a (2 ^ k) H2) as Hd. rewrite Ha, N.add_0_r in Hd.
  rewrite Hd at 1 2. rewrite (N.mul_comm (2 ^ k)).
  rewrite lor_mul_pow2 by assumption. reflexivity.
Qed.

Lemma land_mask (k x : N) : N.land x (N.ones k) = x mod 2 ^ k.
Proof. apply N.land_ones. Qed.

Lemma byte_lt (c : ascii) : byte c < 256.
Proof. apply N_ascii_bounded. Qed.

Lemma chr_byte (c : ascii) : chr (byte c) = c.
Proof. apply ascii_N_embedding. Qed.

(** The table [first], by ranges. *)
Lemma first_Some (a : N) (sz : nat) (lo hi : N) :
  first a = Some (sz, (lo, hi)) ->
  (sz = 2%nat /\ 0xC2 <= a < 0xE0 /\ lo = 0x80 /\ hi = 0xBF) \/
  (sz = 3%nat /\
   ((a = 0xE0 /\ lo = 0xA0 /\ hi = 0xBF) \/
    (0xE1 <= a < 0xF0 /\ a <> 0xED /\ lo = 0x80 /\ hi = 0xBF) \/
    (a = 0xED /\ lo = 0x80 /\ hi = 0x9F))) \/
  (sz = 4%nat /\
   ((a = 0xF0 /\ lo = 0x90 /\ hi = 0xBF) \/
    (0xF1 <= a < 0xF4 /\ lo = 0x80 /\ hi = 0xBF) \/
    (a = 0xF4 /\ lo = 0x80 /\ hi = 0x8F))).
Proof.
  unfold first.
  repeat match goal with
         | |- context [?x <? ?y] => destruct (N.ltb_spec x y)
         | |- context [?x =? ?y] => destruct (N.eqb_spec x y)
         end; intros [= <- <- <-]; lia.
Qed.

Lemma first_None (a : N) : first a = None -> a < 0xC2 \/ 0xF4 < a.
Proof.
  unfold first.
  repeat match goal with
         | |- context [?x <? ?y] => destruct (N.ltb_spec x y)
         | |- context [?x =? ?y] => destruct (N.eqb_spec x y)
         end; intros [=]; lia.
Qed.

Lemma rune2_arith c0 c1 :
  rune2 c0 c1 = (byte c0 mod 32) * 64 + byte c1 mod 64.
Proof.
  unfold rune2.
  change 0x1F with (N.ones 5). change 0x3F with (N.ones 6).
  rewrite !land_mask, N.shiftl_mul_pow2.
  change (2 ^ 5) with 32. change (2 ^ 6) with 64.
  apply (lor_add 6); change (2 ^ 6) with 64; arith.
Qed.

Lemma rune3_arith c0 c1 c2 :
  rune3 c0 c1 c2 =
  (byte c0 mod 16) * 4096 + (byte c1 mod 64) * 64 + byte c2 mod 64.
Proof.
  unfold rune3.
  change 0x0F with (N.ones 4). change 0x3F with (N.ones 6).
  rewrite !land_mask, !N.shiftl_mul_pow2.
  change (2 ^ 4) with 16. change (2 ^ 6) with 64. change (2 ^ 12) with 4096.
  rewrite (lor_add 12 (byte c0 mod 16 * 4096) (byte c1 mod 64 * 64))
    by (change (2 ^ 12) with 4096; arith).
  apply (lor_add 6); change (2 ^ 6) with 64; arith.
Qed.

Lemma rune4_arith c0 c1 c2 c3 :
  rune4 c0 c1 c2 c3 =
  (byte c0 mod 8) * 262144 + (byte c1 mod 64) * 4096
  + (byte c2 mod 64) * 64 + byte c3 mod 64.
Proof.
  unfold rune4.
  change 0x07 with (N.ones 3). change 0x3F with (N.ones 6).
  rewrite !land_mask, !N.shiftl_mul_pow2.
  change (2 ^ 3) with 8. change (2 ^ 6) with 64. change (2 ^ 12) with 4096.
  change (2 ^ 18) with 262144.
  rewrite (lor_add 18 (byte c0 mod 8 * 262144) (byte c1 mod 64 * 4096))
    by (change (2 ^ 18) with 262144; arith).
  rewrite (lor_add 12 _ (byte c2 mod 64 * 64))
    by (change (2 ^ 12) with 4096; arith).
  apply (lor_add 6); change (2 ^ 6) with 64; arith.
Qed.

(** [DecodeRune] on a well-formed sequence looks at no byte after it. *)
Lemma DecodeRune_2 c0 c1 t lo hi :
  first (byte c0) = Some (2%nat, (lo, hi)) ->
  lo <= byte c1 <= hi ->
  DecodeRune (String c0 (String c1 t)) = (rune2 c0 c1, 2%nat).
Proof.
  intros Hf [Hlo Hhi]. unfold DecodeRune. rewrite Hf.
  pose proof (first_Some _ _ _ _ Hf) as Hr.
  destruct (N.ltb_spec (byte c0) RuneSelf); [unfold RuneSelf in *; lia |].
  cbn [String.length Nat.ltb Nat.leb].
  destruct (N.ltb_spec (byte c1) lo); [lia |].
  destruct (N.ltb_spec hi (byte c1)); [lia |].
  reflexivity.
Qed.

Lemma DecodeRune_3 c0 c1 c2 t lo hi :
  first (byte c0) = Some (3%nat, (lo, hi)) ->
  lo <= byte c1 <= hi -> is_cont (byte c2) = true ->
  DecodeRune (String c0 (String c1 (String c2 t))) = (rune3 c0 c1 c2, 3%nat).
Proof.
  intros Hf [Hlo Hhi] H2. unfold DecodeRune. rewrite Hf.
  pose proof (first_Some _ _ _ _ Hf) as Hr.
  destruct (N.ltb_spec (byte c0) RuneSelf); [unfold RuneSelf in *; lia |].
  cbn [String.length Nat.ltb Nat.leb].
  destruct (N.ltb_spec (byte c1) lo); [lia |].
  destruct (N.ltb_spec hi (byte c1)); [lia |].
  rewrite H2. reflexivity.
Qed.

Lemma DecodeRune_4 c0 c1 c2 c3 t lo hi :
  first (byte c0) = Some (4%nat, (lo, hi)) ->
  lo <= byte c1 <= hi -> is_cont (byte c2) = true ->
  is_cont (byte c3) = true ->
  DecodeRune (String c0 (String c1 (String c2 (String c3 t)))) =
  (rune4 c0 c1 c2 c3, 4%nat).
Proof.
  intros Hf [Hlo Hhi] H2 H3. unfold DecodeRune. rewrite Hf.
  pose proof (first_Some _ _ _ _ Hf) as Hr.
  destruct (N.ltb_spec (byte c0) RuneSelf); [unfold RuneSelf in *; lia |].
  cbn [String.length Nat.ltb Nat.leb].
  destruct (N.ltb_spec (byte c1) lo); [lia |].
  destruct (N.ltb_spec hi (byte c1)); [lia |].
  rewrite H2, H3. reflexivity.
Qed.

Lemma DecodeRune_cases c0 t : RuneSelf <= byte c0 -> decoded c0 t.
Proof.
  intros Hc.
  destruct (first (byte c0)) as [[sz [lo hi]] |] eqn:Hf.
  2:{ apply dec_invalid. unfold DecodeRune. rewrite Hf.
      destruct (N.ltb_spec (byte c0) RuneSelf); [lia | reflexivity]. }
  destruct t as [| c1 t1].
  { apply dec_invalid. unfold DecodeRune. rewrite Hf.
    destruct (N.ltb_spec (byte c0) RuneSelf); [lia |].
    destruct (String.length (String c0 "") <? sz)%nat; reflexivity. }
  destruct (N.ltb_spec (byte c1) lo) as [Hlo | Hlo].
  { apply dec_invalid. unfold DecodeRune. rewrite Hf.
    destruct (N.ltb_spec (byte c0) RuneSelf); [lia |].
    destruct (String.length _ <? sz)%nat; [reflexivity |].
    destruct (N.ltb_spec (byte c1) lo); [reflexivity | lia]. }
  destruct (N.ltb_spec hi (byte c1)) as [Hhi | Hhi].
  { apply dec_invalid. unfold DecodeRune. rewrite Hf.
    destruct (N.ltb_spec (byte c0) RuneSelf); [lia |].
    destruct (String.length _ <? sz)%nat; [reflexivity |].
    destruct (N.ltb_spec hi (byte c1)); [| lia].
    rewrite orb_true_r. reflexivity. }
  pose proof (first_Some _ _ _ _ Hf) as [(-> & _) | [(-> & _) | (-> & _)]].
  - eapply dec_2; eauto.
  - destruct t1 as [| c2 t2].
    { apply dec_invalid. unfold DecodeRune. rewrite Hf.
      destruct (N.ltb_spec (byte c0) RuneSelf); [lia |]. reflexivity. }
    destruct (is_cont (byte c2)) eqn:H2.
    + eapply dec_3; eauto.
    + apply dec_invalid. unfold DecodeRune. rewrite Hf.
      destruct (N.ltb_spec (byte c0) RuneSelf); [lia |].
      cbn [String.length Nat.ltb Nat.leb].
      destruct (N.ltb_spec (byte c1) lo); [lia |].
      destruct (N.ltb_spec hi (byte c1)); [lia |].
      rewrite H2. reflexivity.
  - destruct t1 as [| c2 t2].
    { apply dec_invalid. unfold DecodeRune. rewrite Hf.
      destruct (N.ltb_spec (byte c0) RuneSelf); [lia |]. reflexivity. }
    destruct (is_cont (byte c2)) eqn:H2.
    2:{ apply dec_invalid. unfold DecodeRune. rewrite Hf.
        destruct (N.ltb_spec (byte c0) RuneSelf); [lia |].
        destruct (String.length _ <? 4)%nat; [reflexivity |].
        destruct (N.ltb_spec (byte c1) lo); [lia |].
        destruct (N.ltb_spec hi (byte c1)); [lia |].
        rewrite H2. reflexivity. }
    destruct t2 as [| c3 t3].
    { apply dec_invalid. unfold DecodeRune. rewrite Hf.
      destruct (N.ltb_spec (byte c0) RuneSelf); [lia |]. reflexivity. }
    destruct (is_cont (byte c3)) eqn:H3.
    + eapply dec_4; eauto.
    + apply dec_invalid. unfold DecodeRune. rewrite Hf.
      destruct (N.ltb_spec (byte c0) RuneSelf); [lia |].
      cbn [String.length Nat.ltb Nat.leb].
      destruct (N.ltb_spec (byte c1) lo); [lia |].
      destruct (N.ltb_spec hi (byte c1)); [lia |].
      rewrite H2, H3. reflexivity.
Qed.

(** The bytes [EncodeRune] writes, arithmetically. *)
Lemma cont_byte (x : N) : N.lor 0x80 (N.land x 0x3F) = 128 + x mod 64.
Proof.
  change 0x3F with (N.ones 6). rewrite land_mask. change (2 ^ 6) with 64.
  apply (lor_add 7); change (2 ^ 7) with 128; arith.
Qed.

Lemma lead_byte (w sh m r : N) :
  m mod 2 ^ w = 0 -> r / 2 ^ sh < 2 ^ w ->
  N.lor m (N.shiftr r sh) = m + r / 2 ^ sh.
Proof.
  intros Hm Hr. rewrite N.shiftr_div_pow2. apply (lor_add w); assumption.
Qed.

Lemma EncodeRune_1r (r : N) : r <= 0x7F -> EncodeRune r = str1 (chr r).
Proof.
  intros H. unfold EncodeRune.
  destruct (N.leb_spec r 0x7F); [reflexivity | lia].
Qed.

Lemma EncodeRune_2r (r : N) :
  0x80 <= r <= 0x7FF ->
  EncodeRune r = String (chr (192 + r / 64)) (str1 (chr (128 + r mod 64))).
Proof.
  intros H. unfold EncodeRune.
  destruct (N.leb_spec r 0x7F); [lia |].
  destruct (N.leb_spec r 0x7FF); [| lia].
  rewrite cont_byte.
  rewrite (lead_byte 6 6 0xC0 r); [reflexivity | reflexivity |].
  change (2 ^ 6) with 64. arith.
Qed.

Lemma encode3_arith (r : N) :
  r <= 0xFFFF ->
  encode3 r =
  String (chr (224 + r / 4096))
    (String (chr (128 + (r / 64) mod 64)) (str1 (chr (128 + r mod 64)))).
Proof.
  intros H. unfold encode3.
  rewrite !cont_byte.
  rewrite (lead_byte 5 12 0xE0 r).
  - rewrite N.shiftr_div_pow2. reflexivity.
  - reflexivity.
  - change (2 ^ 12) with 4096. change (2 ^ 5) with 32. arith.
Qed.

Lemma EncodeRune_3r (r : N) :
  0x800 <= r <= 0xFFFF -> ~ (0xD800 <= r <= 0xDFFF) ->
  EncodeRune r =
  String (chr (224 + r / 4096))
    (String (chr (128 + (r / 64) mod 64)) (str1 (chr (128 + r mod 64)))).
Proof.
  intros H Hs. unfold EncodeRune, MaxRune.
  destruct (N.leb_spec r 0x7F); [lia |].
  destruct (N.leb_spec r 0x7FF); [lia |].
  destruct (N.ltb_spec 0x10FFFF r); [lia |].
  destruct (N.leb_spec 0xD800 r); destruct (N.leb_spec r 0xDFFF);
    try lia; cbn [orb andb];
    (destruct (N.leb_spec r 0xFFFF); [| lia]);
    apply encode3_arith; lia.
Qed.

Lemma EncodeRune_4r (r : N) :
  0x10000 <= r <= 0x10FFFF ->
  EncodeRune r =
  String (chr (240 + r / 262144))
    (String (chr (128 + (r / 4096) mod 64))
       (String (chr (128 + (r / 64) mod 64)) (str1 (chr (128 + r mod 64))))).
Proof.
  intros H. unfold EncodeRune, MaxRune.
  destruct (N.leb_spec r 0x7F); [lia |].
  destruct (N.leb_spec r 0x7FF); [lia |].
  destruct (N.ltb_spec 0x10FFFF r); [lia |].
  destruct (N.leb_spec 0xD800 r); destruct (N.leb_spec r 0xDFFF);
    try lia; cbn [orb andb];
    (destruct (N.leb_spec r 0xFFFF); [lia |]);
    rewrite !cont_byte, (lead_byte 4 18 0xF0 r), !N.shiftr_div_pow2;
    try reflexivity;
    change (2 ^ 18) with 262144; change (2 ^ 4) with 16; arith.
Qed.

Lemma chr_eq (n : N) (c : ascii) : n = byte c -> chr n = c.
Proof. intros ->. apply chr_byte. Qed.

Lemma is_cont_range (b : N) : is_cont b = true -> 0x80 <= b <= 0xBF.
Proof.
  unfold is_cont. rewrite andb_true_iff, !N.leb_le. tauto.
Qed.

(** Encoding a decoded well-formed sequence gives its bytes back. *)
Lemma EncodeRune_rune2 c0 c1 lo hi :
  first (byte c0) = Some (2%nat, (lo, hi)) -> lo <= byte c1 <= hi ->
  EncodeRune (rune2 c0 c1) = String c0 (str1 c1).
Proof.
  intros Hf Hr.
  apply first_Some in Hf.
  rewrite rune2_arith, EncodeRune_2r by arith.
  unfold str1. repeat f_equal; apply chr_eq; arith.
Qed.

Lemma EncodeRune_rune3 c0 c1 c2 lo hi :
  first (byte c0) = Some (3%nat, (lo, hi)) -> lo <= byte c1 <= hi ->
  is_cont (byte c2) = true ->
  EncodeRune (rune3 c0 c1 c2) = String c0 (String c1 (str1 c2)).
Proof.
  intros Hf Hr H2.
  apply first_Some in Hf. apply is_cont_range in H2.
  rewrite rune3_arith, EncodeRune_3r by arith.
  unfold str1. repeat f_equal; apply chr_eq; arith.
Qed.

Lemma EncodeRune_rune4 c0 c1 c2 c3 lo hi :
  first (byte c0) = Some (4%nat, (lo, hi)) -> lo <= byte c1 <= hi ->
  is_cont (byte c2) = true -> is_cont (byte c3) = true ->
  EncodeRune (rune4 c0 c1 c2 c3) =
  String c0 (String c1 (String c2 (str1 c3))).
Proof.
  intros Hf Hr H2 H3.
  apply first_Some in Hf. apply is_cont_range in H2, H3.
  rewrite rune4_arith, EncodeRune_4r by arith.
  unfold str1. repeat f_equal; apply chr_eq; arith.
Qed.

(** ** String literals *)

Local Open Scope string_scope.

Lemma prepend_Some out v rest :
  prepend out (Some (v, rest)) = Some (out ++ v, rest).
Proof. reflexivity. Qed.

Lemma high_not_special (c : ascii) :
  (RuneSelf <= byte c)%N ->
  Ascii.eqb c dquote = false /\ Ascii.eqb c bslash = false /\
  (byte c <? 0x20)%N = false /\ (byte c <? RuneSelf)%N = false.
Proof.
  unfold RuneSelf. intros H. repeat split.
  - apply Ascii.eqb_neq. intros ->. vm_compute in H. auto.
  - apply Ascii.eqb_neq. intros ->. vm_compute in H. auto.
  - apply N.ltb_ge. lia.
  - apply N.ltb_ge. lia.
Qed.

(** Unquoting what [encode_from] writes for an ASCII byte gives the byte. *)
Lemma unquote_ascii (c : ascii) (X : string) :
  (byte c < RuneSelf)%N ->
  unquote_from 0 ((if htmlSafe c then str1 c else escape_byte c) ++ X) =
  prepend (str1 c) (unquote_from 0 X).
Proof.
  destruct c as [b0 b1 b2 b3 b4 b5 b6 [|]].
  - intros H. exfalso.
    destruct b0, b1, b2, b3, b4, b5, b6; vm_compute in H; discriminate H.
  - intros _. destruct b0, b1, b2, b3, b4, b5, b6; reflexivity.
Qed.

Lemma DecodeRune_ascii (c : ascii) (t : string) :
  (byte c < RuneSelf)%N -> DecodeRune (String c t) = (byte c, 1%nat).
Proof.
  intros H. unfold DecodeRune.
  destruct (N.ltb_spec (byte c) RuneSelf); [reflexivity | lia].
Qed.

Lemma append_assoc (a b c : string) : (a ++ b) ++ c = a ++ (b ++ c).
Proof. induction a as [| x a IH]; simpl; [reflexivity | rewrite IH; reflexivity]. Qed.

Lemma append_nil_r (a : string) : a ++ "" = a.
Proof. induction a as [| x a IH]; simpl; [reflexivity | rewrite IH; reflexivity]. Qed.

Lemma length_append (a b : string) :
  String.length (a ++ b) = (String.length a + String.length b)%nat.
Proof. induction a as [| x a IH]; simpl; [reflexivity | rewrite IH; reflexivity]. Qed.

Lemma unquote_from_high (c : ascii) (t : string) :
  (RuneSelf <= byte c)%N ->
  unquote_from 0 (String c t) =
  let '(r, size) := DecodeRune (String c t) in
  prepend (EncodeRune r) (unquote_from (size - 1) t).
Proof.
  intros H. destruct (high_not_special c H) as (H1 & H2 & H3 & H4).
  cbn [unquote_from]. rewrite H1, H2, H3, H4. reflexivity.
Qed.

(** Unquoting an encoded string gives the string coerced to UTF-8. *)
Lemma unquote_encode :
  forall s rest (k : nat),
    unquote_from 0 (encode_from k s ++ String dquote rest) =
    Some (coerce_from k s, rest).
Proof.
  induction s as [| c t IH]; intros rest k.
  - reflexivity.
  - destruct k as [| k].
    2:{ cbn [encode_from coerce_from]. apply IH. }
    cbn [encode_from coerce_from].
    destruct (N.ltb_spec (byte c) RuneSelf) as [Hlt | Hge].
    + (* an ASCII byte *)
      rewrite DecodeRune_ascii by assumption.
      rewrite append_assoc, unquote_ascii, IH by assumption.
      rewrite EncodeRune_1r by (unfold RuneSelf in Hlt; lia).
      rewrite chr_byte. reflexivity.
    + destruct (DecodeRune_cases c t Hge)
        as [Hd | c1 t' lo hi -> Hf Hr | c1 c2 t' lo hi -> Hf Hr H2
            | c1 c2 c3 t' lo hi -> Hf Hr H2 H3].
      * (* a byte that starts no sequence *)
        rewrite Hd. cbn [N.eqb Pos.eqb RuneError Nat.eqb andb].
        rewrite append_assoc.
        change (unquote_from 0 (String bslash "ufffd" ++ ?X))
          with (prepend (EncodeRune RuneError) (unquote_from 0 X)).
        rewrite IH. reflexivity.
      * (* two bytes *)
        rewrite (DecodeRune_2 _ _ _ _ _ Hf Hr).
        assert (Hb : (rune2 c c1 <= 0x7FF)%N) by (rewrite rune2_arith; arith).
        destruct (N.eqb_spec (rune2 c c1) RuneError) as [E | _];
          [unfold RuneError in E; lia |].
        destruct (N.eqb_spec (rune2 c c1) 0x2028) as [E | _]; [lia |].
        destruct (N.eqb_spec (rune2 c c1) 0x2029) as [E | _]; [lia |].
        cbn [andb orb take Nat.sub append].
        rewrite unquote_from_high, (DecodeRune_2 _ _ _ _ _ Hf Hr)
          by assumption.
        cbn [Nat.sub unquote_from]. rewrite IH. reflexivity.
      * (* three bytes *)
        rewrite (DecodeRune_3 _ _ _ _ _ _ Hf Hr H2).
        cbn [Nat.eqb andb]. rewrite andb_false_r.
        destruct (N.eqb_spec (rune3 c c1 c2) 0x2028) as [E | _].
        { rewrite E.
          cbn [orb Nat.sub].
          rewrite !append_assoc.
          change (unquote_from 0 (String bslash "u202" ++ ?a ++ ?X))
            with (prepend (EncodeRune 0x2028) (unquote_from 0 X)).
          rewrite IH. reflexivity. }
        destruct (N.eqb_spec (rune3 c c1 c2) 0x2029) as [E | _].
        { rewrite E.
          cbn [orb Nat.sub].
          rewrite !append_assoc.
          change (unquote_from 0 (String bslash "u202" ++ ?a ++ ?X))
            with (prepend (EncodeRune 0x2029) (unquote_from 0 X)).
          rewrite IH. reflexivity. }
        cbn [andb orb take Nat.sub append].
        rewrite unquote_from_high, (DecodeRune_3 _ _ _ _ _ _ Hf Hr H2)
          by assumption.
        cbn [Nat.sub unquote_from]. rewrite IH. reflexivity.
      * (* four bytes *)
        rewrite (DecodeRune_4 _ _ _ _ _ _ _ Hf Hr H2 H3).
        assert (Hb : (0x10000 <= rune4 c c1 c2 c3)%N).
        { rewrite rune4_arith. apply first_Some in Hf.
          apply is_cont_range in H2, H3. arith. }
        cbn [Nat.eqb andb]. rewrite andb_false_r.
        destruct (N.eqb_spec (rune4 c c1 c2 c3) 0x2028) as [E | _]; [lia |].
        destruct (N.eqb_spec (rune4 c c1 c2 c3) 0x2029) as [E | _]; [lia |].
        cbn [andb orb take Nat.sub append].
        rewrite unquote_from_high, (DecodeRune_4 _ _ _ _ _ _ _ Hf Hr H2 H3)
          by assumption.
        cbn [Nat.sub unquote_from]. rewrite IH. reflexivity.
Qed.

(** A valid string is its own coercion. *)
Lemma coerce_from_valid :
  forall s (k : nat), valid_from k s = true -> coerce_from k s = drop k s.
Proof.
  induction s as [| c t IH]; intros k Hv.
  - destruct k; reflexivity.
  - destruct k as [| k]; [| cbn [coerce_from drop]; apply IH; exact Hv].
    cbn [valid_from coerce_from drop] in *.
    destruct (N.ltb_spec (byte c) RuneSelf) as [Hlt | Hge].
    + rewrite DecodeRune_ascii in * by assumption.
      rewrite EncodeRune_1r by (unfold RuneSelf in Hlt; lia).
      rewrite chr_byte.
      replace ((byte c =? RuneError)%N && (1 =? 1)%nat) with false in Hv.
      2:{ symmetry. apply andb_false_iff. left. apply N.eqb_neq.
          unfold RuneSelf, RuneError in *. lia. }
      rewrite (IH _ Hv). reflexivity.
    + destruct (DecodeRune_cases c t Hge)
        as [Hd | c1 t' lo hi -> Hf Hr | c1 c2 t' lo hi -> Hf Hr H2
            | c1 c2 c3 t' lo hi -> Hf Hr H2 H3].
      * rewrite Hd in Hv. discriminate Hv.
      * rewrite (DecodeRune_2 _ _ _ _ _ Hf Hr) in *.
        rewrite andb_false_r in Hv.
        rewrite (IH _ Hv), (EncodeRune_rune2 _ _ _ _ Hf Hr). reflexivity.
      * rewrite (DecodeRune_3 _ _ _ _ _ _ Hf Hr H2) in *.
        rewrite andb_false_r in Hv.
        rewrite (IH _ Hv), (EncodeRune_rune3 _ _ _ _ _ Hf Hr H2).
        reflexivity.
      * rewrite (DecodeRune_4 _ _ _ _ _ _ _ Hf Hr H2 H3) in *.
        rewrite andb_false_r in Hv.
        rewrite (IH _ Hv), (EncodeRune_rune4 _ _ _ _ _ _ Hf Hr H2 H3).
        reflexivity.
Qed.

Lemma coerce_valid (s : string) : ValidString s = true -> coerce s = s.
Proof. intros H. apply (coerce_from_valid s 0 H). Qed.

(** ** Numbers *)

Lemma span_digits_uint (d : uint) (rest : string) :
  ends_number rest ->
  span_digits (NilEmpty.string_of_uint d ++ rest) =
  (NilEmpty.string_of_uint d, rest).
Proof.
  intros Hr. induction d; cbn [NilEmpty.string_of_uint append];
    try (cbn [span_digits]; 
         change (is_digit _) with true; cbn iota; rewrite IHd; reflexivity).
  destruct rest as [| c r]; [reflexivity |].
  cbn [span_digits]. destruct Hr as [-> _]. reflexivity.
Qed.

(** The decimal digits of a positive number start with a nonzero digit. *)
Lemma to_uint_head (p : positive) :
  exists c t, NilEmpty.string_of_uint (Pos.to_uint p) = String c t /\
              is_digit c = true /\ Ascii.eqb c "0" = false /\
              Ascii.eqb c "-" = false /\ Ascii.eqb c "+" = false /\
              exists d, t = NilEmpty.string_of_uint d.
Proof.
  pose proof (DecimalPos.Unsigned.to_of (Pos.to_uint p)) as H.
  rewrite DecimalPos.Unsigned.of_to in H.
  change (N.to_uint (N.pos p)) with (Pos.to_uint p) in H.
  pose proof (DecimalPos.Unsigned.to_uint_nonzero p) as Hz.
  assert (Hn : nzhead (Pos.to_uint p) = Pos.to_uint p).
  { unfold unorm in H. destruct (nzhead (Pos.to_uint p)) eqn:E;
      try (symmetry; exact H).
    exfalso. apply Hz. exact H. }
  pose proof (DecimalFacts.nzhead_nonzero (Pos.to_uint p)) as Hh.
  rewrite Hn in Hh.
  destruct (Pos.to_uint p) as [| d | d | d | d | d | d | d | d | d | d] eqn:E.
  - exfalso. apply (DecimalPos.Unsigned.to_uint_nonnil p). exact E.
  - exfalso. apply (Hh d). reflexivity.
  - exists "1"%char, (NilEmpty.string_of_uint d). repeat split; eauto.
  - exists "2"%char, (NilEmpty.string_of_uint d). repeat split; eauto.
  - exists "3"%char, (NilEmpty.string_of_uint d). repeat split; eauto.
  - exists "4"%char, (NilEmpty.string_of_uint d). repeat split; eauto.
  - exists "5"%char, (NilEmpty.string_of_uint d). repeat split; eauto.
  - exists "6"%char, (NilEmpty.string_of_uint d). repeat split; eauto.
  - exists "7"%char, (NilEmpty.string_of_uint d). repeat split; eauto.
  - exists "8"%char, (NilEmpty.string_of_uint d). repeat split; eauto.
  - exists "9"%char, (NilEmpty.string_of_uint d). repeat split; eauto.
Qed.

Lemma scan_tail (rest : string) :
  ends_number rest ->
  scan_frac rest = Some ("", rest) /\ scan_exp rest = Some ("", rest).
Proof.
  intros Hr. destruct rest as [| c r]; [split; reflexivity |].
  destruct Hr as (_ & H1 & H2 & H3). unfold scan_frac, scan_exp.
  rewrite H1, H2, H3. split; reflexivity.
Qed.

Lemma scan_number_digits (c : ascii) (d : uint) (rest : string) :
  is_digit c = true -> Ascii.eqb c "0" = false -> Ascii.eqb c "-" = false ->
  ends_number rest ->
  scan_number (String c (NilEmpty.string_of_uint d) ++ rest) =
  Some (String c (NilEmpty.string_of_uint d), rest) /\
  scan_number (String "-" (String c (NilEmpty.string_of_uint d)) ++ rest) =
  Some (String "-" (String c (NilEmpty.string_of_uint d)), rest).
Proof.
  intros Hd H0 Hm Hr. destruct (scan_tail rest Hr) as [Hf He].
  unfold scan_number, scan_sign, scan_int. cbn [append]. rewrite Hm.
  change (Ascii.eqb "-" "-") with true. cbn iota.
  rewrite H0, Hd, span_digits_uint by assumption.
  rewrite Hf, He. cbn [append]. rewrite !append_nil_r. split; reflexivity.
Qed.

(** Scanning a printed integer gives its text back. *)
Lemma scan_number_FormatInt (z : Z) (rest : string) :
  ends_number rest ->
  scan_number (FormatInt z ++ rest) = Some (FormatInt z, rest).
Proof.
  intros Hr. unfold FormatInt.
  destruct z as [| p | p]; cbn [Z.to_int NilEmpty.string_of_int].
  - destruct (scan_tail rest Hr) as [Hf He].
    change (scan_number (NilEmpty.string_of_uint (D0 Nil) ++ rest))
      with (match scan_frac rest with
            | None => None
            | Some (fp, r2) =>
              match scan_exp r2 with
              | None => None
              | Some (ep, r3) => Some ("" ++ "0" ++ fp ++ ep, r3)
              end
            end).
    rewrite Hf, He. reflexivity.
  - destruct (to_uint_head p) as (c & t & -> & Hd & H0 & Hm & _ & d & ->).
    apply scan_number_digits; assumption.
  - destruct (to_uint_head p) as (c & t & -> & Hd & H0 & Hm & _ & d & ->).
    apply scan_number_digits; assumption.
Qed.

(** Parsing a printed [int64] gives the number back. *)
Lemma ParseInt64_FormatInt (z : Z) :
  int64_ok z -> ParseInt64 (FormatInt z) = Some z.
Proof.
  intros Hz. unfold int64_ok in Hz.
  assert (Hrange : ((- 2 ^ 63 <=? z) && (z <? 2 ^ 63))%Z = true).
  { apply andb_true_iff. rewrite Z.leb_le, Z.ltb_lt. exact Hz. }
  unfold FormatInt.
  destruct z as [| p | p]; cbn [Z.to_int NilEmpty.string_of_int].
  - reflexivity.
  - destruct (to_uint_head p) as (c & t & E & Hd & H0 & Hm & Hp & _).
    unfold ParseInt64. rewrite E, Hp, Hm, <- E.
    rewrite NilEmpty.usu.
    unfold Z.of_uint. rewrite DecimalPos.Unsigned.of_to.
    cbn [Z.of_N]. rewrite Hrange. reflexivity.
  - destruct (to_uint_head p) as (c & t & E & Hd & H0 & Hm & Hp & _).
    unfold ParseInt64. change (Ascii.eqb "-" "+") with false.
    change (Ascii.eqb "-" "-") with true. cbn iota.
    rewrite E, <- E.
    rewrite NilEmpty.usu.
    unfold Z.of_uint. rewrite DecimalPos.Unsigned.of_to.
    cbn [Z.of_N Z.opp]. rewrite Hrange. reflexivity.
Qed.

(** ** Objects *)

Lemma is_digit_cases (c : ascii) :
  is_digit c = true ->
  In c ["0"; "1"; "2"; "3"; "4"; "5"; "6"; "7"; "8"; "9"]%char.
Proof.
  destruct c as [[|] [|] [|] [|] [|] [|] [|] [|]]; intros H;
    try (vm_compute in H; discriminate H); simpl; tauto.
Qed.

Lemma FormatInt_head (z : Z) :
  exists c t, FormatInt z = String c t /\
              In c ["-"; "0"; "1"; "2"; "3"; "4"; "5"; "6"; "7"; "8"; "9"]%char.
Proof.
  unfold FormatInt.
  destruct z as [| p | p]; cbn [Z.to_int NilEmpty.string_of_int].
  - exists "0"%char, ""; split; [reflexivity | simpl; tauto].
  - destruct (to_uint_head p) as (c & t & -> & Hd & _).
    exists c, t. split; [reflexivity |]. right. apply is_digit_cases, Hd.
  - eexists _, _. split; [reflexivity | left; reflexivity].
Qed.

(** A value that starts like a number is scanned as one. *)
Lemma scan_value_number (f : nat) (c : ascii) (t : string) :
  In c ["-"; "0"; "1"; "2"; "3"; "4"; "5"; "6"; "7"; "8"; "9"]%char ->
  scan_value (S f) (String c t) =
  match scan_number (String c t) with
  | Some (lit, r) => Ok (JNumber lit) r
  | None => SyntaxError
  end.
Proof.
  intros H. simpl in H.
  repeat (destruct H as [<- | H]; [reflexivity |]). contradiction.
Qed.

Lemma ends_value_number (rest : string) : ends_value rest -> ends_number rest.
Proof. intros [r [-> | ->]]; simpl; auto. Qed.

(** Scanning an encoded field value gives the value. *)
Lemma scan_value_encode (f : nat) (v : fvalue) (rest : string) :
  ends_value rest ->
  scan_value (S f) (encode_value v ++ rest) = Ok (jvalue_of v) rest.
Proof.
  intros Hr. destruct v as [s | z]; cbn [encode_value jvalue_of].
  - unfold encode_string, str1.
    cbn [append]. rewrite append_assoc. cbn [append].
    change (scan_value (S f) (String dquote ?X))
      with (match unquote_from 0 X with
            | Some (v, r) => Ok (JString v) r
            | None => SyntaxError
            end).
    rewrite unquote_encode. reflexivity.
  - destruct (FormatInt_head z) as (c & t & E & Hc).
    pose proof (scan_number_FormatInt z rest (ends_value_number _ Hr)) as Hn.
    rewrite E in *. cbn [append] in *.
    rewrite scan_value_number by assumption. rewrite Hn. reflexivity.
Qed.

Lemma encode_field_head (x : string * fvalue) (X : string) :
  exists Y, encode_field x ++ X = String dquote Y.
Proof.
  unfold encode_field, encode_string. cbn [append]. eauto.
Qed.

Lemma join_head (x : string * fvalue) (l : list (string * fvalue))
    (X : string) :
  exists Y, join "," (map encode_field (x :: l)) ++ X = String dquote Y.
Proof.
  cbn [map join]. destruct (map encode_field l).
  - apply encode_field_head.
  - rewrite append_assoc. apply encode_field_head.
Qed.

(** Scanning one encoded member, up to the byte that follows it. *)
Lemma scan_member (f : nat) (x : string * fvalue) (rest : string) :
  ends_value rest ->
  exists Y, encode_field x ++ rest = String dquote Y /\
            unquote_from 0 Y =
            Some (coerce (fst x), String ":" (encode_value (snd x) ++ rest)).
Proof.
  intros Hr. unfold encode_field, encode_string, str1. cbn [append].
  eexists. split; [reflexivity |].
  rewrite !append_assoc. cbn [append].
  rewrite unquote_encode. reflexivity.
Qed.

Lemma scan_members_encode :
  forall (fs : list (string * fvalue)) (x : string * fvalue) (f : nat)
         (rest : string),
    (List.length fs < f)%nat ->
    scan_members (S f)
      (join "," (map encode_field (x :: fs)) ++ String "}" rest) =
    Ok (members_of (x :: fs)) rest.
Proof.
  induction fs as [| y fs IH]; intros x f rest Hf.
  - cbn [map join].
    destruct (scan_member f x (String "}" rest)) as (Y & E & Hu);
      [eexists; eauto |].
    rewrite E. cbn [scan_members]. 
    change (Ascii.eqb dquote dquote) with true. cbn [negb].
    rewrite Hu. cbn [skip_space isSpace].
    change (isSpace ":") with false. cbn iota.
    change (Ascii.eqb ":" ":") with true. cbn [negb].
    destruct f as [| f]; [lia |].
    rewrite scan_value_encode by (eexists; eauto).
    reflexivity.
  - change (join "," (map encode_field (x :: y :: fs)))
      with (encode_field x ++ "," ++ join "," (map encode_field (y :: fs))).
    rewrite !append_assoc. cbn [append].
    destruct (scan_member f x
                (String "," (join "," (map encode_field (y :: fs))
                             ++ String "}" rest))) as (Y & E & Hu);
      [eexists; eauto |].
    rewrite E. cbn [scan_members].
    change (Ascii.eqb dquote dquote) with true. cbn [negb].
    rewrite Hu. cbn [skip_space isSpace].
    change (isSpace ":") with false. cbn iota.
    change (Ascii.eqb ":" ":") with true. cbn [negb].
    cbn [List.length] in Hf.
    destruct f as [| f]; [lia |].
    rewrite scan_value_encode by (eexists; eauto).
    cbn [skip_space]. change (isSpace ",") with false. cbn iota.
    change (Ascii.eqb "," "}") with false.
    change (Ascii.eqb "," ",") with true. cbn iota.
    destruct (join_head y fs (String "}" rest)) as (Y' & E').
    rewrite E'. cbn [skip_space]. change (isSpace dquote) with false.
    cbn iota. rewrite <- E'.
    rewrite IH by lia. reflexivity.
Qed.

Lemma encode_field_length (x : string * fvalue) :
  (1 <= String.length (encode_field x))%nat.
Proof. unfold encode_field, encode_string. cbn [append String.length]. lia. Qed.

Lemma join_length (l : list (string * fvalue)) :
  (List.length l <= String.length (join "," (map encode_field l)))%nat.
Proof.
  induction l as [| x l IH]; [simpl; lia |].
  destruct l as [| y l].
  - cbn [map join List.length]. apply encode_field_length.
  - change (join "," (map encode_field (x :: y :: l)))
      with (encode_field x ++ "," ++ join "," (map encode_field (y :: l))).
    rewrite !length_append. cbn [List.length String.length] in *.
    pose proof (encode_field_length x). lia.
Qed.

(** Reading an encoded object gives its members. *)
Lemma read_value_object (x : string * fvalue) (fs : list (string * fvalue)) :
  read_value ("{" ++ join "," (map encode_field (x :: fs)) ++ "}") =
  Ok (JObject (members_of (x :: fs))) "".
Proof.
  unfold read_value.
  pose proof (join_length (x :: fs)) as Hl.
  remember (join "," (map encode_field (x :: fs))) as body eqn:Eb.
  cbn [append String.length]. rewrite length_append.
  cbn [String.length] in *. cbn [List.length] in Hl.
  replace (2 * S (String.length body + 1))%nat
    with (S (S (2 * String.length body + 2)))%nat by lia.
  destruct (join_head x fs "}") as (Y & E). rewrite <- Eb in E.
  cbn [scan_value skip_space]. change (isSpace "{") with false. cbn iota.
  change (Ascii.eqb "{" "{") with true. cbn iota.
  rewrite E. cbn [skip_space]. change (isSpace dquote) with false. cbn iota.
  change (Ascii.eqb dquote "}") with false. cbn iota.
  rewrite <- E. subst body.
  rewrite scan_members_encode by lia. reflexivity.
Qed.

Lemma read_value_Marshal (us : UploadSession) :
  read_value (Marshal us) = Ok (JObject (members_of (fields us))) "".
Proof.
  unfold Marshal, fields. cbn [List.app]. apply read_value_object.
Qed.

Lemma keys_of_fields (us : UploadSession) :
  map fst (members_of (fields us)) = keys_of us.
Proof.
  unfold fields, keys_of, members_of.
  destruct (String.eqb (ChannelId us) ""); reflexivity.
Qed.

(** Storing the members of an encoded session in the zero session. *)
Lemma object_into_fields (us : UploadSession) :
  ints_ok us ->
  object_into (members_of (fields us)) zero_session =
  (coerce_session us, false).
Proof.
  intros (Hc & Hs & Ho).
  unfold fields, members_of.
  destruct (String.eqb_spec (ChannelId us) "") as [Ech | Ech];
    cbn [List.app map fst snd jvalue_of object_into];
    change (find_field (coerce "id")) with (Some FId);
    change (find_field (coerce "type")) with (Some FType);
    change (find_field (coerce "create_at")) with (Some FCreateAt);
    change (find_field (coerce "user_id")) with (Some FUserId);
    change (find_field (coerce "channel_id")) with (Some FChannelId);
    change (find_field (coerce "filename")) with (Some FFilename);
    change (find_field (coerce "file_size")) with (Some FFileSize);
    change (find_field (coerce "file_offset")) with (Some FFileOffset);
    cbn [store store_string store_int64];
    rewrite !ParseInt64_FormatInt by assumption;
    cbn [orb]; unfold coerce_session; try rewrite Ech; reflexivity.
Qed.

(** Decoding an encoded session gives the session with its strings
    coerced to UTF-8 and without its Path. *)
Lemma FromJson_ToJson (us : UploadSession) :
  ints_ok us -> UploadSessionFromJson (ToJson us) = Some (coerce_session us).
Proof.
  intros H. unfold UploadSessionFromJson, ToJson, Decode.
  rewrite read_value_Marshal, object_into_fields by assumption.
  reflexivity.
Qed.

(** ** Decoding consumes the stream *)

Lemma skip_space_length (s : string) :
  (String.length (skip_space s) <= String.length s)%nat.
Proof.
  induction s as [| c t IH]; cbn [skip_space String.length]; [lia |].
  destruct (isSpace c); cbn [String.length]; lia.
Qed.

Lemma prepend_inv out x v r :
  prepend out x = Some (v, r) -> exists v', x = Some (v', r).
Proof.
  destruct x as [[v' r'] |]; cbn [prepend]; [| discriminate].
  intros [= _ <-]. eauto.
Qed.

Lemma unquote_from_length :
  forall s (k : nat) v r,
    unquote_from k s = Some (v, r) -> (String.length r < String.length s)%nat.
Proof.
  induction s as [| c t IH]; intros k v r H; [discriminate H |].
  cbn [String.length]. destruct k as [| k].
  2:{ cbn [unquote_from] in H. apply IH in H. lia. }
  cbn [unquote_from] in H.
  destruct (Ascii.eqb c dquote).
  { injection H as _ <-. lia. }
  destruct (Ascii.eqb c bslash).
  { destruct (unescape (String c t)) as [[out n] |]; [| discriminate H].
    apply prepend_inv in H. destruct H as [v' H]. apply IH in H. lia. }
  destruct (byte c <? 32)%N; [discriminate H |].
  destruct (byte c <? RuneSelf)%N.
  { apply prepend_inv in H. destruct H as [v' H]. apply IH in H. lia. }
  destruct (DecodeRune (String c t)) as [rr size].
  apply prepend_inv in H. destruct H as [v' H]. apply IH in H. lia.
Qed.

Lemma span_digits_length (s : string) :
  (String.length (snd (span_digits s)) <= String.length s)%nat.
Proof.
  induction s as [| c t IH]; cbn [span_digits]; [simpl; lia |].
  destruct (is_digit c); [| simpl; lia].
  destruct (span_digits t) as [d r]. cbn [snd String.length] in *. lia.
Qed.

Lemma scan_sign_length (s : string) :
  (String.length (snd (scan_sign s)) <= String.length s)%nat.
Proof.
  destruct s as [| c t]; [simpl; lia |]. unfold scan_sign.
  destruct (Ascii.eqb c "-"); simpl; lia.
Qed.

Lemma scan_int_length (s i r : string) :
  scan_int s = Some (i, r) -> (String.length r < String.length s)%nat.
Proof.
  destruct s as [| c t]; [discriminate |]. unfold scan_int.
  destruct (Ascii.eqb c "0"); [intros [= _ <-]; simpl; lia |].
  destruct (is_digit c); [| discriminate].
  pose proof (span_digits_length t) as Hl.
  destruct (span_digits t) as [d r0]. intros [= _ <-].
  cbn [snd String.length] in *. lia.
Qed.

Lemma scan_frac_length (s f r : string) :
  scan_frac s = Some (f, r) -> (String.length r <= String.length s)%nat.
Proof.
  destruct s as [| c t]; [intros [= _ <-]; lia |]. unfold scan_frac.
  destruct (Ascii.eqb c "."); [| intros [= _ <-]; lia].
  pose proof (span_digits_length t) as Hl.
  destruct (span_digits t) as [d r0]. destruct d; [discriminate |].
  intros [= _ <-]. cbn [snd String.length] in *. lia.
Qed.

Lemma scan_exp_sign_length (s : string) :
  (String.length (snd (scan_exp_sign s)) <= String.length s)%nat.
Proof.
  destruct s as [| c t]; [simpl; lia |]. unfold scan_exp_sign.
  destruct (Ascii.eqb c "+" || Ascii.eqb c "-"); simpl; lia.
Qed.

Lemma scan_exp_length (s e r : string) :
  scan_exp s = Some (e, r) -> (String.length r <= String.length s)%nat.
Proof.
  destruct s as [| c t]; [intros [= _ <-]; lia |]. unfold scan_exp.
  destruct (Ascii.eqb c "e" || Ascii.eqb c "E"); [| intros [= _ <-]; lia].
  pose proof (scan_exp_sign_length t) as Hs.
  destruct (scan_exp_sign t) as [sg t'].
  pose proof (span_digits_length t') as Hl.
  destruct (span_digits t') as [d r0]. destruct d; [discriminate |].
  intros [= _ <-]. cbn [snd String.length] in *. lia.
Qed.

Lemma scan_number_length (s lit r : string) :
  scan_number s = Some (lit, r) -> (String.length r < String.length s)%nat.
Proof.
  unfold scan_number.
  pose proof (scan_sign_length s) as Hs.
  destruct (scan_sign s) as [sign s1]. cbn [snd] in Hs.
  destruct (scan_int s1) as [[ip r1] |] eqn:Hi; [| discriminate].
  apply scan_int_length in Hi.
  destruct (scan_frac r1) as [[fp r2] |] eqn:Hf; [| discriminate].
  apply scan_frac_length in Hf.
  destruct (scan_exp r2) as [[ep r3] |] eqn:He; [| discriminate].
  apply scan_exp_length in He.
  intros [= _ <-]. lia.
Qed.

Lemma prefix_drop (w s : string) :
  String.prefix w s = true ->
  (String.length (drop (String.length w) s) + String.length w
   = String.length s)%nat.
Proof.
  revert s. induction w as [| a w IH]; intros s H.
  - cbn [String.length drop]. lia.
  - destruct s as [| b s]; [discriminate H |].
    cbn [String.prefix] in H. destruct (ascii_dec a b); [| discriminate H].
    cbn [String.length drop]. specialize (IH s H). lia.
Qed.

Lemma scan_word_length (w : string) (j v : json) (s r : string) :
  w <> "" -> scan_word w j s = Ok v r ->
  (String.length r < String.length s)%nat.
Proof.
  intros Hw. unfold scan_word.
  destruct (String.prefix w s) eqn:Hp; [| discriminate].
  intros [= _ <-]. apply prefix_drop in Hp.
  destruct w; [contradiction |]. cbn [String.length] in *. lia.
Qed.

(** What is left after a value is shorter than the stream. *)
Lemma scan_length (n : nat) :
  (forall s v r, scan_value n s = Ok v r ->
                 (String.length r < String.length s)%nat) /\
  (forall s m r, scan_members n s = Ok m r ->
                 (String.length r < String.length s)%nat) /\
  (forall s l r, scan_elements n s = Ok l r ->
                 (String.length r < String.length s)%nat).
Proof.
  induction n as [| n (IHv & IHm & IHe)].
  { repeat split; intros; discriminate. }
  repeat split.
  - intros s v r. cbn [scan_value].
    pose proof (skip_space_length s) as Hs.
    destruct (skip_space s) as [| c t]; [discriminate |].
    cbn [String.length] in Hs.
    destruct (Ascii.eqb c "{").
    { pose proof (skip_space_length t) as Ht.
      destruct (skip_space t) as [| c' t']; [discriminate |].
      cbn [String.length] in Ht.
      destruct (Ascii.eqb c' "}"); [intros [= _ <-]; lia |].
      destruct (scan_members n (String c' t')) as [m r' | |] eqn:Hm;
        try discriminate.
      apply IHm in Hm. cbn [String.length] in Hm. intros [= _ <-]. lia. }
    destruct (Ascii.eqb c "[").
    { pose proof (skip_space_length t) as Ht.
      destruct (skip_space t) as [| c' t']; [discriminate |].
      cbn [String.length] in Ht.
      destruct (Ascii.eqb c' "]"); [intros [= _ <-]; lia |].
      destruct (scan_elements n (String c' t')) as [l r' | |] eqn:Hl;
        try discriminate.
      apply IHe in Hl. cbn [String.length] in Hl. intros [= _ <-]. lia. }
    destruct (Ascii.eqb c dquote).
    { destruct (unquote_from 0 t) as [[u r'] |] eqn:Hu; [| discriminate].
      apply unquote_from_length in Hu. intros [= _ <-]. lia. }
    destruct (Ascii.eqb c "-" || is_digit c).
    { destruct (scan_number (String c t)) as [[lit r'] |] eqn:Hn;
        [| discriminate].
      apply scan_number_length in Hn. cbn [String.length] in Hn.
      intros [= _ <-]. lia. }
    destruct (Ascii.eqb c "t").
    { intros H. apply scan_word_length in H; [| discriminate].
      cbn [String.length] in H. lia. }
    destruct (Ascii.eqb c "f").
    { intros H. apply scan_word_length in H; [| discriminate].
      cbn [String.length] in H. lia. }
    destruct (Ascii.eqb c "n"); [| discriminate].
    intros H. apply scan_word_length in H; [| discriminate].
    cbn [String.length] in H. lia.
  - intros s m r. cbn [scan_members].
    destruct s as [| c t]; [discriminate |]. cbn [String.length].
    destruct (negb (Ascii.eqb c dquote)); [discriminate |].
    destruct (unquote_from 0 t) as [[key r1] |] eqn:Hu; [| discriminate].
    apply unquote_from_length in Hu.
    pose proof (skip_space_length r1) as H1.
    destruct (skip_space r1) as [| c2 t2]; [discriminate |].
    cbn [String.length] in H1.
    destruct (negb (Ascii.eqb c2 ":")); [discriminate |].
    destruct (scan_value n t2) as [v r2 | |] eqn:Hv; try discriminate.
    apply IHv in Hv.
    pose proof (skip_space_length r2) as H2.
    destruct (skip_space r2) as [| c3 t3]; [discriminate |].
    cbn [String.length] in H2.
    destruct (Ascii.eqb c3 "}"); [intros [= _ <-]; lia |].
    destruct (Ascii.eqb c3 ","); [| discriminate].
    pose proof (skip_space_length t3) as H3.
    destruct (scan_members n (skip_space t3)) as [m' r' | |] eqn:Hm;
      try discriminate.
    apply IHm in Hm. intros [= _ <-]. lia.
  - intros s l r. cbn [scan_elements].
    destruct (scan_value n s) as [v r1 | |] eqn:Hv; try discriminate.
    apply IHv in Hv.
    pose proof (skip_space_length r1) as H1.
    destruct (skip_space r1) as [| c t]; [discriminate |].
    cbn [String.length] in H1.
    destruct (Ascii.eqb c "]"); [intros [= _ <-]; lia |].
    destruct (Ascii.eqb c ","); [| discriminate].
    destruct (scan_elements n t) as [l' r' | |] eqn:Hl; try discriminate.
    apply IHe in Hl. intros [= _ <-]. lia.
Qed.

(** The fuel of [read_value] is never used up. *)
Lemma scan_fuel (n : nat) :
  (forall s, (2 * String.length s < n)%nat -> scan_value n s <> OutOfFuel) /\
  (forall s, (2 * String.length s + 1 < n)%nat ->
             scan_members n s <> OutOfFuel) /\
  (forall s, (2 * String.length s + 1 < n)%nat ->
             scan_elements n s <> OutOfFuel).
Proof.
  induction n as [| n (IHv & IHm & IHe)].
  { repeat split; intros; lia. }
  repeat split.
  - intros s Hn. cbn [scan_value].
    pose proof (skip_space_length s) as Hs.
    destruct (skip_space s) as [| c t]; [discriminate |].
    cbn [String.length] in Hs.
    destruct (Ascii.eqb c "{").
    { pose proof (skip_space_length t) as Ht.
      destruct (skip_space t) as [| c' t']; [discriminate |].
      destruct (Ascii.eqb c' "}"); [discriminate |].
      specialize (IHm (String c' t')).
      destruct (scan_members n (String c' t')); try discriminate.
      intros _. apply IHm; [lia | reflexivity]. }
    destruct (Ascii.eqb c "[").
    { pose proof (skip_space_length t) as Ht.
      destruct (skip_space t) as [| c' t']; [discriminate |].
      destruct (Ascii.eqb c' "]"); [discriminate |].
      specialize (IHe (String c' t')).
      destruct (scan_elements n (String c' t')); try discriminate.
      intros _. apply IHe; [lia | reflexivity]. }
    destruct (Ascii.eqb c dquote).
    { destruct (unquote_from 0 t) as [[u r'] |]; discriminate. }
    destruct (Ascii.eqb c "-" || is_digit c).
    { destruct (scan_number (String c t)) as [[lit r'] |]; discriminate. }
    unfold scan_word.
    destruct (Ascii.eqb c "t");
      [destruct (String.prefix "true" (String c t)); discriminate |].
    destruct (Ascii.eqb c "f");
      [destruct (String.prefix "false" (String c t)); discriminate |].
    destruct (Ascii.eqb c "n");
      [destruct (String.prefix "null" (String c t)); discriminate |].
    discriminate.
  - intros s Hn. cbn [scan_members].
    destruct s as [| c t]; [discriminate |]. cbn [String.length] in Hn.
    destruct (negb (Ascii.eqb c dquote)); [discriminate |].
    destruct (unquote_from 0 t) as [[key r1] |] eqn:Hu; [| discriminate].
    apply unquote_from_length in Hu.
    pose proof (skip_space_length r1) as H1.
    destruct (skip_space r1) as [| c2 t2]; [discriminate |].
    cbn [String.length] in H1.
    destruct (negb (Ascii.eqb c2 ":")); [discriminate |].
    specialize (IHv t2).
    destruct (scan_value n t2) as [v r2 | |] eqn:Hv;
      [| discriminate | intros _; apply IHv; [lia | reflexivity]].
    apply (proj1 (scan_length n)) in Hv.
    pose proof (skip_space_length r2) as H2.
    destruct (skip_space r2) as [| c3 t3]; [discriminate |].
    cbn [String.length] in H2.
    destruct (Ascii.eqb c3 "}"); [discriminate |].
    destruct (Ascii.eqb c3 ","); [| discriminate].
    pose proof (skip_space_length t3) as H3.
    specialize (IHm (skip_space t3)).
    destruct (scan_members n (skip_space t3)); try discriminate.
    apply IHm. lia.
  - intros s Hn. cbn [scan_elements].
    specialize (IHv s).
    destruct (scan_value n s) as [v r1 | |] eqn:Hv;
      [| discriminate | intros _; apply IHv; [lia | reflexivity]].
    apply (proj1 (scan_length n)) in Hv.
    pose proof (skip_space_length r1) as H1.
    destruct (skip_space r1) as [| c t]; [discriminate |].
    cbn [String.length] in H1.
    destruct (Ascii.eqb c "]"); [discriminate |].
    destruct (Ascii.eqb c ","); [| discriminate].
    specialize (IHe t).
    destruct (scan_elements n t); try discriminate.
    apply IHe. lia.
Qed.

Lemma read_value_fuel (data : string) : read_value data <> OutOfFuel.
Proof. apply (proj1 (scan_fuel _)). lia. Qed.

(** ** Type errors and the Path *)

Lemma store_spec (f : Field) (v : json) (us : UploadSession) :
  snd (store f v us) = type_error f v /\
  Path (fst (store f v us)) = Path us.
Proof.
  destruct f, v; cbn [store store_string store_int64 type_error kind_string
                      negb fst snd]; try (split; reflexivity);
    destruct (ParseInt64 lit); split; reflexivity.
Qed.

Lemma object_into_spec (m : list (string * json)) :
  forall us,
    snd (object_into m us) = existsb member_error m /\
    Path (fst (object_into m us)) = Path us.
Proof.
  induction m as [| [key v] m IH]; intros us; [split; reflexivity |].
  cbn [object_into existsb]. unfold member_error at 1. cbn [fst snd].
  destruct (find_field key) as [f |].
  - destruct (store_spec f v us) as [H1 H2].
    destruct (store f v us) as [us1 e1]. cbn [fst snd] in *.
    destruct (IH us1) as [H3 H4].
    destruct (object_into m us1) as [us2 e2]. cbn [fst snd] in *.
    rewrite H1, H3, H4, H2. split; reflexivity.
  - destruct (IH us) as [H3 H4].
    destruct (object_into m us) as [us2 e2]. cbn [fst snd] in *.
    rewrite H3, H4. split; reflexivity.
Qed.

Lemma elements_spec (l : list json) :
  snd (elements l) = existsb element_error l /\
  forall us, In (Some us) (fst (elements l)) -> Path us = "".
Proof.
  induction l as [| v l [IH1 IH2]]; [split; [reflexivity | intros us []] |].
  cbn [elements existsb].
  assert (Hv : snd (element v) = element_error v /\
               forall us, fst (element v) = Some us -> Path us = "").
  { destruct v; cbn [element element_error fst snd];
      try (split; [reflexivity | intros us; discriminate]).
    destruct (object_into_spec l0 zero_session) as [H1 H2].
    destruct (object_into l0 zero_session) as [us' e]. cbn [fst snd] in *.
    split; [exact H1 |]. intros us [= <-]. exact H2. }
  destruct Hv as [Hv1 Hv2].
  destruct (element v) as [p e1]. destruct (elements l) as [ps e2].
  cbn [fst snd] in *. rewrite Hv1, IH1. split; [reflexivity |].
  intros us [H | H]; [apply Hv2; exact H | apply IH2; exact H].
Qed.

(** What the two decoders return, by the first value of the stream. *)
Lemma UploadSessionFromJson_spec (data : string) :
  UploadSessionFromJson data =
  match read_value data with
  | Ok (JObject m) _ =>
    if existsb member_error m then None
    else Some (fst (object_into m zero_session))
  | Ok JNull _ => Some zero_session
  | _ => None
  end.
Proof.
  unfold UploadSessionFromJson, Decode.
  destruct (read_value data) as [v r | |]; try reflexivity.
  destruct v; try reflexivity.
  destruct (object_into_spec l zero_session) as [H _].
  destruct (object_into l zero_session) as [us e]. cbn [fst snd] in *.
  rewrite H. reflexivity.
Qed.

Lemma UploadSessionsFromJson_spec (data : string) :
  UploadSessionsFromJson data =
  match read_value data with
  | Ok (JArray l) _ =>
    if existsb element_error l then None else Some (fst (elements l))
  | _ => None
  end.
Proof.
  unfold UploadSessionsFromJson, DecodeList.
  destruct (read_value data) as [v r | |]; try reflexivity.
  destruct v; try reflexivity.
  destruct (elements_spec l) as [H _].
  destruct (elements l) as [ps e]. cbn [fst snd] in *.
  rewrite H. reflexivity.
Qed.

(** A decoded session has no Path, so it is never valid as decoded. *)
Lemma FromJson_Path (data : string) (us : UploadSession) :
  UploadSessionFromJson data = Some us -> Path us = "".
Proof.
  rewrite UploadSessionFromJson_spec.
  destruct (read_value data) as [v r | |]; try discriminate.
  destruct v; try discriminate.
  - intros [= <-]. reflexivity.
  - destruct (existsb member_error l); [discriminate |].
    intros [= <-]. apply object_into_spec.
Qed.

Lemma empty_Path_invalid (IsValidId : string -> bool) (us : UploadSession) :
  Path us = "" -> IsValid IsValidId us <> None.
Proof.
  intros Hp Hv. apply IsValid_None_invariants in Hv.
  destruct Hv as (_ & _ & _ & _ & _ & _ & _ & _ & H). contradiction.
Qed.

(** ** A value is read the same whatever follows it *)

Lemma skip_space_ext (s q : string) (c : ascii) (t : string) :
  skip_space s = String c t -> skip_space (s ++ q) = String c (t ++ q).
Proof.
  induction s as [| a s IH]; [discriminate |].
  cbn [skip_space append].
  destruct (isSpace a) eqn:Ha; [exact IH |].
  intros [= -> ->]. reflexivity.
Qed.

Lemma unquote_all_high :
  forall s (k : nat), all_high s -> unquote_from k s = None.
Proof.
  induction s as [| c t IH]; intros k H; [reflexivity |].
  destruct H as [Hc Ht]. destruct k as [| k]; [| apply IH; exact Ht].
  rewrite unquote_from_high by exact Hc.
  destruct (DecodeRune (String c t)) as [rr size].
  rewrite IH by exact Ht. reflexivity.
Qed.

Lemma range_high (a lo hi : N) (sz : nat) (b : N) :
  first a = Some (sz, (lo, hi)) -> (lo <= b <= hi)%N -> (RuneSelf <= b)%N.
Proof.
  intros Hf Hb. apply first_Some in Hf. unfold RuneSelf. lia.
Qed.

Lemma cont_high (b : N) : is_cont b = true -> (RuneSelf <= b)%N.
Proof. intros H. apply is_cont_range in H. unfold RuneSelf. lia. Qed.

(** [DecodeRune] in a literal that is closed sees the same bytes when
    the stream goes on. *)
Lemma DecodeRune_ext (c : ascii) (t q : string) (rr : N) (size : nat) v r :
  (RuneSelf <= byte c)%N ->
  DecodeRune (String c t) = (rr, size) ->
  unquote_from (size - 1) t = Some (v, r) ->
  DecodeRune (String c (t ++ q)) = (rr, size).
Proof.
  intros Hc Hd Hu.
  destruct (DecodeRune_cases c t Hc)
    as [Hi | c1 t' lo hi -> Hf Hr | c1 c2 t' lo hi -> Hf Hr H2
        | c1 c2 c3 t' lo hi -> Hf Hr H2 H3].
  - rewrite Hi in Hd. injection Hd as <- <-. cbn [Nat.sub] in Hu.
    destruct (DecodeRune_cases c (t ++ q) Hc)
      as [Hi' | c1 t' lo hi E Hf Hr | c1 c2 t' lo hi E Hf Hr H2
          | c1 c2 c3 t' lo hi E Hf Hr H2 H3].
    + exact Hi'.
    + exfalso. destruct t as [| a t1]; [discriminate Hu |].
      injection E as -> E.
      rewrite (DecodeRune_2 _ _ _ _ _ Hf Hr) in Hi. discriminate Hi.
    + exfalso. pose proof (range_high _ _ _ _ _ Hf Hr) as Hh1.
      destruct t as [| a t1]; [discriminate Hu |]. injection E as -> E.
      destruct t1 as [| a2 t2].
      { rewrite unquote_all_high in Hu; [discriminate Hu |].
        cbn [all_high]. auto. }
      injection E as -> E.
      rewrite (DecodeRune_3 _ _ _ _ _ _ Hf Hr H2) in Hi. discriminate Hi.
    + exfalso. pose proof (range_high _ _ _ _ _ Hf Hr) as Hh1.
      pose proof (cont_high _ H2) as Hh2.
      destruct t as [| a t1]; [discriminate Hu |]. injection E as -> E.
      destruct t1 as [| a2 t2].
      { rewrite unquote_all_high in Hu; [discriminate Hu |].
        cbn [all_high]. auto. }
      injection E as -> E.
      destruct t2 as [| a3 t3].
      { rewrite unquote_all_high in Hu; [discriminate Hu |].
        cbn [all_high]. auto. }
      injection E as -> E.
      rewrite (DecodeRune_4 _ _ _ _ _ _ _ Hf Hr H2 H3) in Hi.
      discriminate Hi.
  - cbn [append]. rewrite (DecodeRune_2 _ _ t' _ _ Hf Hr) in Hd.
    rewrite (DecodeRune_2 _ _ (t' ++ q) _ _ Hf Hr). exact Hd.
  - cbn [append]. rewrite (DecodeRune_3 _ _ _ t' _ _ Hf Hr H2) in Hd.
    rewrite (DecodeRune_3 _ _ _ (t' ++ q) _ _ Hf Hr H2). exact Hd.
  - cbn [append]. rewrite (DecodeRune_4 _ _ _ _ t' _ _ Hf Hr H2 H3) in Hd.
    rewrite (DecodeRune_4 _ _ _ _ (t' ++ q) _ _ Hf Hr H2 H3). exact Hd.
Qed.

Lemma getu4_ext (s q : string) (x : N) :
  getu4 s = Some x -> getu4 (s ++ q) = Some x.
Proof.
  destruct s as [| c0 [| c1 [| h1 [| h2 [| h3 [| h4 s]]]]]]; try discriminate.
  intros H. exact H.
Qed.

Lemma getu4_length (s : string) (x : N) :
  getu4 s = Some x ->
  exists c0 c1 h1 h2 h3 h4 s',
    s = String c0 (String c1 (String h1 (String h2 (String h3 (String h4 s'))))).
Proof.
  destruct s as [| c0 [| c1 [| h1 [| h2 [| h3 [| h4 s]]]]]]; try discriminate.
  intros _. do 7 eexists. reflexivity.
Qed.

Lemma getu4_not_u (c0 c1 : ascii) (s : string) :
  Ascii.eqb c0 bslash && Ascii.eqb c1 "u" = false ->
  getu4 (String c0 (String c1 s)) = None.
Proof.
  intros H. destruct s as [| h1 [| h2 [| h3 [| h4 s]]]]; try reflexivity.
  cbn [getu4]. rewrite H. reflexivity.
Qed.

Lemma getu4_not_bslash (c0 : ascii) (s : string) :
  Ascii.eqb c0 bslash = false -> getu4 (String c0 s) = None.
Proof.
  intros H. destruct s as [| c1 s]; [reflexivity |].
  apply getu4_not_u. rewrite H. reflexivity.
Qed.

(** A second [\u] that is missing in a closed literal is missing
    whatever follows. *)
Lemma getu4_None_ext (x q : string) v r :
  getu4 x = None -> unquote_from 0 x = Some (v, r) ->
  getu4 (x ++ q) = None.
Proof.
  intros Hg Hu.
  destruct x as [| c0 x]; [discriminate Hu |]. cbn [append].
  destruct (Ascii.eqb c0 bslash) eqn:Hb; [| apply getu4_not_bslash, Hb].
  apply Ascii.eqb_eq in Hb. subst c0.
  cbn [unquote_from] in Hu.
  change (Ascii.eqb bslash dquote) with false in Hu.
  change (Ascii.eqb bslash bslash) with true in Hu. cbn iota in Hu.
  destruct x as [| e x]; [discriminate Hu |]. cbn [append].
  destruct (Ascii.eqb e "u") eqn:He.
  - exfalso. apply Ascii.eqb_eq in He. subst e.
    unfold unescape in Hu.
    change (Ascii.eqb "u" dquote) with false in Hu.
    change (Ascii.eqb "u" bslash) with false in Hu.
    change (Ascii.eqb "u" "/") with false in Hu.
    change (Ascii.eqb "u" "b") with false in Hu.
    change (Ascii.eqb "u" "f") with false in Hu.
    change (Ascii.eqb "u" "n") with false in Hu.
    change (Ascii.eqb "u" "r") with false in Hu.
    change (Ascii.eqb "u" "t") with false in Hu.
    change (Ascii.eqb "u" "u") with true in Hu.
    cbn [orb] in Hu. cbn iota in Hu.
    rewrite Hg in Hu. discriminate Hu.
  - apply getu4_not_u. rewrite He. apply andb_false_r.
Qed.

Lemma drop_append (n : nat) (s q : string) :
  (n <= String.length s)%nat -> drop n (s ++ q) = drop n s ++ q.
Proof.
  revert s. induction n as [| n IH]; intros s H; [reflexivity |].
  destruct s as [| c s]; [cbn [String.length] in H; lia |].
  cbn [drop append]. apply IH. cbn [String.length] in H. lia.
Qed.

Lemma unquote_from_drop :
  forall (n : nat) (s : string),
    (n <= String.length s)%nat ->
    unquote_from n s = unquote_from 0 (drop n s).
Proof.
  induction n as [| n IH]; intros s H; [reflexivity |].
  destruct s as [| c s]; [cbn [String.length] in H; lia |].
  cbn [unquote_from drop]. apply IH. cbn [String.length] in H. lia.
Qed.

(** An escape in a closed literal is read the same whatever follows. *)
Lemma unescape_ext (s q out : string) (n : nat) v r :
  unescape s = Some (out, n) ->
  unquote_from n (drop 1 s) = Some (v, r) ->
  unescape (s ++ q) = Some (out, n).
Proof.
  intros He Hu.
  destruct s as [| c s]; [discriminate He |].
  destruct s as [| e s]; [discriminate He |].
  cbn [append]. unfold unescape in *.
  destruct (Ascii.eqb e dquote || Ascii.eqb e bslash || Ascii.eqb e "/");
    [exact He |].
  destruct (Ascii.eqb e "b"); [exact He |].
  destruct (Ascii.eqb e "f"); [exact He |].
  destruct (Ascii.eqb e "n"); [exact He |].
  destruct (Ascii.eqb e "r"); [exact He |].
  destruct (Ascii.eqb e "t"); [exact He |].
  destruct (Ascii.eqb e "u"); [| exact He].
  destruct (getu4 (String c (String e s))) as [rr |] eqn:Hg;
    [| discriminate He].
  change (String c (String e (s ++ q))) with (String c (String e s) ++ q).
  rewrite (getu4_ext _ q _ Hg).
  destruct (IsSurrogate rr); [| exact He].
  destruct (getu4_length _ _ Hg) as (c0 & c1 & h1 & h2 & h3 & h4 & s' & E).
  injection E as Ec Ee Es. subst c0 c1 s.
  change (drop 6 (String c (String e
            (String h1 (String h2 (String h3 (String h4 s'))))) ++ q))
    with (s' ++ q).
  change (drop 6 (String c (String e
            (String h1 (String h2 (String h3 (String h4 s')))))))
    with s' in He.
  destruct (getu4 s') as [rr1 |] eqn:Hg1.
  - rewrite (getu4_ext _ q _ Hg1). exact He.
  - injection He as <- <-.
    change (unquote_from 5 (drop 1 (String c (String e
              (String h1 (String h2 (String h3 (String h4 s'))))))))
      with (unquote_from 0 s') in Hu.
    rewrite (getu4_None_ext _ q _ _ Hg1 Hu). reflexivity.
Qed.

(** A closed string literal is unquoted the same whatever follows. *)
Lemma unquote_ext :
  forall (s : string) (k : nat) (q v r : string),
    unquote_from k s = Some (v, r) ->
    unquote_from k (s ++ q) = Some (v, r ++ q).
Proof.
  induction s as [| c t IH]; intros k q v r H; [discriminate H |].
  cbn [append]. destruct k as [| k]; [| apply IH; exact H].
  cbn [unquote_from] in H |- *.
  destruct (Ascii.eqb c dquote).
  { injection H as <- <-. reflexivity. }
  destruct (Ascii.eqb c bslash).
  { destruct (unescape (String c t)) as [[out n] |] eqn:He;
      [| discriminate H].
    destruct (unquote_from n t) as [[v' r'] |] eqn:Hu; [| discriminate H].
    cbn [prepend] in H. injection H as <- <-.
    change (String c (t ++ q)) with (String c t ++ q).
    rewrite (unescape_ext _ q _ _ _ _ He Hu).
    rewrite (IH _ q _ _ Hu). reflexivity. }
  destruct (N.ltb_spec (byte c) 0x20); [discriminate H |].
  destruct (N.ltb_spec (byte c) RuneSelf) as [Hlt | Hge].
  { destruct (unquote_from 0 t) as [[v' r'] |] eqn:Hu; [| discriminate H].
    cbn [prepend] in H. injection H as <- <-.
    rewrite (IH _ q _ _ Hu). reflexivity. }
  destruct (DecodeRune (String c t)) as [rr size] eqn:Hd.
  destruct (unquote_from (size - 1) t) as [[v' r'] |] eqn:Hu;
    [| discriminate H].
  cbn [prepend] in H. injection H as <- <-.
  rewrite (DecodeRune_ext _ _ q _ _ _ _ Hge Hd Hu).
  rewrite (IH _ q _ _ Hu). reflexivity.
Qed.

Lemma span_digits_ext (s q d : string) (c : ascii) (r : string) :
  span_digits s = (d, String c r) ->
  span_digits (s ++ q) = (d, String c r ++ q).
Proof.
  revert d. induction s as [| a s IH]; intros d; [discriminate |].
  cbn [span_digits append].
  destruct (is_digit a).
  - destruct (span_digits s) as [d' r'] eqn:E. intros [= <- ->].
    rewrite (IH d' eq_refl). reflexivity.
  - intros [= <- -> ->]. reflexivity.
Qed.

Lemma scan_int_ext (s q i : string) (c : ascii) (r : string) :
  scan_int s = Some (i, String c r) ->
  scan_int (s ++ q) = Some (i, String c r ++ q).
Proof.
  destruct s as [| a s]; [discriminate |]. unfold scan_int. cbn [append].
  destruct (Ascii.eqb a "0"); [intros [= <- ->]; reflexivity |].
  destruct (is_digit a); [| discriminate].
  destruct (span_digits s) as [d r'] eqn:E. intros [= <- ->].
  rewrite (span_digits_ext _ q _ _ _ E). reflexivity.
Qed.

Lemma scan_frac_ext (s q f : string) (c : ascii) (r : string) :
  scan_frac s = Some (f, String c r) ->
  scan_frac (s ++ q) = Some (f, String c r ++ q).
Proof.
  destruct s as [| a s]; [discriminate |]. unfold scan_frac. cbn [append].
  destruct (Ascii.eqb a ".").
  - destruct (span_digits s) as [d r'] eqn:E.
    destruct d as [| d0 d]; [discriminate |]. intros [= <- ->].
    rewrite (span_digits_ext _ q _ _ _ E). reflexivity.
  - intros [= <- <- <-]. reflexivity.
Qed.

Lemma scan_exp_ext (s q e : string) (c : ascii) (r : string) :
  scan_exp s = Some (e, String c r) ->
  scan_exp (s ++ q) = Some (e, String c r ++ q).
Proof.
  destruct s as [| a s]; [discriminate |]. unfold scan_exp. cbn [append].
  destruct (Ascii.eqb a "e" || Ascii.eqb a "E").
  - destruct s as [| b s].
    { cbn [scan_exp_sign span_digits]. discriminate. }
    unfold scan_exp_sign. cbn [append].
    destruct (Ascii.eqb b "+" || Ascii.eqb b "-").
    + destruct (span_digits s) as [d r'] eqn:E.
      destruct d as [| d0 d]; [discriminate |]. intros [= <- ->].
      rewrite (span_digits_ext _ q _ _ _ E). reflexivity.
    + destruct (span_digits (String b s)) as [d r'] eqn:E.
      destruct d as [| d0 d]; [discriminate |]. intros [= <- ->].
      change (String b (s ++ q)) with (String b s ++ q).
      rewrite (span_digits_ext _ q _ _ _ E). reflexivity.
  - intros [= <- <- <-]. reflexivity.
Qed.

Lemma nonempty_length (s : string) :
  (0 < String.length s)%nat -> exists c t, s = String c t.
Proof. destruct s; [simpl; lia | eauto]. Qed.

(** A number that something follows is read the same whatever follows
    that. *)
Lemma scan_number_ext (s q lit : string) (c : ascii) (r : string) :
  scan_number s = Some (lit, String c r) ->
  scan_number (s ++ q) = Some (lit, String c r ++ q).
Proof.
  unfold scan_number.
  assert (Hs : scan_sign (s ++ q)
               = (fst (scan_sign s), snd (scan_sign s) ++ q)
               \/ s = "").
  { destruct s as [| a s]; [right; reflexivity | left].
    unfold scan_sign. cbn [append]. destruct (Ascii.eqb a "-"); reflexivity. }
  destruct Hs as [Hs | ->]; [| discriminate].
  rewrite Hs. destruct (scan_sign s) as [sign s1]. cbn [fst snd].
  destruct (scan_int s1) as [[ip r1] |] eqn:Hi; [| discriminate].
  destruct (scan_frac r1) as [[fp r2] |] eqn:Hf; [| discriminate].
  destruct (scan_exp r2) as [[ep r3] |] eqn:He; [| discriminate].
  intros [= <- ->].
  pose proof (scan_exp_length _ _ _ He) as L3.
  pose proof (scan_frac_length _ _ _ Hf) as L2.
  cbn [String.length] in L3.
  destruct (nonempty_length r2 ltac:(lia)) as (c2 & t2 & ->).
  destruct (nonempty_length r1 ltac:(cbn [String.length] in L2; lia))
    as (c1 & t1 & ->).
  rewrite (scan_int_ext _ q _ _ _ Hi), (scan_frac_ext _ q _ _ _ Hf),
    (scan_exp_ext _ q _ _ _ He).
  reflexivity.
Qed.

Lemma prefix_append (w s q : string) :
  String.prefix w s = true -> String.prefix w (s ++ q) = true.
Proof.
  revert s. induction w as [| a w IH]; intros s H;
    [destruct (s ++ q); reflexivity |].
  destruct s as [| b s]; [discriminate H |].
  cbn [String.prefix append] in *.
  destruct (ascii_dec a b); [apply IH; exact H | discriminate H].
Qed.

Lemma scan_word_ext (w : string) (j v : json) (s q r : string) :
  scan_word w j s = Ok v r -> scan_word w j (s ++ q) = Ok v (r ++ q).
Proof.
  unfold scan_word.
  destruct (String.prefix w s) eqn:Hp; [| discriminate].
  intros [= <- <-]. rewrite (prefix_append _ _ q Hp).
  rewrite drop_append; [reflexivity |].
  apply prefix_drop in Hp. lia.
Qed.

(** A value is read the same whatever follows it, except that a number at
    the very end of the stream may go on. *)
Lemma scan_ext (n : nat) :
  (forall s q v r, scan_value n s = Ok v r -> r <> "" \/ not_number v ->
                   scan_value n (s ++ q) = Ok v (r ++ q)) /\
  (forall s q m r, scan_members n s = Ok m r ->
                   scan_members n (s ++ q) = Ok m (r ++ q)) /\
  (forall s q l r, scan_elements n s = Ok l r ->
                   scan_elements n (s ++ q) = Ok l (r ++ q)).
Proof.
  induction n as [| n (IHv & IHm & IHe)].
  { repeat split; intros; discriminate. }
  repeat split.
  - intros s q v r. cbn [scan_value].
    destruct (skip_space s) as [| c t] eqn:Hs; [discriminate |].
    rewrite (skip_space_ext _ q _ _ Hs).
    destruct (Ascii.eqb c "{").
    { destruct (skip_space t) as [| c' t'] eqn:Ht; [discriminate |].
      rewrite (skip_space_ext _ q _ _ Ht).
      destruct (Ascii.eqb c' "}"); [intros [= <- <-] _; reflexivity |].
      destruct (scan_members n (String c' t')) as [m r' | |] eqn:Hm;
        try discriminate.
      intros [= <- <-] _.
      change (String c' (t' ++ q)) with (String c' t' ++ q).
      rewrite (IHm _ q _ _ Hm). reflexivity. }
    destruct (Ascii.eqb c "[").
    { destruct (skip_space t) as [| c' t'] eqn:Ht; [discriminate |].
      rewrite (skip_space_ext _ q _ _ Ht).
      destruct (Ascii.eqb c' "]"); [intros [= <- <-] _; reflexivity |].
      destruct (scan_elements n (String c' t')) as [l r' | |] eqn:Hl;
        try discriminate.
      intros [= <- <-] _.
      change (String c' (t' ++ q)) with (String c' t' ++ q).
      rewrite (IHe _ q _ _ Hl). reflexivity. }
    destruct (Ascii.eqb c dquote).
    { destruct (unquote_from 0 t) as [[u r'] |] eqn:Hu; [| discriminate].
      intros [= <- <-] _. rewrite (unquote_ext _ _ q _ _ Hu). reflexivity. }
    destruct (Ascii.eqb c "-" || is_digit c).
    { destruct (scan_number (String c t)) as [[lit r'] |] eqn:Hn;
        [| discriminate].
      intros [= <- <-] [Hr | []].
      destruct r' as [| c' r']; [contradiction |].
      change (String c (t ++ q)) with (String c t ++ q).
      rewrite (scan_number_ext _ q _ _ _ Hn). reflexivity. }
    change (String c (t ++ q)) with (String c t ++ q).
    destruct (Ascii.eqb c "t"); [intros H _; apply scan_word_ext, H |].
    destruct (Ascii.eqb c "f"); [intros H _; apply scan_word_ext, H |].
    destruct (Ascii.eqb c "n"); [intros H _; apply scan_word_ext, H |].
    discriminate.
  - intros s q m r. cbn [scan_members].
    destruct s as [| c t]; [discriminate |]. cbn [append].
    destruct (negb (Ascii.eqb c dquote)); [discriminate |].
    destruct (unquote_from 0 t) as [[key r1] |] eqn:Hu; [| discriminate].
    rewrite (unquote_ext _ _ q _ _ Hu).
    destruct (skip_space r1) as [| c2 t2] eqn:H1; [discriminate |].
    rewrite (skip_space_ext _ q _ _ H1).
    destruct (negb (Ascii.eqb c2 ":")); [discriminate |].
    destruct (scan_value n t2) as [v r2 | |] eqn:Hv; try discriminate.
    destruct (skip_space r2) as [| c3 t3] eqn:H2; [discriminate |].
    assert (Hr2 : r2 <> "") by (intros ->; discriminate H2).
    rewrite (IHv _ q _ _ Hv (or_introl Hr2)).
    rewrite (skip_space_ext _ q _ _ H2).
    destruct (Ascii.eqb c3 "}"); [intros [= <- <-]; reflexivity |].
    destruct (Ascii.eqb c3 ","); [| discriminate].
    destruct (scan_members n (skip_space t3)) as [m' r' | |] eqn:Hm;
      try discriminate.
    intros [= <- <-].
    destruct (skip_space t3) as [| c4 t4] eqn:H3.
    { destruct n; discriminate Hm. }
    rewrite (skip_space_ext _ q _ _ H3).
    change (String c4 (t4 ++ q)) with (String c4 t4 ++ q).
    rewrite (IHm _ q _ _ Hm). reflexivity.
  - intros s q l r. cbn [scan_elements].
    destruct (scan_value n s) as [v r1 | |] eqn:Hv; try discriminate.
    destruct (skip_space r1) as [| c t] eqn:H1; [discriminate |].
    assert (Hr1 : r1 <> "") by (intros ->; discriminate H1).
    rewrite (IHv _ q _ _ Hv (or_introl Hr1)).
    rewrite (skip_space_ext _ q _ _ H1).
    destruct (Ascii.eqb c "]"); [intros [= <- <-]; reflexivity |].
    destruct (Ascii.eqb c ","); [| discriminate].
    destruct (scan_elements n t) as [l' r' | |] eqn:Hl; try discriminate.
    intros [= <- <-]. rewrite (IHe _ q _ _ Hl). reflexivity.
Qed.

(** More fuel reads the same value. *)
Lemma scan_more_fuel (n : nat) :
  (forall s v r, scan_value n s = Ok v r -> scan_value (S n) s = Ok v r) /\
  (forall s m r, scan_members n s = Ok m r ->
                 scan_members (S n) s = Ok m r) /\
  (forall s l r, scan_elements n s = Ok l r ->
                 scan_elements (S n) s = Ok l r).
Proof.
  induction n as [| n (IHv & IHm & IHe)].
  { repeat split; intros; discriminate. }
  repeat split.
  - intros s v r H.
    assert (G : forall n', n' = S n -> scan_value (S n') s = Ok v r);
      [| apply G; reflexivity].
    intros n' En. cbn [scan_value] in H |- *. revert H.
    destruct (skip_space s) as [| c t]; [discriminate |].
    destruct (Ascii.eqb c "{").
    { destruct (skip_space t) as [| c' t']; [discriminate |].
      destruct (Ascii.eqb c' "}"); [intros H; exact H |].
      destruct (scan_members n (String c' t')) as [m r' | |] eqn:Hm;
        try discriminate.
      rewrite En, (IHm _ _ _ Hm). intros H; exact H. }
    destruct (Ascii.eqb c "[").
    { destruct (skip_space t) as [| c' t']; [discriminate |].
      destruct (Ascii.eqb c' "]"); [intros H; exact H |].
      destruct (scan_elements n (String c' t')) as [l r' | |] eqn:Hl;
        try discriminate.
      rewrite En, (IHe _ _ _ Hl). intros H; exact H. }
    intros H; exact H.
  - intros s m r H.
    assert (G : forall n', n' = S n -> scan_members (S n') s = Ok m r);
      [| apply G; reflexivity].
    intros n' En. cbn [scan_members] in H |- *. revert H.
    destruct s as [| c t]; [discriminate |].
    destruct (negb (Ascii.eqb c dquote)); [discriminate |].
    destruct (unquote_from 0 t) as [[key r1] |]; [| discriminate].
    destruct (skip_space r1) as [| c2 t2]; [discriminate |].
    destruct (negb (Ascii.eqb c2 ":")); [discriminate |].
    destruct (scan_value n t2) as [v r2 | |] eqn:Hv; try discriminate.
    rewrite En, (IHv _ _ _ Hv).
    destruct (skip_space r2) as [| c3 t3]; [discriminate |].
    destruct (Ascii.eqb c3 "}"); [intros H; exact H |].
    destruct (Ascii.eqb c3 ","); [| discriminate].
    destruct (scan_members n (skip_space t3)) as [m' r' | |] eqn:Hm;
      try discriminate.
    rewrite (IHm _ _ _ Hm). intros H; exact H.
  - intros s l r H.
    assert (G : forall n', n' = S n -> scan_elements (S n') s = Ok l r);
      [| apply G; reflexivity].
    intros n' En. cbn [scan_elements] in H |- *. revert H.
    destruct (scan_value n s) as [v r1 | |] eqn:Hv; try discriminate.
    rewrite En, (IHv _ _ _ Hv).
    destruct (skip_space r1) as [| c t]; [discriminate |].
    destruct (Ascii.eqb c "]"); [intros H; exact H |].
    destruct (Ascii.eqb c ","); [| discriminate].
    destruct (scan_elements n t) as [l' r' | |] eqn:Hl; try discriminate.
    rewrite (IHe _ _ _ Hl). intros H; exact H.
Qed.

Lemma scan_value_fuel_le (n m : nat) (s : string) (v : json) (r : string) :
  (n <= m)%nat -> scan_value n s = Ok v r -> scan_value m s = Ok v r.
Proof.
  intros Hle H. induction Hle as [| m Hle IH]; [exact H |].
  apply (proj1 (scan_more_fuel m)). exact IH.
Qed.

(** A stream that holds one value with nothing after it, the value not a
    number, cannot be cut short: no proper prefix of it holds a value. *)
Lemma read_value_prefix (p q : string) (v' : json) :
  read_value (p ++ q) = Ok v' "" -> not_number v' -> q <> "" ->
  read_value p = SyntaxError.
Proof.
  intros Hfull Hv' Hq.
  destruct (read_value p) as [v r | |] eqn:Hp.
  - exfalso. unfold read_value in Hp, Hfull.
    assert (Hkind : r <> "" \/ not_number v).
    { destruct v; try (right; exact I). left. intros ->.
      (* a number at the very end of the prefix: the whole stream then
         starts like a number too *)
      cbn [scan_value] in Hp, Hfull.
      destruct (skip_space p) as [| c t] eqn:Hs; [discriminate Hp |].
      rewrite (skip_space_ext _ q _ _ Hs) in Hfull.
      destruct (Ascii.eqb c "{").
      { destruct (skip_space t) as [| c' t']; [discriminate Hp |].
        destruct (Ascii.eqb c' "}"); [discriminate Hp |].
        destruct (scan_members _ (String c' t')); discriminate Hp. }
      destruct (Ascii.eqb c "[").
      { destruct (skip_space t) as [| c' t']; [discriminate Hp |].
        destruct (Ascii.eqb c' "]"); [discriminate Hp |].
        destruct (scan_elements _ (String c' t')); discriminate Hp. }
      destruct (Ascii.eqb c dquote).
      { destruct (unquote_from 0 t) as [[u r'] |]; discriminate Hp. }
      destruct (Ascii.eqb c "-" || is_digit c).
      { destruct (scan_number (String c (t ++ q))) as [[l' r'] |];
          [| discriminate Hfull].
        injection Hfull as <- _. exact Hv'. }
      unfold scan_word in Hp.
      destruct (Ascii.eqb c "t");
        [destruct (String.prefix "true" (String c t)); discriminate Hp |].
      destruct (Ascii.eqb c "f");
        [destruct (String.prefix "false" (String c t)); discriminate Hp |].
      destruct (Ascii.eqb c "n");
        [destruct (String.prefix "null" (String c t)); discriminate Hp |].
      discriminate Hp. }
    apply (proj1 (scan_ext _) _ q) in Hp; [| exact Hkind].
    apply (scan_value_fuel_le _ (S (2 * String.length (p ++ q)))) in Hp.
    2:{ rewrite length_append. lia. }
    rewrite Hp in Hfull. injection Hfull as _ Hr.
    destruct r; [cbn [append] in Hr; contradiction | discriminate Hr].
  - reflexivity.
  - exfalso. exact (read_value_fuel p Hp).
Qed.

(** A truncated serialization decodes to nil. *)
Lemma truncated_ToJson (us : UploadSession) (p q : string) :
  ToJson us = p ++ q -> q <> "" ->
  UploadSessionFromJson p = None /\ UploadSessionsFromJson p = None.
Proof.
  intros E Hq.
  pose proof (read_value_Marshal us) as H. unfold ToJson in E.
  rewrite E in H. apply read_value_prefix in H; [| exact I | exact Hq].
  rewrite UploadSessionFromJson_spec, UploadSessionsFromJson_spec, H.
  split; reflexivity.
Qed.

(** ** Serialization of sessions *)

Lemma ToJson_fields (us us' : UploadSession) :
  fields us = fields us' -> ToJson us = ToJson us'.
Proof. unfold ToJson, Marshal. intros ->. reflexivity. Qed.

Lemma keys_without_path (us : UploadSession) :
  ~ In "path" (keys_of us) /\ ~ In "Path" (keys_of us).
Proof.
  unfold keys_of.
  destruct (String.eqb (ChannelId us) ""); cbn [List.app In];
    split; intros H;
    repeat (destruct H as [H | H]; [discriminate H |]); exact H.
Qed.

(** C5. [ToJson] does not depend on the Path: sessions that agree on every
    other field have the same serialization, and no key of the serialized
    object is "path" (or "Path"). *)
Theorem ToJson_independent_of_Path :
  (forall us us' : UploadSession,
      Id us = Id us' -> Type_ us = Type_ us' -> CreateAt us = CreateAt us' ->
      UserId us = UserId us' -> ChannelId us = ChannelId us' ->
      Filename us = Filename us' -> FileSize us = FileSize us' ->
      FileOffset us = FileOffset us' ->
      ToJson us = ToJson us') /\
  (forall (us : UploadSession) (p : string),
      ToJson (set_Path p us) = ToJson us) /\
  (forall us : UploadSession,
      exists members,
        read_value (ToJson us) = Ok (JObject members) "" /\
        ~ In "path" (map fst members) /\ ~ In "Path" (map fst members)).
Proof.
  split; [| split].
  - intros us us' H1 H2 H3 H4 H5 H6 H7 H8. apply ToJson_fields.
    unfold fields. rewrite H1, H2, H3, H4, H5, H6, H7, H8. reflexivity.
  - intros us p. reflexivity.
  - intros us. exists (members_of (fields us)).
    split; [apply read_value_Marshal |].
    rewrite keys_of_fields. apply keys_without_path.
Qed.

Lemma ToJson_independent_of_Path_witness :
  ToJson (set_Path "/srv/other" session_import) = ToJson session_import.
Proof.
  apply (proj1 ToJson_independent_of_Path); reflexivity.
Defined.

Lemma coerce_session_valid (us : UploadSession) :
  ValidString (Id us) = true -> ValidString (Type_ us) = true ->
  ValidString (UserId us) = true -> ValidString (ChannelId us) = true ->
  ValidString (Filename us) = true ->
  coerce_session us = set_Path "" us.
Proof.
  intros H1 H2 H3 H4 H5. unfold coerce_session, set_Path.
  rewrite !coerce_valid by assumption. reflexivity.
Qed.

(** After a well-formed string, coercion goes on with what follows. *)
Lemma coerce_from_append (X : string) :
  forall (a : string) (k : nat),
    (k <= String.length a)%nat -> valid_from k a = true ->
    coerce_from k (a ++ X) = drop k a ++ coerce_from 0 X.
Proof.
  induction a as [| c t IH]; intros k Hk Hv.
  - cbn [String.length] in Hk. replace k with 0%nat by lia. reflexivity.
  - cbn [String.length] in Hk. cbn [append].
    destruct k as [| k];
      [| cbn [coerce_from drop valid_from] in *; apply IH; [lia | exact Hv]].
    cbn [valid_from coerce_from drop] in *.
    destruct (N.ltb_spec (byte c) RuneSelf) as [Hlt | Hge].
    + rewrite DecodeRune_ascii in * by assumption.
      rewrite EncodeRune_1r by (unfold RuneSelf in Hlt; lia).
      rewrite chr_byte.
      replace ((byte c =? RuneError)%N && (1 =? 1)%nat) with false in Hv.
      2:{ symmetry. apply andb_false_iff. left. apply N.eqb_neq.
          unfold RuneSelf, RuneError in *. lia. }
      cbn [Nat.sub] in *. rewrite (IH 0%nat) by (exact Hv || lia).
      reflexivity.
    + destruct (DecodeRune_cases c t Hge)
        as [Hd | c1 t' lo hi -> Hf Hr | c1 c2 t' lo hi -> Hf Hr H2
            | c1 c2 c3 t' lo hi -> Hf Hr H2 H3].
      * rewrite Hd in Hv. discriminate Hv.
      * cbn [append]. rewrite (DecodeRune_2 _ _ t' _ _ Hf Hr) in Hv.
        rewrite (DecodeRune_2 _ _ (t' ++ X) _ _ Hf Hr).
        rewrite andb_false_r in Hv.
        rewrite (EncodeRune_rune2 _ _ _ _ Hf Hr).
        change (String c1 (t' ++ X)) with (String c1 t' ++ X).
        cbn [Nat.sub] in *.
        rewrite (IH 1%nat) by (exact Hv || (cbn [String.length]; lia)).
        reflexivity.
      * cbn [append]. rewrite (DecodeRune_3 _ _ _ t' _ _ Hf Hr H2) in Hv.
        rewrite (DecodeRune_3 _ _ _ (t' ++ X) _ _ Hf Hr H2).
        rewrite andb_false_r in Hv.
        rewrite (EncodeRune_rune3 _ _ _ _ _ Hf Hr H2).
        change (String c1 (String c2 (t' ++ X)))
          with (String c1 (String c2 t') ++ X).
        cbn [Nat.sub] in *.
        rewrite (IH 2%nat) by (exact Hv || (cbn [String.length]; lia)).
        reflexivity.
      * cbn [append]. rewrite (DecodeRune_4 _ _ _ _ t' _ _ Hf Hr H2 H3) in Hv.
        rewrite (DecodeRune_4 _ _ _ _ (t' ++ X) _ _ Hf Hr H2 H3).
        rewrite andb_false_r in Hv.
        rewrite (EncodeRune_rune4 _ _ _ _ _ _ Hf Hr H2 H3).
        change (String c1 (String c2 (String c3 (t' ++ X))))
          with (String c1 (String c2 (String c3 t')) ++ X).
        cbn [Nat.sub] in *.
        rewrite (IH 3%nat) by (exact Hv || (cbn [String.length]; lia)).
        reflexivity.
Qed.

(** A byte that starts no well-formed sequence is coerced to U+FFFD. *)
Lemma coerce_invalid_byte (a : string) (c : ascii) (b : string) :
  ValidString a = true ->
  DecodeRune (String c b) = (RuneError, 1%nat) ->
  coerce (a ++ String c b) = a ++ utf8_replacement ++ coerce b.
Proof.
  intros Ha Hd. unfold coerce.
  rewrite coerce_from_append by (exact Ha || lia).
  cbn [drop coerce_from]. rewrite Hd. reflexivity.
Qed.

(** C6, as the code has it.  For every session (its integers in the range
    of int64), decoding its serialization gives the session with an empty
    Path and with its Id, Type, UserId, ChannelId and Filename coerced to
    UTF-8.  Coercion keeps a well-formed string as it is, and, after a
    well-formed part, writes the three bytes of U+FFFD for a byte that
    starts no well-formed sequence and goes on with the rest.  So for
    every valid session whose Id, UserId, ChannelId and Filename are
    well-formed UTF-8, decoding its serialization gives the session back
    with an empty Path.  The serialized object has exactly the keys id,
    type, create_at, user_id, channel_id (only when the ChannelId is not
    empty), filename, file_size, file_offset, in this order. *)
Theorem FromJson_ToJson_roundtrip :
  forall us : UploadSession,
    ints_ok us ->
    UploadSessionFromJson (ToJson us) = Some (coerce_session us) /\
    (forall s : string, ValidString s = true -> coerce s = s) /\
    (forall (a : string) (c : ascii) (b : string),
        ValidString a = true ->
        DecodeRune (String c b) = (RuneError, 1%nat) ->
        coerce (a ++ String c b) = a ++ utf8_replacement ++ coerce b) /\
    (forall IsValidId : string -> bool,
        IsValid IsValidId us = None ->
        ValidString (Id us) = true -> ValidString (UserId us) = true ->
        ValidString (ChannelId us) = true ->
        ValidString (Filename us) = true ->
        UploadSessionFromJson (ToJson us) = Some (set_Path "" us)) /\
    exists members,
      read_value (ToJson us) = Ok (JObject members) "" /\
      map fst members =
      (["id"; "type"; "create_at"; "user_id"]
       ++ (if String.eqb (ChannelId us) "" then [] else ["channel_id"])
       ++ ["filename"; "file_size"; "file_offset"])%list.
Proof.
  intros us Hi.
  split; [apply FromJson_ToJson; exact Hi |].
  split; [exact coerce_valid |].
  split; [exact coerce_invalid_byte |].
  split.
  - intros IsValidId Hv H1 H3 H4 H5.
    rewrite FromJson_ToJson by assumption. f_equal.
    apply coerce_session_valid; try assumption.
    apply IsValid_None_invariants in Hv.
    destruct Hv as (_ & [-> | ->] & _); reflexivity.
  - exists (members_of (fields us)).
    split; [apply read_value_Marshal | apply keys_of_fields].
Qed.

Lemma FromJson_ToJson_roundtrip_witness :
  UploadSessionFromJson (ToJson session_attachment) =
  Some (set_Path "" session_attachment) /\
  UploadSessionFromJson (ToJson session_latin1) =
  Some (coerce_session session_latin1) /\
  coerce latin1_name = replaced_name.
Proof.
  assert (Ha : ints_ok session_attachment).
  { unfold ints_ok, int64_ok.
    cbn [session_attachment CreateAt FileSize FileOffset]. lia. }
  assert (Hl : ints_ok session_latin1).
  { unfold ints_ok, int64_ok.
    cbn [session_latin1 session_import set_Filename CreateAt FileSize
         FileOffset]. lia. }
  split; [| split].
  - apply (proj1 (proj2 (proj2 (proj2
             (FromJson_ToJson_roundtrip session_attachment Ha))))
             IsValidId26); reflexivity.
  - apply (proj1 (FromJson_ToJson_roundtrip session_latin1 Hl)).
  - apply (proj1 (proj2 (proj2
             (FromJson_ToJson_roundtrip session_latin1 Hl)))
             "caf" (ascii_of_nat 233) ".png"); reflexivity.
Defined.

(** C6 as stated fails: a valid session whose Filename is not UTF-8 comes
    back with another Filename, the offending byte replaced by the
    encoding of U+FFFD. *)
Lemma FromJson_ToJson_not_identity :
  IsValid IsValidId26 session_latin1 = None /\
  UploadSessionFromJson (ToJson session_latin1) =
  Some (set_Filename replaced_name (set_Path "" session_latin1)) /\
  UploadSessionFromJson (ToJson session_latin1) <>
  Some (set_Path "" session_latin1).
Proof.
  split; [vm_compute; reflexivity |].
  split; [vm_compute; reflexivity |].
  vm_compute. intros H. discriminate H.
Qed.

(** C7, as the code has it.  Both decoders return nil when the first value
    of the stream has a syntax error, when the stream is a serialization
    cut short, when the value has the wrong shape (for a session: anything
    but an object or [null]; for a list: anything but an array) and when a
    member of a known key has a value of the wrong type, also then with
    nothing of what was stored before.  The value [null] is no error: the
    session decoder returns the zero session for it and not nil.  Nothing
    is validated: every session a decoder returns has an empty Path and
    fails [IsValid]. *)
Theorem decoders_nil_on_malformed :
  forall data : string,
    read_value data <> OutOfFuel /\
    (read_value data = SyntaxError ->
     UploadSessionFromJson data = None /\ UploadSessionsFromJson data = None) /\
    (forall us q, ToJson us = data ++ q -> q <> "" ->
       read_value data = SyntaxError /\
       UploadSessionFromJson data = None /\
       UploadSessionsFromJson data = None) /\
    (forall v r, read_value data = Ok v r ->
       UploadSessionFromJson data =
       match v with
       | JObject m =>
         if existsb member_error m then None
         else Some (fst (object_into m zero_session))
       | JNull => Some zero_session
       | _ => None
       end /\
       UploadSessionsFromJson data =
       match v with
       | JArray l =>
         if existsb element_error l then None else Some (fst (elements l))
       | _ => None
       end) /\
    (forall us, UploadSessionFromJson data = Some us ->
       Path us = "" /\ forall IsValidId, IsValid IsValidId us <> None) /\
    (forall l us, UploadSessionsFromJson data = Some l -> In (Some us) l ->
       Path us = "" /\ forall IsValidId, IsValid IsValidId us <> None).
Proof.
  intros data. split; [apply read_value_fuel |]. split; [| split; [| split]].
  - intros H.
    rewrite UploadSessionFromJson_spec, UploadSessionsFromJson_spec, H.
    split; reflexivity.
  - intros us q E Hq.
    pose proof (read_value_Marshal us) as H. unfold ToJson in E.
    rewrite E in H. apply read_value_prefix in H; [| exact I | exact Hq].
    split; [exact H |]. apply (truncated_ToJson us data q E Hq).
  - intros v r H.
    rewrite UploadSessionFromJson_spec, UploadSessionsFromJson_spec, H.
    split; destruct v; reflexivity.
  - split.
    + intros us H. pose proof (FromJson_Path _ _ H) as Hp.
      split; [exact Hp |]. intros IsValidId. apply empty_Path_invalid, Hp.
    + intros l us H Hin.
      assert (Hp : Path us = "").
      { rewrite UploadSessionsFromJson_spec in H.
        destruct (read_value data) as [v r | |]; try discriminate H.
        destruct v; try discriminate H.
        destruct (existsb element_error l0); [discriminate H |].
        injection H as <-. apply (proj2 (elements_spec l0)), Hin. }
      split; [exact Hp |]. intros IsValidId. apply empty_Path_invalid, Hp.
Qed.

Lemma decoders_nil_on_malformed_witness :
  UploadSessionFromJson (take 60 (ToJson session_attachment)) = None /\
  UploadSessionFromJson stream_type_error = None /\
  Id (fst (Decode stream_type_error zero_session)) = "abc".
Proof.
  split; [| split].
  - apply (proj1 (proj2 (proj2 (decoders_nil_on_malformed
                                  (take 60 (ToJson session_attachment)))))
             session_attachment (drop 60 (ToJson session_attachment))).
    + vm_compute. reflexivity.
    + vm_compute. discriminate.
  - rewrite (proj1 (proj1 (proj2 (proj2 (proj2 (decoders_nil_on_malformed
                                                  stream_type_error))))
                      _ _ eq_refl)).
    reflexivity.
  - reflexivity.
Defined.

(** C7 as stated fails for the stream [null], which is no record: the
    session decoder returns a session, the zero one, and not nil. *)
Lemma FromJson_null_not_nil :
  read_value "null" = Ok JNull "" /\
  UploadSessionFromJson "null" = Some zero_session /\
  UploadSessionFromJson "null" <> None.
Proof.
  split; [reflexivity |]. split; [reflexivity |]. discriminate.
Qed.


(** * Further properties *)

(** ** Defaulting and validation together *)

Section PreSaveThenIsValid.

Variable IsValidId : string -> bool.
Variable World : Type.
Variable NewId : World -> string * World.
Variable GetMillis : World -> Z * World.

Hypothesis NewId_valid : forall w, IsValidId (fst (NewId w)) = true.
Hypothesis GetMillis_nonzero : forall w, fst (GetMillis w) <> 0%Z.

(** X1. After [PreSave], with a generator of valid identifiers and a clock
    that does not read zero, [IsValid] passes exactly when the fields the
    caller supplied are in order: an Id that was left empty or is valid,
    and the invariants on Type, UserId, ChannelId, Filename, FileSize,
    FileOffset and Path; CreateAt no longer matters. *)
Theorem PreSave_then_IsValid :
  forall (us : UploadSession) (w : World),
    IsValid IsValidId (fst (PreSave NewId GetMillis us w)) = None <->
    (Id us = "" \/ IsValidId (Id us) = true) /\
    (Type_ us = "attachment" \/ Type_ us = "import") /\
    IsValidId (UserId us) = true /\
    (Type_ us = "attachment" -> IsValidId (ChannelId us) = true) /\
    Filename us <> "" /\
    (FileSize us > 0)%Z /\
    (0 <= FileOffset us <= FileSize us)%Z /\
    Path us <> "".
Proof.
  intros us w.
  rewrite IsValid_None_invariants. unfold invariants.
  destruct (PreSave_frame World NewId GetMillis us w)
    as (Ht & Hu & Hc & Hf & Hp & Hs & Ho).
  cbv zeta in Ht, Hu, Hc, Hf, Hp, Hs, Ho.
  rewrite Ht, Hu, Hc, Hf, Hp, Hs, Ho.
  rewrite (PreSave_Id World NewId GetMillis us w).
  rewrite (PreSave_CreateAt World NewId GetMillis us w).
  assert (Hid : (if String.eqb (Id us) "" then fst (NewId w) else Id us) = Id us
                \/ Id us = "" /\
                   IsValidId (if String.eqb (Id us) "" then fst (NewId w)
                              else Id us) = true).
  { destruct (String.eqb_spec (Id us) ""); [right | left]; auto. }
  assert (Hcr : (if (CreateAt us =? 0)%Z
                 then fst (GetMillis (after_id NewId us w))
                 else CreateAt us) <> 0%Z).
  { destruct (Z.eqb_spec (CreateAt us) 0); auto. }
  split.
  - intros (H1 & H2 & H3 & H4 & _ & H6 & H7 & H8 & H9).
    split; [| tauto].
    destruct Hid as [E | [E _]];
      [rewrite E in H1; right; exact H1 | left; exact E].
  - intros (H1 & H2 & H3 & H4 & H6 & H7 & H8 & H9).
    split; [| tauto].
    destruct (String.eqb_spec (Id us) "") as [E | E]; [apply NewId_valid |].
    destruct H1 as [H1 | H1]; [contradiction | exact H1].
Qed.

Hypothesis empty_invalid : IsValidId "" = false.

(** X2. A valid session is left as it is by [PreSave], and neither the
    generator nor the clock is called, when the empty string is no valid
    identifier. *)
Theorem PreSave_fixes_valid :
  forall (us : UploadSession) (w : World),
    IsValid IsValidId us = None ->
    PreSave NewId GetMillis us w = (us, w).
Proof.
  intros us w Hv. apply IsValid_None_invariants in Hv.
  destruct Hv as (Hid & _ & _ & _ & Hc & _).
  apply PreSave_populated; [| exact Hc].
  intros E. rewrite E, empty_invalid in Hid. discriminate Hid.
Qed.

End PreSaveThenIsValid.

Lemma PreSave_then_IsValid_witness :
  IsValid IsValidId26
    (fst (PreSave counter_NewId counter_GetMillis
            (set_CreateAt 0 (set_Id "" session_attachment)) 0%nat)) = None.
Proof.
  apply (PreSave_then_IsValid IsValidId26 nat counter_NewId counter_GetMillis).
  - intros w. reflexivity.
  - intros w. unfold counter_GetMillis. cbn [fst]. lia.
  - vm_compute. repeat split; auto; try discriminate.
Defined.

Lemma PreSave_fixes_valid_witness :
  PreSave counter_NewId counter_GetMillis session_import 7%nat =
  (session_import, 7%nat).
Proof.
  apply (PreSave_fixes_valid IsValidId26 nat counter_NewId counter_GetMillis).
  - reflexivity.
  - reflexivity.
Defined.

(** ** Validation along an upload *)

(** X3. Moving the FileOffset of a valid session keeps it valid exactly
    within 0 and FileSize; outside, the failure is the file-offset one,
    with the session's Id. *)
Theorem IsValid_set_FileOffset :
  forall (IsValidId : string -> bool) (us : UploadSession) (o : Z),
    IsValid IsValidId us = None ->
    IsValid IsValidId (set_FileOffset o us) =
    if ((0 <=? o) && (o <=? FileSize us))%Z then None
    else Some (Err.NewAppError "UploadSession.IsValid"
                 "model.upload_session.is_valid.file_offset.app_error" []
                 ("id=" ++ Id us) StatusBadRequest).
Proof.
  intros IsValidId us o Hv.
  apply IsValid_None_checks in Hv.
  destruct Hv as (H1 & H2 & H3 & H4 & H5 & H6 & H7 & H8 & H9).
  unfold IsValid. cbn [set_FileOffset Id Type_ UserId ChannelId CreateAt
                       Filename FileSize FileOffset Path].
  rewrite H1, H2, H3, H4, H5, H6, H7, H9. cbn [negb].
  replace ((o <? 0) || (o >? FileSize us))%Z
    with (negb ((0 <=? o) && (o <=? FileSize us))%Z)
    by apply range_cond.
  destruct ((0 <=? o) && (o <=? FileSize us))%Z; reflexivity.
Qed.

Lemma IsValid_set_FileOffset_witness :
  IsValid IsValidId26 (set_FileOffset 101 session_attachment) =
  Some (Err.NewAppError "UploadSession.IsValid"
          "model.upload_session.is_valid.file_offset.app_error" []
          ("id=" ++ id_a) StatusBadRequest).
Proof.
  apply (IsValid_set_FileOffset IsValidId26 session_attachment 101).
  reflexivity.
Defined.

(** X4. For a type other than "attachment" the outcome of [IsValid], error
    included, does not depend on the ChannelId. *)
Theorem IsValid_ignores_ChannelId :
  forall (IsValidId : string -> bool) (us : UploadSession) (c : string),
    Type_ us <> "attachment" ->
    IsValid IsValidId (set_ChannelId c us) = IsValid IsValidId us.
Proof.
  intros IsValidId us c Ht. unfold IsValid, UploadTypeAttachment.
  cbn [set_ChannelId Id Type_ UserId ChannelId CreateAt Filename FileSize
       FileOffset Path].
  apply String.eqb_neq in Ht. rewrite Ht. reflexivity.
Qed.

Lemma IsValid_ignores_ChannelId_witness :
  IsValid IsValidId26 (set_ChannelId "not a channel" session_import) =
  IsValid IsValidId26 session_import.
Proof.
  apply (IsValid_ignores_ChannelId IsValidId26 session_import).
  discriminate.
Defined.


(** ** Lists of sessions *)

Lemma scan_value_Marshal (us : UploadSession) (f : nat) (q : string) :
  (2 * String.length (Marshal us) < f)%nat ->
  scan_value f (Marshal us ++ q) = Ok (JObject (members_of (fields us))) q.
Proof.
  intros Hf. pose proof (read_value_Marshal us) as H. unfold read_value in H.
  apply (proj1 (scan_ext _) _ q) in H; [| right; exact I].
  apply (scan_value_fuel_le _ f) in H; [exact H | lia].
Qed.

Lemma scan_value_null (f : nat) (q : string) :
  scan_value (S f) ("null" ++ q) = Ok JNull q.
Proof.
  cbn [append scan_value skip_space]. change (isSpace "n") with false.
  cbn iota.
  change (Ascii.eqb "n" "{") with false. change (Ascii.eqb "n" "[") with false.
  change (Ascii.eqb "n" dquote) with false.
  change (Ascii.eqb "n" "-" || is_digit "n") with false.
  change (Ascii.eqb "n" "t") with false. change (Ascii.eqb "n" "f") with false.
  change (Ascii.eqb "n" "n") with true. cbn iota.
  change (String "n" (String "u" (String "l" (String "l" q))))
    with ("null" ++ q).
  unfold scan_word.
  rewrite (prefix_append "null" "null" q eq_refl).
  rewrite drop_append by (cbn; lia). reflexivity.
Qed.

Lemma scan_value_element (p : option UploadSession) (f : nat) (q : string) :
  (2 * String.length (encode_element p) < f)%nat ->
  scan_value f (encode_element p ++ q) = Ok (jelement_of p) q.
Proof.
  destruct p as [us |]; cbn [encode_element jelement_of]; intros Hf.
  - apply scan_value_Marshal, Hf.
  - destruct f as [| f]; [lia |]. apply scan_value_null.
Qed.

Lemma encode_element_head (p : option UploadSession) (X : string) :
  exists c Y, encode_element p ++ X = String c Y /\ isSpace c = false /\
              Ascii.eqb c "]" = false.
Proof.
  destruct p as [us |]; cbn [encode_element].
  - unfold Marshal. cbn [append]. eexists _, _. repeat split.
  - cbn [append]. eexists _, _. repeat split.
Qed.

(** Scanning the encoded elements of a list, up to the closing bracket. *)
Lemma scan_elements_encode :
  forall (l : list (option UploadSession)) (p : option UploadSession)
         (f : nat) (rest : string),
    (2 * String.length (join "," (map encode_element (p :: l))) + 1 < f)%nat ->
    scan_elements f
      (join "," (map encode_element (p :: l)) ++ String "]" rest) =
    Ok (map jelement_of (p :: l)) rest.
Proof.
  induction l as [| p' l IH]; intros p f rest Hf.
  - cbn [map join] in *. destruct f as [| f]; [lia |].
    cbn [scan_elements]. rewrite scan_value_element by lia.
    cbn [skip_space]. change (isSpace "]") with false. cbn iota.
    change (Ascii.eqb "]" "]") with true. reflexivity.
  - change (join "," (map encode_element (p :: p' :: l)))
      with (encode_element p ++ ","
            ++ join "," (map encode_element (p' :: l))) in *.
    rewrite !length_append in Hf. cbn [String.length] in Hf.
    rewrite !append_assoc. destruct f as [| f]; [lia |].
    cbn [scan_elements]. rewrite scan_value_element by lia.
    cbn [append skip_space]. change (isSpace ",") with false. cbn iota.
    change (Ascii.eqb "," "]") with false.
    change (Ascii.eqb "," ",") with true. cbn iota.
    rewrite IH by lia. reflexivity.
Qed.

(** Reading an encoded list gives its elements. *)
Lemma read_value_MarshalList (uss : option (list (option UploadSession))) :
  read_value (MarshalList uss) =
  Ok (match uss with
      | Some l => JArray (map jelement_of l)
      | None => JNull
      end) "".
Proof.
  destruct uss as [l |]; [| reflexivity].
  unfold MarshalList.
  change (fun p : option UploadSession =>
            match p with
            | Some us => Marshal us
            | None => "null"
            end) with encode_element.
  destruct l as [| p l]; [reflexivity |].
  unfold read_value.
  remember (join "," (map encode_element (p :: l))) as body eqn:Eb.
  cbn [append String.length]. rewrite length_append.
  cbn [String.length].
  replace (2 * S (String.length body + 1))%nat
    with (S (S (2 * String.length body + 2)))%nat by lia.
  assert (Hh : exists c Y, body ++ "]" = String c Y /\ isSpace c = false /\
                           Ascii.eqb c "]" = false).
  { subst body. cbn [map join]. destruct (map encode_element l).
    - apply encode_element_head.
    - rewrite append_assoc. apply encode_element_head. }
  destruct Hh as (c & Y & E & Hs & Hb).
  cbn [scan_value skip_space]. change (isSpace "[") with false. cbn iota.
  change (Ascii.eqb "[" "{") with false.
  change (Ascii.eqb "[" "[") with true. cbn iota.
  rewrite E. cbn [skip_space]. rewrite Hs, Hb. rewrite <- E. subst body.
  rewrite scan_elements_encode by lia. reflexivity.
Qed.

Lemma elements_encoded (l : list (option UploadSession)) :
  (forall us, In (Some us) l -> ints_ok us) ->
  elements (map jelement_of l) = (map (option_map coerce_session) l, false).
Proof.
  induction l as [| p l IH]; intros Hok; [reflexivity |].
  cbn [map elements].
  rewrite IH by (intros us H; apply Hok; right; exact H).
  destruct p as [us |]; cbn [jelement_of element option_map].
  - rewrite object_into_fields by (apply Hok; left; reflexivity).
    reflexivity.
  - reflexivity.
Qed.

(** X5. Decoding the serialization of a list of sessions gives the list
    back, element for element and nil pointers included, each session
    with its strings coerced to UTF-8 and without its Path; the nil
    slice comes back nil and the empty slice comes back empty. *)
Theorem SessionsFromJson_SessionsToJson :
  forall uss : option (list (option UploadSession)),
    (forall l us, uss = Some l -> In (Some us) l -> ints_ok us) ->
    UploadSessionsFromJson (UploadSessionsToJson uss) =
    option_map (map (option_map coerce_session)) uss.
Proof.
  intros uss Hok.
  unfold UploadSessionsFromJson, UploadSessionsToJson, DecodeList.
  rewrite read_value_MarshalList. destruct uss as [l |]; [| reflexivity].
  cbn [option_map]. rewrite elements_encoded; [reflexivity |].
  intros us. apply Hok. reflexivity.
Qed.

Lemma SessionsFromJson_SessionsToJson_witness :
  UploadSessionsFromJson
    (UploadSessionsToJson (Some [Some session_attachment; None;
                                 Some session_latin1])) =
  Some [Some (set_Path "" session_attachment); None;
        Some (set_Filename replaced_name (set_Path "" session_latin1))].
Proof.
  apply (SessionsFromJson_SessionsToJson
           (Some [Some session_attachment; None; Some session_latin1])).
  intros l us [= <-] [H | [H | [H | []]]]; try discriminate H;
    injection H as <-; unfold ints_ok, int64_ok;
    cbn [session_attachment session_latin1 session_import set_Filename
         CreateAt FileSize FileOffset]; lia.
Defined.


(** X6. A serialized list cut short decodes to nil, whichever decoder
    reads it. *)
Theorem truncated_SessionsToJson :
  forall (uss : option (list (option UploadSession))) (p q : string),
    UploadSessionsToJson uss = p ++ q -> q <> "" ->
    UploadSessionsFromJson p = None /\ UploadSessionFromJson p = None.
Proof.
  intros uss p q E Hq.
  pose proof (read_value_MarshalList uss) as H.
  unfold UploadSessionsToJson in E. rewrite E in H.
  apply read_value_prefix in H; [| destruct uss; exact I | exact Hq].
  rewrite UploadSessionFromJson_spec, UploadSessionsFromJson_spec, H.
  split; reflexivity.
Qed.

Lemma truncated_SessionsToJson_witness :
  UploadSessionsFromJson
    (take 100 (UploadSessionsToJson (Some [Some session_import; None]))) =
  None.
Proof.
  apply (truncated_SessionsToJson (Some [Some session_import; None])
           (take 100 (UploadSessionsToJson (Some [Some session_import; None])))
           (drop 100 (UploadSessionsToJson (Some [Some session_import; None])))).
  - vm_compute. reflexivity.
  - vm_compute. discriminate.
Defined.

(** X7. The two formats are not taken for one another: the session decoder
    returns nil for a serialized list, and the list decoder returns nil
    for a serialized session. *)
Theorem formats_not_confused :
  (forall l : list (option UploadSession),
      UploadSessionFromJson (UploadSessionsToJson (Some l)) = None) /\
  (forall us : UploadSession,
      UploadSessionsFromJson (ToJson us) = None).
Proof.
  split.
  - intros l. rewrite UploadSessionFromJson_spec.
    unfold UploadSessionsToJson. rewrite read_value_MarshalList. reflexivity.
  - intros us. rewrite UploadSessionsFromJson_spec.
    unfold ToJson. rewrite read_value_Marshal. reflexivity.
Qed.

Lemma skip_space_all_space (w s : string) :
  all_space w = true -> skip_space (w ++ s) = skip_space s.
Proof.
  unfold all_space. induction w as [| c w IH]; intros H; [reflexivity |].
  cbn [all_chars] in H. apply andb_true_iff in H. destruct H as [Hc Hw].
  cbn [append skip_space]. rewrite Hc. apply IH, Hw.
Qed.

(** A value with nothing after it is read the same between white space
    before it and any bytes after it. *)
Lemma read_value_padded (w data q : string) (v : json) :
  all_space w = true -> read_value data = Ok v "" -> not_number v ->
  read_value (w ++ data ++ q) = Ok v q.
Proof.
  intros Hw H Hv. unfold read_value in *.
  apply (proj1 (scan_ext _) _ q) in H; [| right; exact Hv].
  cbn [append] in H.
  apply (scan_value_fuel_le _ (S (2 * String.length (w ++ data ++ q)))) in H.
  2:{ rewrite !length_append. lia. }
  remember (2 * String.length (w ++ data ++ q))%nat as f eqn:Ef.
  cbn [scan_value] in H |- *.
  rewrite skip_space_all_space by exact Hw. exact H.
Qed.

(** X8. The decoders read the first value of the stream and no more:
    white space before a serialized session or list and any bytes after
    it do not change what is decoded. *)
Theorem decoders_read_first_value :
  forall w q : string,
    all_space w = true ->
    (forall us : UploadSession,
        UploadSessionFromJson (w ++ ToJson us ++ q) =
        UploadSessionFromJson (ToJson us)) /\
    (forall uss : option (list (option UploadSession)),
        UploadSessionsFromJson (w ++ UploadSessionsToJson uss ++ q) =
        UploadSessionsFromJson (UploadSessionsToJson uss)).
Proof.
  intros w q Hw. split.
  - intros us. rewrite !UploadSessionFromJson_spec. unfold ToJson.
    rewrite (read_value_padded w _ q _ Hw (read_value_Marshal us) I).
    rewrite read_value_Marshal. reflexivity.
  - intros uss. rewrite !UploadSessionsFromJson_spec.
    unfold UploadSessionsToJson.
    rewrite (read_value_padded w _ q _ Hw (read_value_MarshalList uss)).
    + rewrite read_value_MarshalList. reflexivity.
    + destruct uss; exact I.
Qed.

Lemma decoders_read_first_value_witness :
  UploadSessionFromJson ("  " ++ ToJson session_import ++ "}]trailing") =
  UploadSessionFromJson (ToJson session_import).
Proof.
  apply (decoders_read_first_value "  " "}]trailing"). reflexivity.
Defined.

Lemma Marshal_set_Path (p : string) (us : UploadSession) :
  Marshal (set_Path p us) = Marshal us.
Proof. reflexivity. Qed.

Lemma encode_element_without_path (l : list (option UploadSession)) :
  map encode_element (without_paths l) = map encode_element l.
Proof.
  unfold without_paths. induction l as [| x l IH]; [reflexivity |].
  cbn [map]. rewrite IH. destruct x; reflexivity.
Qed.

(** X9. [UploadSessionsToJson] does not depend on the Paths: two lists
    that agree once the Paths are blanked have the same serialization. *)
Theorem SessionsToJson_independent_of_Path :
  forall l l' : list (option UploadSession),
    without_paths l = without_paths l' ->
    UploadSessionsToJson (Some l) = UploadSessionsToJson (Some l').
Proof.
  intros l l' H. unfold UploadSessionsToJson, MarshalList.
  change (fun p : option UploadSession =>
            match p with
            | Some us => Marshal us
            | None => "null"
            end) with encode_element.
  rewrite <- (encode_element_without_path l),
    <- (encode_element_without_path l'), H.
  reflexivity.
Qed.

Lemma SessionsToJson_independent_of_Path_witness :
  UploadSessionsToJson (Some [Some (set_Path "/a" session_import); None]) =
  UploadSessionsToJson (Some [Some (set_Path "/b" session_import); None]).
Proof.
  apply SessionsToJson_independent_of_Path. reflexivity.
Defined.


(** ** Well-formed UTF-8 *)

Lemma valid_ascii_cons (c : ascii) (X : string) :
  (byte c < RuneSelf)%N -> valid_from 0 (String c X) = valid_from 0 X.
Proof.
  intros H. cbn [valid_from]. rewrite DecodeRune_ascii by exact H.
  replace ((byte c =? RuneError)%N && (1 =? 1)%nat) with false.
  - reflexivity.
  - symmetry. apply andb_false_iff. left. apply N.eqb_neq.
    unfold RuneSelf, RuneError in *. lia.
Qed.

(** After a well-formed string, validity is that of what follows. *)
Lemma valid_from_append (b : string) :
  forall (a : string) (k : nat),
    (k <= String.length a)%nat -> valid_from k a = true ->
    valid_from k (a ++ b) = valid_from 0 b.
Proof.
  induction a as [| c t IH]; intros k Hk Hv.
  - cbn [String.length] in Hk. replace k with 0%nat by lia. reflexivity.
  - cbn [String.length] in Hk. cbn [append].
    destruct k as [| k]; [| cbn [valid_from] in *; apply IH; [lia | exact Hv]].
    destruct (N.ltb_spec (byte c) RuneSelf) as [Hlt | Hge].
    + rewrite valid_ascii_cons in * by exact Hlt. apply IH; [lia | exact Hv].
    + cbn [valid_from] in *.
      destruct (DecodeRune_cases c t Hge)
        as [Hd | c1 t' lo hi -> Hf Hr | c1 c2 t' lo hi -> Hf Hr H2
            | c1 c2 c3 t' lo hi -> Hf Hr H2 H3].
      * rewrite Hd in Hv. discriminate Hv.
      * cbn [append]. rewrite (DecodeRune_2 _ _ t' _ _ Hf Hr) in Hv.
        rewrite (DecodeRune_2 _ _ (t' ++ b) _ _ Hf Hr).
        rewrite andb_false_r in *.
        apply (IH 1%nat); [cbn [String.length]; lia | exact Hv].
      * cbn [append]. rewrite (DecodeRune_3 _ _ _ t' _ _ Hf Hr H2) in Hv.
        rewrite (DecodeRune_3 _ _ _ (t' ++ b) _ _ Hf Hr H2).
        rewrite andb_false_r in *.
        apply (IH 2%nat); [cbn [String.length]; lia | exact Hv].
      * cbn [append]. rewrite (DecodeRune_4 _ _ _ _ t' _ _ Hf Hr H2 H3) in Hv.
        rewrite (DecodeRune_4 _ _ _ _ (t' ++ b) _ _ Hf Hr H2 H3).
        rewrite andb_false_r in *.
        apply (IH 3%nat); [cbn [String.length]; lia | exact Hv].
Qed.

Lemma valid_append (a b : string) :
  ValidString a = true -> valid_from 0 (a ++ b) = valid_from 0 b.
Proof. intros H. apply valid_from_append; [lia | exact H]. Qed.

Lemma byte_chr (n : N) : (n < 256)%N -> byte (chr n) = n.
Proof. intros H. apply N_ascii_embedding. exact H. Qed.

Lemma first_2 (a : N) :
  (0xC2 <= a < 0xE0)%N -> first a = Some (2%nat, (0x80, 0xBF)%N).
Proof.
  intros H. unfold first.
  destruct (N.ltb_spec a 0xC2); [lia |].
  destruct (N.ltb_spec a 0xE0); [reflexivity | lia].
Qed.

Lemma first_3 (a : N) :
  (0xE0 <= a < 0xF0)%N ->
  first a = Some (3%nat, (if (a =? 0xE0)%N then 0xA0 else 0x80,
                          if (a =? 0xED)%N then 0x9F else 0xBF)%N).
Proof.
  intros H. unfold first.
  repeat match goal with
         | |- context [(?x <? ?y)%N] => destruct (N.ltb_spec x y)
         | |- context [(?x =? ?y)%N] => destruct (N.eqb_spec x y)
         end; try reflexivity; lia.
Qed.

Lemma first_4 (a : N) :
  (0xF0 <= a <= 0xF4)%N ->
  first a = Some (4%nat, (if (a =? 0xF0)%N then 0x90 else 0x80,
                          if (a =? 0xF4)%N then 0x8F else 0xBF)%N).
Proof.
  intros H. unfold first.
  repeat match goal with
         | |- context [(?x <? ?y)%N] => destruct (N.ltb_spec x y)
         | |- context [(?x =? ?y)%N] => destruct (N.eqb_spec x y)
         end; try reflexivity; lia.
Qed.

Lemma is_cont_128 (x : N) : is_cont (128 + x mod 64) = true.
Proof.
  unfold is_cont. apply andb_true_iff. rewrite !N.leb_le. arith.
Qed.

Lemma valid3 (r : N) (X : string) :
  (0x800 <= r <= 0xFFFF)%N -> ~ (0xD800 <= r <= 0xDFFF)%N ->
  valid_from 0
    (String (chr (224 + r / 4096))
       (String (chr (128 + (r / 64) mod 64))
          (String (chr (128 + r mod 64)) X))) = valid_from 0 X.
Proof.
  intros Hr Hs. cbn [valid_from].
  assert (Ha : (0xE0 <= 224 + r / 4096 < 0xF0)%N) by arith.
  rewrite (DecodeRune_3 _ _ _ X
             (if (224 + r / 4096 =? 0xE0)%N then 0xA0 else 0x80)%N
             (if (224 + r / 4096 =? 0xED)%N then 0x9F else 0xBF)%N).
  - rewrite andb_false_r. reflexivity.
  - rewrite byte_chr by lia. apply first_3, Ha.
  - rewrite byte_chr by arith.
    destruct (N.eqb_spec (224 + r / 4096) 0xE0);
      destruct (N.eqb_spec (224 + r / 4096) 0xED); arith.
  - rewrite byte_chr by arith. apply is_cont_128.
Qed.

(** What [EncodeRune] writes is well-formed. *)
Lemma EncodeRune_valid (r : N) (X : string) :
  valid_from 0 (EncodeRune r ++ X) = valid_from 0 X.
Proof.
  destruct (N.leb_spec r 0x7F) as [H1 | H1].
  { rewrite EncodeRune_1r by exact H1. unfold str1. cbn [append].
    apply valid_ascii_cons. rewrite byte_chr by lia. unfold RuneSelf. lia. }
  destruct (N.leb_spec r 0x7FF) as [H2 | H2].
  { rewrite EncodeRune_2r by lia. unfold str1. cbn [append valid_from].
    rewrite (DecodeRune_2 _ _ X 0x80 0xBF)%N.
    - rewrite andb_false_r. reflexivity.
    - rewrite byte_chr by arith. apply first_2. arith.
    - rewrite byte_chr by arith. arith. }
  assert (Hrepl : valid_from 0 (encode3 RuneError ++ X) = valid_from 0 X).
  { rewrite encode3_arith by (unfold RuneError; lia). unfold str1.
    cbn [append]. apply valid3; unfold RuneError; lia. }
  destruct (N.leb_spec r 0xFFFF) as [H3 | H3].
  { destruct (N.leb_spec 0xD800 r) as [Hs1 | Hs1];
      [destruct (N.leb_spec r 0xDFFF) as [Hs2 | Hs2] |].
    - (* a surrogate *)
      replace (EncodeRune r) with (encode3 RuneError); [exact Hrepl |].
      unfold EncodeRune, MaxRune.
      destruct (N.leb_spec r 0x7F); [lia |].
      destruct (N.leb_spec r 0x7FF); [lia |].
      destruct (N.leb_spec 0xD800 r); [| lia].
      destruct (N.leb_spec r 0xDFFF); [| lia].
      rewrite orb_true_r. reflexivity.
    - rewrite EncodeRune_3r by lia. unfold str1. cbn [append].
      apply valid3; lia.
    - rewrite EncodeRune_3r by lia. unfold str1. cbn [append].
      apply valid3; lia. }
  destruct (N.leb_spec r 0x10FFFF) as [H4 | H4].
  - rewrite EncodeRune_4r by lia. unfold str1. cbn [append valid_from].
    assert (Ha : (0xF0 <= 240 + r / 262144 <= 0xF4)%N) by arith.
    rewrite (DecodeRune_4 _ _ _ _ X
               (if (240 + r / 262144 =? 0xF0)%N then 0x90 else 0x80)%N
               (if (240 + r / 262144 =? 0xF4)%N then 0x8F else 0xBF)%N).
    + rewrite andb_false_r. reflexivity.
    + rewrite byte_chr by lia. apply first_4, Ha.
    + rewrite byte_chr by arith.
      destruct (N.eqb_spec (240 + r / 262144) 0xF0);
        destruct (N.eqb_spec (240 + r / 262144) 0xF4); arith.
    + rewrite byte_chr by arith. apply is_cont_128.
    + rewrite byte_chr by arith. apply is_cont_128.
  - replace (EncodeRune r) with (encode3 RuneError); [exact Hrepl |].
    unfold EncodeRune, MaxRune.
    destruct (N.leb_spec r 0x7F); [lia |].
    destruct (N.leb_spec r 0x7FF); [lia |].
    destruct (N.ltb_spec 0x10FFFF r); [| lia]. reflexivity.
Qed.

(** The coercion of a string is well-formed. *)
Lemma coerce_from_is_valid :
  forall (s : string) (k : nat), valid_from 0 (coerce_from k s) = true.
Proof.
  induction s as [| c t IH]; intros k; [reflexivity |].
  destruct k as [| k]; cbn [coerce_from]; [| apply IH].
  destruct (DecodeRune (String c t)) as [r size].
  rewrite EncodeRune_valid. apply IH.
Qed.

Lemma coerce_is_valid (s : string) : ValidString (coerce s) = true.
Proof. apply coerce_from_is_valid. Qed.


(** What an escape sequence stands for is well-formed. *)
Lemma unescape_valid (s out : string) (n : nat) :
  unescape s = Some (out, n) ->
  forall X, valid_from 0 (out ++ X) = valid_from 0 X.
Proof.
  unfold unescape. destruct s as [| b [| e t]]; try discriminate.
  assert (A : forall c : ascii, (byte c < RuneSelf)%N ->
              forall X, valid_from 0 (str1 c ++ X) = valid_from 0 X).
  { intros c Hc X. apply valid_ascii_cons, Hc. }
  destruct (Ascii.eqb e dquote || Ascii.eqb e bslash || Ascii.eqb e "/")
    eqn:E1.
  { intros [= <- _]. apply A.
    apply orb_true_iff in E1. destruct E1 as [E1 | E1];
      [apply orb_true_iff in E1; destruct E1 as [E1 | E1] |];
      apply Ascii.eqb_eq in E1; subst e; vm_compute; reflexivity. }
  destruct (Ascii.eqb e "b"); [intros [= <- _]; apply A; reflexivity |].
  destruct (Ascii.eqb e "f"); [intros [= <- _]; apply A; reflexivity |].
  destruct (Ascii.eqb e "n"); [intros [= <- _]; apply A; reflexivity |].
  destruct (Ascii.eqb e "r"); [intros [= <- _]; apply A; reflexivity |].
  destruct (Ascii.eqb e "t"); [intros [= <- _]; apply A; reflexivity |].
  destruct (Ascii.eqb e "u"); [| discriminate].
  destruct (getu4 _) as [rr |]; [| discriminate].
  destruct (IsSurrogate rr).
  - destruct (getu4 _) as [rr1 |].
    + destruct (_ =? _)%N; intros [= <- _] X; apply EncodeRune_valid.
    + intros [= <- _] X. apply EncodeRune_valid.
  - intros [= <- _] X. apply EncodeRune_valid.
Qed.

(** The bytes of a string literal, unquoted, are well-formed, whatever the
    bytes of the literal. *)
Lemma unquote_from_valid :
  forall (s : string) (k : nat) (v rest : string),
    unquote_from k s = Some (v, rest) -> ValidString v = true.
Proof.
  assert (P : forall out r v rest,
             (forall X, valid_from 0 (out ++ X) = valid_from 0 X) ->
             (forall v' rest', r = Some (v', rest') -> ValidString v' = true) ->
             prepend out r = Some (v, rest) -> ValidString v = true).
  { intros out r v rest Ho Hr H. destruct r as [[v' rest'] |]; [| discriminate].
    cbn [prepend] in H. injection H as <- _. unfold ValidString.
    rewrite Ho. apply (Hr v' rest'). reflexivity. }
  induction s as [| c t IH]; intros k v rest H; [discriminate |].
  destruct k as [| k]; cbn [unquote_from] in H; [| exact (IH _ _ _ H)].
  destruct (Ascii.eqb c dquote); [injection H as <- _; reflexivity |].
  destruct (Ascii.eqb c bslash).
  { destruct (unescape (String c t)) as [[out n] |] eqn:Eu; [| discriminate].
    apply (P _ _ _ _ (unescape_valid _ _ _ Eu) (IH n) H). }
  destruct (byte c <? 0x20)%N; [discriminate |].
  destruct (N.ltb_spec (byte c) RuneSelf) as [Hlt | Hge].
  { refine (P _ _ _ _ _ (IH 0%nat) H).
    intros X. apply valid_ascii_cons, Hlt. }
  destruct (DecodeRune (String c t)) as [r size].
  apply (P _ _ _ _ (EncodeRune_valid r) (IH (size - 1)%nat) H).
Qed.

Lemma scan_word_not_string (w : string) (v : json) (s : string) (x r : string) :
  (forall y, v <> JString y) -> scan_word w v s <> Ok (JString x) r.
Proof.
  intros Hv. unfold scan_word. destruct (String.prefix w s); [| discriminate].
  intros [= H _]. exact (Hv _ H).
Qed.

(** A string value that the scanner gives is well-formed. *)
Lemma scan_value_string (f : nat) (s : string) (v : json) (r : string) :
  scan_value f s = Ok v r -> string_valid v.
Proof.
  destruct v; try (intros _; exact I). rename s0 into x.
  destruct f as [| f]; [discriminate |]. cbn [scan_value string_valid].
  destruct (skip_space s) as [| c t]; [discriminate |].
  destruct (Ascii.eqb c "{").
  { destruct (skip_space t) as [| c' t']; [discriminate |].
    destruct (Ascii.eqb c' "}"); [discriminate |].
    destruct (scan_members f _); discriminate. }
  destruct (Ascii.eqb c "[").
  { destruct (skip_space t) as [| c' t']; [discriminate |].
    destruct (Ascii.eqb c' "]"); [discriminate |].
    destruct (scan_elements f _); discriminate. }
  destruct (Ascii.eqb c dquote).
  { destruct (unquote_from 0 t) as [[v' r'] |] eqn:Eu; [| discriminate].
    intros [= <- _]. exact (unquote_from_valid _ _ _ _ Eu). }
  destruct (Ascii.eqb c "-" || is_digit c).
  { destruct (scan_number _) as [[lit r'] |]; discriminate. }
  destruct (Ascii.eqb c "t");
    [intros H; exfalso; revert H; apply scan_word_not_string; discriminate |].
  destruct (Ascii.eqb c "f");
    [intros H; exfalso; revert H; apply scan_word_not_string; discriminate |].
  destruct (Ascii.eqb c "n");
    [intros H; exfalso; revert H; apply scan_word_not_string; discriminate |].
  discriminate.
Qed.

Lemma scan_members_valid :
  forall (f : nat) (s : string) (m : list (string * json)) (r : string),
    scan_members f s = Ok m r -> members_valid m.
Proof.
  induction f as [| f IH]; intros s m r; [discriminate |].
  assert (G : forall f', f' = f ->
              scan_members (S f') s = Ok m r -> members_valid m).
  2:{ apply G. reflexivity. }
  intros f' Ef. cbn [scan_members]. subst f'.
  destruct s as [| c t]; [discriminate |].
  destruct (negb (Ascii.eqb c dquote)); [discriminate |].
  destruct (unquote_from 0 t) as [[key r1] |]; [| discriminate].
  destruct (skip_space r1) as [| c2 t2]; [discriminate |].
  destruct (negb (Ascii.eqb c2 ":")); [discriminate |].
  destruct (scan_value f t2) as [v r2 | |] eqn:Ev; try discriminate.
  apply scan_value_string in Ev.
  destruct (skip_space r2) as [| c3 t3]; [discriminate |].
  destruct (Ascii.eqb c3 "}").
  { intros [= <- _]. constructor; [exact Ev | constructor]. }
  destruct (Ascii.eqb c3 ","); [| discriminate].
  destruct (scan_members f (skip_space t3)) as [m' r' | |] eqn:Em;
    try discriminate.
  intros [= <- _]. constructor; [exact Ev | exact (IH _ _ _ Em)].
Qed.

Lemma scan_value_valid (f : nat) (s : string) (v : json) (r : string) :
  scan_value f s = Ok v r -> value_valid v.
Proof.
  intros H. destruct v; try exact I.
  - exact (scan_value_string _ _ _ _ H).
  - destruct f as [| f]; [discriminate |]. cbn [scan_value value_valid] in *.
    destruct (skip_space s) as [| c t]; [discriminate |].
    destruct (Ascii.eqb c "{").
    { destruct (skip_space t) as [| c' t']; [discriminate |].
      destruct (Ascii.eqb c' "}"); [injection H as <- _; constructor |].
      destruct (scan_members f _) as [m r' | |] eqn:Em; try discriminate.
      injection H as <- _. exact (scan_members_valid _ _ _ _ Em). }
    destruct (Ascii.eqb c "[").
    { destruct (skip_space t) as [| c' t']; [discriminate |].
      destruct (Ascii.eqb c' "]"); [discriminate |].
      destruct (scan_elements f _); discriminate. }
    destruct (Ascii.eqb c dquote).
    { destruct (unquote_from 0 t) as [[v' r'] |]; discriminate. }
    destruct (Ascii.eqb c "-" || is_digit c).
    { destruct (scan_number _) as [[lit r'] |]; discriminate. }
    unfold scan_word in H.
    repeat match type of H with
           | (if ?b then _ else _) = _ => destruct b; try discriminate
           end.
Qed.

Lemma scan_elements_valid :
  forall (f : nat) (s : string) (l : list json) (r : string),
    scan_elements f s = Ok l r -> Forall value_valid l.
Proof.
  induction f as [| f IH]; intros s l r; [discriminate |].
  assert (G : forall f', f' = f ->
              scan_elements (S f') s = Ok l r -> Forall value_valid l).
  2:{ apply G. reflexivity. }
  intros f' Ef. cbn [scan_elements]. subst f'.
  destruct (scan_value f s) as [v r1 | |] eqn:Ev; try discriminate.
  apply scan_value_valid in Ev.
  destruct (skip_space r1) as [| c t]; [discriminate |].
  destruct (Ascii.eqb c "]").
  { intros [= <- _]. constructor; [exact Ev | constructor]. }
  destruct (Ascii.eqb c ","); [| discriminate].
  destruct (scan_elements f t) as [l' r' | |] eqn:El; try discriminate.
  intros [= <- _]. constructor; [exact Ev | exact (IH _ _ _ El)].
Qed.

Lemma scan_value_array_valid (f : nat) (s : string) (v : json) (r : string) :
  scan_value f s = Ok v r -> array_valid v.
Proof.
  intros H. destruct v; try exact I.
  destruct f as [| f]; [discriminate |]. cbn [scan_value array_valid] in *.
  destruct (skip_space s) as [| c t]; [discriminate |].
  destruct (Ascii.eqb c "{").
  { destruct (skip_space t) as [| c' t']; [discriminate |].
    destruct (Ascii.eqb c' "}"); [discriminate |].
    destruct (scan_members f _); discriminate. }
  destruct (Ascii.eqb c "[").
  { destruct (skip_space t) as [| c' t']; [discriminate |].
    destruct (Ascii.eqb c' "]"); [injection H as <- _; constructor |].
    destruct (scan_elements f _) as [l' r' | |] eqn:El; try discriminate.
    injection H as <- _. exact (scan_elements_valid _ _ _ _ El). }
  destruct (Ascii.eqb c dquote).
  { destruct (unquote_from 0 t) as [[v' r'] |]; discriminate. }
  destruct (Ascii.eqb c "-" || is_digit c).
  { destruct (scan_number _) as [[lit r'] |]; discriminate. }
  unfold scan_word in H.
  repeat match type of H with
         | (if ?b then _ else _) = _ => destruct b; try discriminate
         end.
Qed.

(** [ParseInt64] gives numbers of 64 bits. *)
Lemma ParseInt64_range (s : string) (z : Z) :
  ParseInt64 s = Some z -> int64_ok z.
Proof.
  unfold ParseInt64.
  destruct (match s with
            | String c t =>
              if Ascii.eqb c "+" then (false, t)
              else if Ascii.eqb c "-" then (true, t) else (false, s)
            | EmptyString => (false, s)
            end) as [neg ds].
  destruct ds as [| c t]; [discriminate |].
  destruct (NilEmpty.uint_of_string _) as [d |]; [| discriminate].
  match goal with
  | |- (if ?b then _ else _) = _ -> _ => destruct b eqn:E; [| discriminate]
  end.
  intros [= <-]. apply andb_true_iff in E. destruct E as [E1 E2].
  apply Z.leb_le in E1. apply Z.ltb_lt in E2. split; assumption.
Qed.

Lemma store_wf (f : Field) (v : json) (us : UploadSession) :
  string_valid v -> session_utf8 us /\ ints_ok us ->
  session_utf8 (fst (store f v us)) /\ ints_ok (fst (store f v us)).
Proof.
  intros Hv Hus.
  assert (S : forall set : string -> UploadSession -> UploadSession,
            (forall s, ValidString s = true ->
                       session_utf8 (set s us) /\ ints_ok (set s us)) ->
            session_utf8 (fst (store_string set v us)) /\
            ints_ok (fst (store_string set v us))).
  { intros set Hset. destruct v; cbn [store_string fst]; try exact Hus.
    apply Hset. exact Hv. }
  assert (Z : forall set : Z -> UploadSession -> UploadSession,
            (forall z, int64_ok z ->
                       session_utf8 (set z us) /\ ints_ok (set z us)) ->
            session_utf8 (fst (store_int64 set v us)) /\
            ints_ok (fst (store_int64 set v us))).
  { intros set Hset. destruct v as [| | x | | |]; cbn [store_int64 fst];
      try exact Hus.
    destruct (ParseInt64 x) as [z |] eqn:Ez; cbn [fst];
      [apply Hset, (ParseInt64_range _ _ Ez) | exact Hus]. }
  destruct Hus as [(H1 & H2 & H3 & H4 & H5) (I1 & I2 & I3)].
  destruct f; cbn [store]; [apply S | apply S | apply Z | apply S | apply S
                            | apply S | apply Z | apply Z];
    intros x Hx;
    (split; [repeat split; assumption | split; [| split]; assumption]).
Qed.

Lemma object_into_wf (m : list (string * json)) :
  members_valid m ->
  forall us, session_utf8 us /\ ints_ok us ->
             session_utf8 (fst (object_into m us)) /\
             ints_ok (fst (object_into m us)).
Proof.
  induction 1 as [| [key v] m Hv Hm IH]; intros us Hus; [exact Hus |].
  cbn [object_into]. cbn [snd] in Hv.
  destruct (find_field key) as [f |].
  - pose proof (store_wf f v us Hv Hus) as H1.
    destruct (store f v us) as [us1 e1]. cbn [fst] in H1.
    specialize (IH us1 H1).
    destruct (object_into m us1) as [us2 e2]. exact IH.
  - specialize (IH us Hus).
    destruct (object_into m us) as [us2 e2]. exact IH.
Qed.

Lemma zero_session_wf : session_utf8 zero_session /\ ints_ok zero_session.
Proof.
  split; [repeat split |].
  unfold ints_ok, int64_ok. cbn [zero_session CreateAt FileSize FileOffset].
  lia.
Qed.

Lemma elements_wf (l : list json) :
  Forall value_valid l ->
  forall us, In (Some us) (fst (elements l)) ->
             session_utf8 us /\ ints_ok us.
Proof.
  induction 1 as [| v l Hv Hl IH]; intros us; [intros [] |].
  cbn [elements].
  assert (He : forall us', fst (element v) = Some us' ->
                           session_utf8 us' /\ ints_ok us').
  { destruct v; cbn [element fst]; try discriminate.
    pose proof (object_into_wf l0 Hv zero_session zero_session_wf) as H.
    destruct (object_into l0 zero_session) as [us0 e0]. cbn [fst] in *.
    intros us' [= <-]. exact H. }
  destruct (element v) as [p e1]. destruct (elements l) as [ps e2].
  cbn [fst] in *. intros [Hp | Hin].
  - apply He. exact Hp.
  - apply IH. exact Hin.
Qed.

Lemma decoded_wf (data : string) (us : UploadSession) :
  UploadSessionFromJson data = Some us -> session_utf8 us /\ ints_ok us.
Proof.
  rewrite UploadSessionFromJson_spec. unfold read_value.
  destruct (scan_value _ data) as [v r | |] eqn:Ev; try discriminate.
  apply scan_value_valid in Ev.
  destruct v; try discriminate.
  - intros [= <-]. exact zero_session_wf.
  - destruct (existsb member_error l); [discriminate |].
    intros [= <-].
    exact (object_into_wf l Ev zero_session zero_session_wf).
Qed.

Lemma decoded_list_wf (data : string) (l : list (option UploadSession))
    (us : UploadSession) :
  UploadSessionsFromJson data = Some l -> In (Some us) l ->
  session_utf8 us /\ ints_ok us /\ Path us = "".
Proof.
  rewrite UploadSessionsFromJson_spec. unfold read_value.
  destruct (scan_value _ data) as [v r | |] eqn:Ev; try discriminate.
  apply scan_value_array_valid in Ev.
  destruct v; try discriminate.
  pose proof (elements_spec l0) as [_ Hp].
  destruct (existsb element_error l0); [discriminate |].
  intros [= <-] Hin.
  destruct (elements_wf l0 Ev us Hin) as [H1 H2].
  split; [exact H1 |]. split; [exact H2 |]. apply Hp, Hin.
Qed.

(** X10.  Whatever bytes the stream holds, a session that
    UploadSessionFromJson returns has an Id, a Type, a UserId, a ChannelId
    and a Filename that are well-formed UTF-8, integers in the range of
    int64 and an empty Path; so has every session of a list that
    UploadSessionsFromJson returns. *)
Theorem decoded_sessions_well_formed :
  forall (data : string) (us : UploadSession),
    UploadSessionFromJson data = Some us \/
    (exists l, UploadSessionsFromJson data = Some l /\ In (Some us) l) ->
    session_utf8 us /\ ints_ok us /\ Path us = "".
Proof.
  intros data us [H | (l & H & Hin)].
  - destruct (decoded_wf _ _ H) as [H1 H2].
    split; [exact H1 |]. split; [exact H2 |]. exact (FromJson_Path _ _ H).
  - exact (decoded_list_wf _ _ _ H Hin).
Qed.

Lemma decoded_sessions_well_formed_witness :
  session_utf8 (set_Filename replaced_name (set_Path "" session_latin1)) /\
  ints_ok (set_Filename replaced_name (set_Path "" session_latin1)) /\
  Path (set_Filename replaced_name (set_Path "" session_latin1)) = "".
Proof.
  apply (decoded_sessions_well_formed (ToJson session_latin1)).
  left. vm_compute. reflexivity.
Defined.

(** X11.  A session that UploadSessionFromJson returns is a fixed point of
    the round trip: serializing it with ToJson and decoding the result gives
    the same session again. *)
Theorem decoded_session_roundtrips :
  forall (data : string) (us : UploadSession),
    UploadSessionFromJson data = Some us ->
    UploadSessionFromJson (ToJson us) = Some us.
Proof.
  intros data us H. pose proof (FromJson_Path _ _ H) as Hp.
  destruct (decoded_wf _ _ H) as [(H1 & H2 & H3 & H4 & H5) Hi].
  rewrite FromJson_ToJson by exact Hi.
  rewrite coerce_session_valid by assumption.
  destruct us. simpl in Hp. subst. reflexivity.
Qed.

Lemma decoded_session_roundtrips_witness :
  UploadSessionFromJson (ToJson (set_Filename replaced_name
                                   (set_Path "" session_latin1))) =
  Some (set_Filename replaced_name (set_Path "" session_latin1)).
Proof.
  apply (decoded_session_roundtrips (ToJson session_latin1)).
  vm_compute. reflexivity.
Defined.


(** X12.  For sessions with well-formed strings, ToJson determines every
    field except the Path: two sessions have the same serialization exactly
    when they are equal once their Paths are blanked. *)
Theorem ToJson_eq_iff :
  forall us us' : UploadSession,
    session_utf8 us -> session_utf8 us' -> ints_ok us -> ints_ok us' ->
    (ToJson us = ToJson us' <-> set_Path "" us = set_Path "" us').
Proof.
  intros us us' (H1 & H2 & H3 & H4 & H5) (H1' & H2' & H3' & H4' & H5') Hi Hi'.
  split; intros E.
  - pose proof (FromJson_ToJson us Hi) as D.
    rewrite E, (FromJson_ToJson us' Hi') in D.
    rewrite !coerce_session_valid in D by assumption.
    assert (D' : forall a b : UploadSession, Some a = Some b -> a = b)
      by (intros a b [= ->]; reflexivity).
    symmetry. apply D', D.
  - unfold ToJson. rewrite <- (Marshal_set_Path "" us), E.
    apply Marshal_set_Path.
Qed.

Lemma ToJson_eq_iff_witness :
  ToJson session_attachment = ToJson (set_Path "elsewhere" session_attachment)
  <-> set_Path "" session_attachment =
      set_Path "" (set_Path "elsewhere" session_attachment).
Proof.
  apply (ToJson_eq_iff session_attachment
           (set_Path "elsewhere" session_attachment)).
  - repeat split.
  - repeat split.
  - unfold ints_ok, int64_ok. cbn [session_attachment CreateAt FileSize
      FileOffset]. lia.
  - unfold ints_ok, int64_ok. cbn [session_attachment set_Path CreateAt
      FileSize FileOffset]. lia.
Defined.

(** ** The serializations are well-formed UTF-8 *)

Lemma chunk_nil : utf8_chunk "".
Proof. intros X. reflexivity. Qed.

Lemma chunk_append (a b : string) :
  utf8_chunk a -> utf8_chunk b -> utf8_chunk (a ++ b).
Proof. intros Ha Hb X. rewrite append_assoc, Ha, Hb. reflexivity. Qed.

Lemma chunk_cons (c : ascii) (a : string) :
  is_ascii c = true -> utf8_chunk a -> utf8_chunk (String c a).
Proof.
  intros Hc Ha X. cbn [append]. rewrite valid_ascii_cons; [apply Ha |].
  apply N.ltb_lt. exact Hc.
Qed.

Lemma chunk_ascii (a : string) : all_chars is_ascii a = true -> utf8_chunk a.
Proof.
  induction a as [| c a IH]; cbn [all_chars]; [intros _; apply chunk_nil |].
  intros H. apply andb_true_iff in H. destruct H as [Hc Ha].
  apply chunk_cons; [exact Hc | exact (IH Ha)].
Qed.

Lemma chunk_valid (a : string) : utf8_chunk a -> ValidString a = true.
Proof.
  intros H. unfold ValidString. rewrite <- (append_nil_r a). apply H.
Qed.

Lemma hex_digit_ascii (n : N) : is_ascii (hex_digit n) = true.
Proof.
  unfold hex_digit. generalize (N.to_nat n). intros m.
  do 16 (destruct m as [| m]; [reflexivity |]). reflexivity.
Qed.

Lemma escape_byte_chunk (c : ascii) :
  is_ascii c = true -> utf8_chunk (escape_byte c).
Proof.
  intros Hc. unfold escape_byte. apply chunk_cons; [reflexivity |].
  destruct (Ascii.eqb c bslash || Ascii.eqb c dquote);
    [apply chunk_cons; [exact Hc | apply chunk_nil] |].
  destruct (Ascii.eqb c char_lf); [apply chunk_ascii; reflexivity |].
  destruct (Ascii.eqb c char_cr); [apply chunk_ascii; reflexivity |].
  destruct (Ascii.eqb c char_tab); [apply chunk_ascii; reflexivity |].
  apply (chunk_append "u00"); [apply chunk_ascii; reflexivity |].
  apply chunk_cons; [apply hex_digit_ascii |].
  apply chunk_cons; [apply hex_digit_ascii | apply chunk_nil].
Qed.

(** What the encoder writes for a string is well-formed, whatever the
    bytes of the string. *)
Lemma encode_from_chunk :
  forall (s : string) (k : nat), utf8_chunk (encode_from k s).
Proof.
  induction s as [| c t IH]; intros k; [destruct k; apply chunk_nil |].
  destruct k as [| k]; cbn [encode_from]; [| apply IH].
  destruct (N.ltb_spec (byte c) RuneSelf) as [Hlt | Hge].
  { apply chunk_append; [| apply IH].
    assert (Hc : is_ascii c = true) by (apply N.ltb_lt; exact Hlt).
    destruct (htmlSafe c);
      [apply chunk_cons; [exact Hc | apply chunk_nil]
      | apply escape_byte_chunk, Hc]. }
  destruct (DecodeRune_cases c t Hge)
    as [Hd | c1 t' lo hi -> Hf Hr | c1 c2 t' lo hi -> Hf Hr H2
        | c1 c2 c3 t' lo hi -> Hf Hr H2 H3].
  - rewrite Hd. cbn [N.eqb Nat.eqb andb]. rewrite N.eqb_refl. cbn [andb].
    apply (chunk_append (String bslash "ufffd"));
      [apply chunk_ascii; reflexivity | apply IH].
  - rewrite (DecodeRune_2 _ _ t' _ _ Hf Hr). rewrite andb_false_r.
    destruct ((rune2 c c1 =? 0x2028) || (rune2 c c1 =? 0x2029))%N.
    + apply (chunk_append (String bslash "u202"));
        [apply chunk_ascii; reflexivity |].
      apply chunk_cons; [apply hex_digit_ascii | apply IH].
    + cbn [take Nat.sub append]. intros X. cbn [append valid_from].
      rewrite (DecodeRune_2 _ _ _ _ _ Hf Hr). rewrite andb_false_r.
      cbn [Nat.sub valid_from]. apply (IH 1%nat).
  - rewrite (DecodeRune_3 _ _ _ t' _ _ Hf Hr H2). rewrite andb_false_r.
    destruct ((rune3 c c1 c2 =? 0x2028) || (rune3 c c1 c2 =? 0x2029))%N.
    + apply (chunk_append (String bslash "u202"));
        [apply chunk_ascii; reflexivity |].
      apply chunk_cons; [apply hex_digit_ascii | apply IH].
    + cbn [take Nat.sub append]. intros X. cbn [append valid_from].
      rewrite (DecodeRune_3 _ _ _ _ _ _ Hf Hr H2). rewrite andb_false_r.
      cbn [Nat.sub valid_from]. apply (IH 2%nat).
  - rewrite (DecodeRune_4 _ _ _ _ t' _ _ Hf Hr H2 H3). rewrite andb_false_r.
    destruct ((rune4 c c1 c2 c3 =? 0x2028)
              || (rune4 c c1 c2 c3 =? 0x2029))%N.
    + apply (chunk_append (String bslash "u202"));
        [apply chunk_ascii; reflexivity |].
      apply chunk_cons; [apply hex_digit_ascii | apply IH].
    + cbn [take Nat.sub append]. intros X. cbn [append valid_from].
      rewrite (DecodeRune_4 _ _ _ _ _ _ _ Hf Hr H2 H3). rewrite andb_false_r.
      cbn [Nat.sub valid_from]. apply (IH 3%nat).
Qed.

Lemma encode_string_chunk (s : string) : utf8_chunk (encode_string s).
Proof.
  unfold encode_string. apply chunk_cons; [reflexivity |].
  apply chunk_append; [apply encode_from_chunk |].
  apply chunk_ascii. reflexivity.
Qed.

Lemma string_of_uint_ascii (d : uint) :
  all_chars is_ascii (NilEmpty.string_of_uint d) = true.
Proof.
  induction d; cbn [NilEmpty.string_of_uint all_chars];
    [reflexivity | rewrite IHd; reflexivity ..].
Qed.

Lemma FormatInt_chunk (z : Z) : utf8_chunk (FormatInt z).
Proof.
  apply chunk_ascii. unfold FormatInt.
  destruct (Z.to_int z) as [d | d]; cbn [NilEmpty.string_of_int all_chars];
    rewrite string_of_uint_ascii; reflexivity.
Qed.

Lemma encode_field_chunk (f : string * fvalue) : utf8_chunk (encode_field f).
Proof.
  unfold encode_field. apply chunk_append; [apply encode_string_chunk |].
  apply (chunk_append ":"); [apply chunk_ascii; reflexivity |].
  destruct (snd f); [apply encode_string_chunk | apply FormatInt_chunk].
Qed.

Lemma join_chunk (l : list string) :
  Forall utf8_chunk l -> utf8_chunk (join "," l).
Proof.
  induction 1 as [| x l Hx Hl IH]; [apply chunk_nil |].
  destruct l as [| y l]; [exact Hx |].
  change (join "," (x :: y :: l)) with (x ++ "," ++ join "," (y :: l)).
  apply chunk_append; [exact Hx |].
  apply (chunk_append ","); [apply chunk_ascii; reflexivity | exact IH].
Qed.

Lemma Marshal_chunk (us : UploadSession) : utf8_chunk (Marshal us).
Proof.
  unfold Marshal. apply (chunk_append "{"); [apply chunk_ascii; reflexivity |].
  apply chunk_append; [| apply chunk_ascii; reflexivity].
  apply join_chunk. apply Forall_forall. intros x Hx.
  apply in_map_iff in Hx. destruct Hx as (f & <- & _).
  apply encode_field_chunk.
Qed.

(** X13.  Whatever bytes the strings of the sessions hold, the outputs of
    ToJson and of UploadSessionsToJson are well-formed UTF-8. *)
Theorem serializations_well_formed :
  forall (us : UploadSession) (uss : option (list (option UploadSession))),
    ValidString (ToJson us) = true /\
    ValidString (UploadSessionsToJson uss) = true.
Proof.
  intros us uss. split; [apply chunk_valid, Marshal_chunk |].
  apply chunk_valid. unfold UploadSessionsToJson, MarshalList.
  destruct uss as [l |]; [| apply chunk_ascii; reflexivity].
  apply (chunk_append "["); [apply chunk_ascii; reflexivity |].
  apply chunk_append; [| apply chunk_ascii; reflexivity].
  apply join_chunk. apply Forall_forall. intros x Hx.
  apply in_map_iff in Hx. destruct Hx as ([us' |] & <- & _).
  - apply Marshal_chunk.
  - apply chunk_ascii. reflexivity.
Qed.


(** ** The serializations hold no markup *)

Lemma all_chars_append (p : ascii -> bool) (a b : string) :
  all_chars p (a ++ b) = all_chars p a && all_chars p b.
Proof.
  induction a as [| c a IH]; [reflexivity |].
  cbn [append all_chars]. rewrite IH. apply andb_assoc.
Qed.

Lemma wire_safe_high (c : ascii) : (RuneSelf <= byte c)%N -> wire_safe c = true.
Proof.
  unfold RuneSelf, wire_safe. intros H. apply andb_true_iff. split.
  - apply N.leb_le. lia.
  - apply negb_true_iff.
    destruct (Ascii.eqb_spec c "<") as [-> | _]; [exfalso; vm_compute in H; auto |].
    destruct (Ascii.eqb_spec c ">") as [-> | _]; [exfalso; vm_compute in H; auto |].
    destruct (Ascii.eqb_spec c "&") as [-> | _]; [exfalso; vm_compute in H; auto |].
    reflexivity.
Qed.

Lemma htmlSafe_wire_safe (c : ascii) : htmlSafe c = true -> wire_safe c = true.
Proof.
  unfold htmlSafe, wire_safe. intros H. apply negb_true_iff in H.
  repeat (apply orb_false_iff in H; destruct H as [H ?]).
  apply andb_true_iff. split.
  - apply N.leb_le. apply N.ltb_ge in H. exact H.
  - apply negb_true_iff.
    repeat match goal with E : _ = false |- _ => rewrite E; clear E end.
    reflexivity.
Qed.

Lemma hex_digit_wire_safe (n : N) : wire_safe (hex_digit n) = true.
Proof.
  unfold hex_digit. generalize (N.to_nat n). intros m.
  do 16 (destruct m as [| m]; [reflexivity |]). reflexivity.
Qed.

Lemma escape_byte_wire_safe (c : ascii) :
  all_chars wire_safe (escape_byte c) = true.
Proof.
  unfold escape_byte. cbn [all_chars]. apply andb_true_iff.
  split; [reflexivity |].
  destruct (Ascii.eqb_spec c bslash) as [-> | _]; [reflexivity |].
  destruct (Ascii.eqb_spec c dquote) as [-> | _]; [reflexivity |].
  cbn [orb].
  destruct (Ascii.eqb c char_lf); [reflexivity |].
  destruct (Ascii.eqb c char_cr); [reflexivity |].
  destruct (Ascii.eqb c char_tab); [reflexivity |].
  cbn [append all_chars str1]. rewrite !hex_digit_wire_safe. reflexivity.
Qed.

(** What the encoder writes for a string holds no control character and
    no markup, whatever the bytes of the string. *)
Lemma encode_from_wire_safe :
  forall (s : string) (k : nat),
    all_chars wire_safe (encode_from k s) = true.
Proof.
  induction s as [| c t IH]; intros k; [destruct k; reflexivity |].
  destruct k as [| k]; cbn [encode_from]; [| apply IH].
  destruct (N.ltb_spec (byte c) RuneSelf) as [Hlt | Hge].
  { rewrite all_chars_append, IH, andb_true_r.
    destruct (htmlSafe c) eqn:Hs.
    - cbn [str1 all_chars]. rewrite (htmlSafe_wire_safe _ Hs). reflexivity.
    - apply escape_byte_wire_safe. }
  pose proof (wire_safe_high c Hge) as Hc.
  destruct (DecodeRune_cases c t Hge)
    as [Hd | c1 t' lo hi -> Hf Hr | c1 c2 t' lo hi -> Hf Hr H2
        | c1 c2 c3 t' lo hi -> Hf Hr H2 H3].
  - rewrite Hd. rewrite N.eqb_refl. cbn [Nat.eqb andb].
    rewrite all_chars_append, IH. reflexivity.
  - pose proof (wire_safe_high c1 (range_high _ _ _ _ _ Hf Hr)) as Hc1.
    rewrite (DecodeRune_2 _ _ t' _ _ Hf Hr). rewrite andb_false_r.
    destruct ((rune2 c c1 =? 0x2028) || (rune2 c c1 =? 0x2029))%N;
      rewrite ?all_chars_append, IH; cbn [take all_chars str1];
      rewrite ?hex_digit_wire_safe, ?Hc, ?Hc1; reflexivity.
  - pose proof (wire_safe_high c1 (range_high _ _ _ _ _ Hf Hr)) as Hc1.
    pose proof (wire_safe_high c2 (cont_high _ H2)) as Hc2.
    rewrite (DecodeRune_3 _ _ _ t' _ _ Hf Hr H2). rewrite andb_false_r.
    destruct ((rune3 c c1 c2 =? 0x2028) || (rune3 c c1 c2 =? 0x2029))%N;
      rewrite ?all_chars_append, IH; cbn [take all_chars str1];
      rewrite ?hex_digit_wire_safe, ?Hc, ?Hc1, ?Hc2; reflexivity.
  - pose proof (wire_safe_high c1 (range_high _ _ _ _ _ Hf Hr)) as Hc1.
    pose proof (wire_safe_high c2 (cont_high _ H2)) as Hc2.
    pose proof (wire_safe_high c3 (cont_high _ H3)) as Hc3.
    rewrite (DecodeRune_4 _ _ _ _ t' _ _ Hf Hr H2 H3). rewrite andb_false_r.
    destruct ((rune4 c c1 c2 c3 =? 0x2028)
              || (rune4 c c1 c2 c3 =? 0x2029))%N;
      rewrite ?all_chars_append, IH; cbn [take all_chars str1];
      rewrite ?hex_digit_wire_safe, ?Hc, ?Hc1, ?Hc2, ?Hc3; reflexivity.
Qed.

Lemma encode_string_wire_safe (s : string) :
  all_chars wire_safe (encode_string s) = true.
Proof.
  unfold encode_string. cbn [all_chars].
  rewrite all_chars_append, encode_from_wire_safe. reflexivity.
Qed.

Lemma string_of_uint_wire_safe (d : uint) :
  all_chars wire_safe (NilEmpty.string_of_uint d) = true.
Proof.
  induction d; cbn [NilEmpty.string_of_uint all_chars];
    [reflexivity | rewrite IHd; reflexivity ..].
Qed.

Lemma FormatInt_wire_safe (z : Z) : all_chars wire_safe (FormatInt z) = true.
Proof.
  unfold FormatInt.
  destruct (Z.to_int z) as [d | d]; cbn [NilEmpty.string_of_int all_chars];
    rewrite string_of_uint_wire_safe; reflexivity.
Qed.

Lemma join_wire_safe (l : list string) :
  Forall (fun x => all_chars wire_safe x = true) l ->
  all_chars wire_safe (join "," l) = true.
Proof.
  induction 1 as [| x l Hx Hl IH]; [reflexivity |].
  destruct l as [| y l]; [exact Hx |].
  change (join "," (x :: y :: l)) with (x ++ "," ++ join "," (y :: l)).
  rewrite !all_chars_append, Hx, IH. reflexivity.
Qed.

Lemma Marshal_wire_safe (us : UploadSession) :
  all_chars wire_safe (Marshal us) = true.
Proof.
  unfold Marshal. rewrite !all_chars_append.
  rewrite join_wire_safe; [reflexivity |].
  apply Forall_forall. intros x Hx.
  apply in_map_iff in Hx. destruct Hx as (f & <- & _).
  unfold encode_field. rewrite !all_chars_append, encode_string_wire_safe.
  destruct (snd f); cbn [encode_value];
    rewrite ?encode_string_wire_safe, ?FormatInt_wire_safe; reflexivity.
Qed.

(** X14.  Whatever bytes the strings of the sessions hold, the outputs of
    ToJson and of UploadSessionsToJson hold no control character (no byte
    below 0x20) and none of the characters <, > and &: the encoder writes
    them as escapes. *)
Theorem serializations_hold_no_markup :
  forall (us : UploadSession) (uss : option (list (option UploadSession))),
    all_chars wire_safe (ToJson us) = true /\
    all_chars wire_safe (UploadSessionsToJson uss) = true.
Proof.
  intros us uss. split; [apply Marshal_wire_safe |].
  unfold UploadSessionsToJson, MarshalList.
  destruct uss as [l |]; [| reflexivity].
  rewrite !all_chars_append.
  rewrite join_wire_safe; [reflexivity |].
  apply Forall_forall. intros x Hx.
  apply in_map_iff in Hx. destruct Hx as ([us' |] & <- & _).
  - apply Marshal_wire_safe.
  - reflexivity.
Qed.
